(** * VideoDownloaderBot: a shallow embedding of [main.py]

    The development follows the layout of the source file: helpers for
    the values Python hands around, the status reporter ([_safe_edit]),
    the progress calculator, the size planner with its range probe, the
    audio fitter, the decision gate of [_send_choice_ui], the callbacks
    ([on_cancel], [on_download_choice]) and the worker
    ([_download_and_send]), then the two readers of a message's text
    ([_extract_first_url], [get_text]).

    Conventions of the embedding.
    - A Python [int] is a [Z]; a Python [float] is an exact rational [Q]
      (finite values only; rounding of the binary representation is not
      modelled).  [int(x)] truncates toward zero.
    - A dictionary that is used as a map is a [gmap]; a dictionary that is
      used as a record (a format, a plan, a job) is a [Record] whose
      optional keys are [option] fields.
    - Mutable module-level state is threaded explicitly through a record
      [bot_state]; calls to the chat platform are appended to an outbox.
    - External collaborators (the network, the resolution library, the
      chat platform, the clock, the random id source) are parameters. *)

From Stdlib Require Import ZArith QArith Qround Lia List Bool Ascii String Sorted.
From stdpp Require Import base option list strings gmap pretty.

Local Open Scope string_scope.
Local Open Scope list_scope.
Local Open Scope Z_scope.

(** ** Python values *)

Module Py.

(** A number as [isinstance(x, (int, float))] sees it. *)
Inductive num : Type :=
| Int (z : Z)
| Float (q : Q).

Definition Qlt_bool (a b : Q) : bool := negb (Qle_bool b a).

(** [x > 0] *)
Definition positive (x : num) : bool :=
  match x with
  | Int z => 0 <? z
  | Float q => Qlt_bool 0 q
  end.

(** Truth value of a number: zero is false. *)
Definition truthy (x : num) : bool :=
  match x with
  | Int z => negb (z =? 0)
  | Float q => negb (Qeq_bool q 0)
  end.

(** [int(q)] on a float: truncation toward zero. *)
Definition trunc (q : Q) : Z := Z.quot (Qnum q) (Z.pos (Qden q)).

(** [int(x)] *)
Definition to_int (x : num) : Z :=
  match x with
  | Int z => z
  | Float q => trunc q
  end.

(** [float(x)] *)
Definition to_float (x : num) : Q :=
  match x with
  | Int z => inject_Z z
  | Float q => q
  end.

(** [isinstance(x, int)], with the value when it holds. *)
Definition as_int (x : option num) : option Z :=
  match x with
  | Some (Int z) => Some z
  | _ => None
  end.

(** [x or 0] for an optional number. *)
Definition or_zero (x : option num) : num :=
  match x with
  | Some v => if truthy v then v else Int 0
  | None => Int 0
  end.

(** Truth value of an optional string: [None] and [""] are false. *)
Definition str_truthy (s : option string) : bool :=
  match s with
  | Some EmptyString => false
  | Some _ => true
  | None => false
  end.

(** [str(x)] for an optional string. *)
Definition str_of (s : option string) : string :=
  match s with
  | Some v => v
  | None => "None"
  end.

(** [s.startswith(p)] *)
Definition startswith (p s : string) : bool := String.prefix p s.

End Py.

(** ** Configuration

    [MAX_SEND_BYTES] is read from the configuration module, which is not
    part of the source file; every definition that uses it takes it as a
    parameter. *)

Definition EDIT_INTERVAL_SEC : Q := 18 # 10.
Definition WORKERS : Z := 2.
Definition PENDING_TTL_SEC : Q := inject_Z (10 * 60).
Definition AUDIO_HEADROOM_BYTES : Z := 1500000.

(** ** [_fmt_bytes] *)

(** Rounding to the nearest integer, ties to even, as [f"{v:.1f}"] does on
    the exact value of [10 * v]. *)
Definition round_half_even (q : Q) : Z :=
  let f := Qfloor q in
  match Qcompare (q - inject_Z f) (1 # 2) with
  | Lt => f
  | Gt => f + 1
  | Eq => if Z.even f then f else f + 1
  end.

Definition units : list string := ["B"; "KB"; "MB"; "GB"].

(** The [while v >= 1024 and i < len(units) - 1] loop; it runs at most
    [len(units) - 1] times, which is the fuel given by [_fmt_bytes]. *)
Fixpoint fmt_scale (fuel : nat) (v : Q) (i : nat) : Q * nat :=
  match fuel with
  | O => (v, i)
  | S k =>
      if Qle_bool (inject_Z 1024) v && (i <? length units - 1)%nat
      then fmt_scale k (v / inject_Z 1024) (S i)
      else (v, i)
  end.

Definition _fmt_bytes (n : option Z) : string :=
  match n with
  | None => "unknown"
  | Some n =>
      if n <? 0 then "unknown" else
      let '(v, i) := fmt_scale (length units - 1) (inject_Z n) 0 in
      let unit := default "" (units !! i) in
      match i with
      | O => pretty (Py.trunc v) +:+ " " +:+ unit
      | _ =>
          let r := round_half_even (v * inject_Z 10) in
          pretty (r / 10) +:+ "." +:+ pretty (r mod 10) +:+ " " +:+ unit
      end
  end.

(** ** String helpers used by the parsers *)

(** [str.isspace] on the ASCII range. *)
Definition is_space (c : ascii) : bool :=
  let n := nat_of_ascii c in
  ((9 <=? n) && (n <=? 13) || (28 <=? n) && (n <=? 32))%nat.

(** [c.isdigit()] on the ASCII range. *)
Definition is_digit (c : ascii) : bool :=
  let n := nat_of_ascii c in ((48 <=? n) && (n <=? 57))%nat.

Fixpoint drop_while (p : ascii -> bool) (l : list ascii) : list ascii :=
  match l with
  | [] => []
  | c :: l' => if p c then drop_while p l' else l
  end.

(** [s.strip()] *)
Definition strip (s : string) : string :=
  string_of_list_ascii
    (rev (drop_while is_space (rev (drop_while is_space (list_ascii_of_string s))))).

(** [int(s)] for a non-empty string of decimal digits, as matched by
    [\d+] or accepted by [s.isdigit()]; [None] for any other string. *)
Fixpoint digits_value_go (acc : Z) (l : list ascii) : option Z :=
  match l with
  | [] => Some acc
  | c :: l' =>
      if is_digit c
      then digits_value_go (10 * acc + (Z.of_nat (nat_of_ascii c) - 48)) l'
      else None
  end.

Definition digits_value (s : string) : option Z :=
  match list_ascii_of_string s with
  | [] => None
  | l => digits_value_go 0 l
  end.

(** [s.split(sep)] for a one-character separator. *)
Fixpoint split_on (sep : ascii) (s : string) : list string :=
  match s with
  | EmptyString => [EmptyString]
  | String c s' =>
      if Ascii.eqb c sep then EmptyString :: split_on sep s'
      else match split_on sep s' with
           | [] => [String c EmptyString]
           | w :: ws => String c w :: ws
           end
  end.

(** The text after the last ["/"] of [s], if [s] has one. *)
Definition after_last_slash (s : string) : option string :=
  match split_on "/" s with
  | [] | [_] => None
  | ws => last ws
  end.

(** [os.path.basename] *)
Definition basename (s : string) : string :=
  default s (last (split_on "/" s)).

(** [sub in s] *)
Fixpoint contains (sub s : string) : bool :=
  String.prefix sub s ||
  match s with
  | EmptyString => false
  | String _ s' => contains sub s'
  end.

(** [s.lower().endswith(suffix.lower())] is used on file extensions only;
    lower-casing on the ASCII range. *)
Definition lower_ascii (c : ascii) : ascii :=
  let n := nat_of_ascii c in
  if ((65 <=? n) && (n <=? 90))%nat then ascii_of_nat (n + 32) else c.

Definition lower (s : string) : string :=
  string_of_list_ascii (map lower_ascii (list_ascii_of_string s)).

Definition endswith (suffix s : string) : bool :=
  String.prefix
    (string_of_list_ascii (rev (list_ascii_of_string suffix)))
    (string_of_list_ascii (rev (list_ascii_of_string s))).

(** ** Progress calculator *)

(** The dictionary a progress hook receives from the resolution library. *)
Record progress_dict : Type := {
  status : option string;
  filename : option string;
  tmpfilename : option string;
  downloaded_bytes : option Py.num;
  total_bytes : option Py.num;
  fragment_count : option Py.num;
  fragment_index : option Py.num;
  total_bytes_estimate : option Py.num
}.

(** [isinstance(frag_count, int) and frag_count > 0 and
    isinstance(frag_index, int)] *)
Definition fragment_signal (d : progress_dict) : option (Z * Z) :=
  match Py.as_int (fragment_count d), Py.as_int (fragment_index d) with
  | Some frag_count, Some frag_index =>
      if 0 <? frag_count then Some (frag_count, frag_index) else None
  | _, _ => None
  end.

(** [isinstance(total, int) and total > 0 and isinstance(downloaded, int)
    and downloaded >= 0] *)
Definition byte_signal (total downloaded : option Py.num) : option (Z * Z) :=
  match Py.as_int total, Py.as_int downloaded with
  | Some total, Some downloaded =>
      if (0 <? total) && (0 <=? downloaded) then Some (total, downloaded) else None
  | _, _ => None
  end.

(** The tail shared by the three branches: cap at 99, never go below the
    last value stored for the job, store the result. *)
Definition settle_pct (pct : Z) (state : gmap string Z) : Z * gmap string Z :=
  let pct := if 100 <=? pct then 99 else pct in
  let prev := default 0 (state !! "pct") in
  let pct := if pct <? prev then prev else pct in
  (pct, <["pct" := pct]> state).

(** [_calc_download_progress].  The three percentages are
    [int((a * 100) / b)] with [a >= 0] and [b > 0]: the quotient is not
    negative, so truncation is the floor, written here with the division
    of [Z] (the two agree as long as [a * 100] is below [2^53], where the
    float quotient cannot reach the next integer). *)
Definition _calc_download_progress (d : progress_dict) (state : gmap string Z)
  : (option Z * option Z * option Z) * gmap string Z :=
  let downloaded := downloaded_bytes d in
  let total := total_bytes d in
  match fragment_signal d with
  | Some (frag_count, frag_index) =>
      let idx := frag_index in
      let idx := if idx <? 0 then 0 else idx in
      let idx := if frag_count <? idx then frag_count else idx in
      let '(pct, state) := settle_pct ((idx * 100) / frag_count) state in
      ((Some pct, None, None), state)
  | None =>
      match byte_signal total downloaded with
      | Some (total, downloaded) =>
          let '(pct, state) := settle_pct ((downloaded * 100) / total) state in
          ((Some pct, Some downloaded, Some total), state)
      | None =>
          match byte_signal (total_bytes_estimate d) downloaded with
          | Some (total_est, downloaded) =>
              let '(pct, state) := settle_pct ((downloaded * 100) / total_est) state in
              ((Some pct, Some downloaded, Some total_est), state)
          | None => ((None, Py.as_int downloaded, None), state)
          end
      end
  end.

(** Feeding a sequence of signals to the calculator with one shared state,
    as the progress hook of one job does; the result lists the percentage
    computed for each signal. *)
Fixpoint feed_progress (ds : list progress_dict) (state : gmap string Z)
  : list (option Z) :=
  match ds with
  | [] => []
  | d :: ds' =>
      let '((pct, _, _), state') := _calc_download_progress d state in
      pct :: feed_progress ds' state'
  end.

(** The state a worker creates for a job: [{"pct": 0}]. *)
Definition initial_progress_state : gmap string Z := {["pct" := 0]}.

(** The value the next call reads as [prev]: [state.get("pct", 0)]. *)
Definition stored_pct (state : gmap string Z) : Z := default 0 (state !! "pct").

(** ** Metadata, formats and plans *)

(** One entry of [meta["formats"]].  The resolution library gives [height]
    as an integer, so [int(height)] is the identity; [fps], the bitrates
    and the sizes may be floats. *)
Record format : Type := {
  ext : option string;
  vcodec : option string;
  acodec : option string;
  height : option Z;
  fps : option Py.num;
  tbr : option Py.num;
  abr : option Py.num;
  filesize : option Py.num;
  filesize_approx : option Py.num;
  format_url : option string;
  format_id : option string
}.

Record meta : Type := {
  duration : option Py.num;
  formats : list format;
  meta_title : option string
}.

(** A plan dictionary; the video plans carry [kind] and [probe_urls], the
    audio plan carries [mp3_kbps]. *)
Record plan : Type := {
  kind : option string;
  format_spec : string;
  merge_output_format : option string;
  mp3_kbps : option Z;
  estimated_size : option Z;
  estimated_confident : bool;
  probe_urls : list string;
  quality_label : string
}.

Definition set_estimated_size (v : option Z) (p : plan) : plan :=
  {| kind := kind p; format_spec := format_spec p;
     merge_output_format := merge_output_format p; mp3_kbps := mp3_kbps p;
     estimated_size := v; estimated_confident := estimated_confident p;
     probe_urls := probe_urls p; quality_label := quality_label p |}.

Definition set_estimated_confident (v : bool) (p : plan) : plan :=
  {| kind := kind p; format_spec := format_spec p;
     merge_output_format := merge_output_format p; mp3_kbps := mp3_kbps p;
     estimated_size := estimated_size p; estimated_confident := v;
     probe_urls := probe_urls p; quality_label := quality_label p |}.

Definition _duration_sec (m : meta) : option Z :=
  match duration m with
  | Some dur => if Py.positive dur then Some (Py.to_int dur) else None
  | None => None
  end.

(** [isinstance(x, int) and x > 0] *)
Definition positive_int (x : option Py.num) : option Z :=
  match Py.as_int x with
  | Some z => if 0 <? z then Some z else None
  | None => None
  end.

(** [if dur] for the result of [_duration_sec]: [None] and [0] are false. *)
Definition dur_truthy (dur : option Z) : option Z :=
  match dur with
  | Some d => if d =? 0 then None else Some d
  | None => None
  end.

Definition _format_size_bytes (fmt : format) (dur : option Z) : option Z * bool :=
  match positive_int (filesize fmt) with
  | Some fs => (Some fs, true)
  | None =>
      match positive_int (filesize_approx fmt) with
      | Some fsa => (Some fsa, true)
      | None =>
          match dur_truthy dur, tbr fmt with
          | Some dur, Some tbr =>
              if Py.positive tbr then
                let est :=
                  Py.trunc (inject_Z dur *
                            (Py.to_float tbr * inject_Z 1000 / inject_Z 8)) in
                if 0 <? est then (Some est, false) else (None, false)
              else (None, false)
          | _, _ => (None, false)
          end
      end
  end.

(** [f.get(k) == "none"] and [f.get(k) != "none"] *)
Definition is_none_codec (c : option string) : bool :=
  match c with
  | Some s => String.eqb s "none"
  | None => false
  end.

Definition ext_is (e : string) (f : format) : bool :=
  match ext f with
  | Some s => String.eqb s e
  | None => false
  end.

(** The selection key [(int(height), int(fps), float(tbr))]. *)
Definition video_key (f : format) : Z * Z * Q :=
  let height := default 0 (height f) in
  let fps := Py.or_zero (fps f) in
  let tbr := Py.or_zero (tbr f) in
  (height, Py.to_int fps, Py.to_float tbr).

(** [key > best_key] on such tuples: the first component that differs
    decides. *)
Definition video_key_gt (key best_key : Z * Z * Q) : bool :=
  let '(h, f, t) := key in
  let '(bh, bf, bt) := best_key in
  if negb (h =? bh) then bh <? h
  else if negb (f =? bf) then bf <? f
  else Py.Qlt_bool bt t.

(** [f"{height}p" if height else "mp4"] *)
Definition height_label (f : format) : string :=
  let height := default 0 (height f) in
  if height =? 0 then "mp4" else pretty height +:+ "p".

Definition url_list (f : format) : list string :=
  if Py.str_truthy (format_url f) then [default "" (format_url f)] else [].

Definition progressive_plan (dur : option Z) (f : format) : plan :=
  let '(size, conf) := _format_size_bytes f dur in
  {| kind := Some "progressive";
     format_spec := Py.str_of (format_id f);
     merge_output_format := None;
     mp3_kbps := None;
     estimated_size := size;
     estimated_confident := conf;
     probe_urls := url_list f;
     quality_label := height_label f |}.

Definition progressive_eligible (f : format) : bool :=
  ext_is "mp4" f && negb (is_none_codec (vcodec f) || is_none_codec (acodec f)).

(** One iteration of the loop of [_best_progressive_mp4] on the pair
    [(best, best_key)]. *)
Definition progressive_step (dur : option Z) (st : option (plan * (Z * Z * Q)))
  (f : format) : option (plan * (Z * Z * Q)) :=
  if negb (ext_is "mp4" f) then st
  else if is_none_codec (vcodec f) || is_none_codec (acodec f) then st
  else
    let key := video_key f in
    match st with
    | None => Some (progressive_plan dur f, key)
    | Some (_, best_key) =>
        if video_key_gt key best_key then Some (progressive_plan dur f, key)
        else st
    end.

Definition _best_progressive_mp4 (m : meta) : option plan :=
  fst <$> fold_left (progressive_step (_duration_sec m)) (formats m) None.

(** The entries [{"f": f, "size": size, "conf": conf}] kept by
    [_best_separate_mp4_m4a]. *)
Record best_entry : Type := {
  be_f : format;
  be_size : option Z;
  be_conf : bool
}.

Definition best_entry_of (dur : option Z) (f : format) : best_entry :=
  let '(size, conf) := _format_size_bytes f dur in
  {| be_f := f; be_size := size; be_conf := conf |}.

Definition video_only_eligible (f : format) : bool :=
  ext_is "mp4" f && negb (is_none_codec (vcodec f)) && is_none_codec (acodec f).

Definition audio_only_eligible (f : format) : bool :=
  is_none_codec (vcodec f) && negb (is_none_codec (acodec f))
  && (ext_is "m4a" f || ext_is "mp4" f).

(** [float(f.get("abr") or f.get("tbr") or 0)] *)
Definition audio_key (f : format) : Q :=
  let abr :=
    match abr f with
    | Some v => if Py.truthy v then v else Py.or_zero (tbr f)
    | None => Py.or_zero (tbr f)
    end in
  Py.to_float abr.

Definition video_only_step (dur : option Z)
  (st : option (best_entry * (Z * Z * Q))) (f : format)
  : option (best_entry * (Z * Z * Q)) :=
  if video_only_eligible f then
    let key := video_key f in
    match st with
    | None => Some (best_entry_of dur f, key)
    | Some (_, best_v_key) =>
        if video_key_gt key best_v_key then Some (best_entry_of dur f, key)
        else st
    end
  else st.

Definition audio_only_step (dur : option Z)
  (st : option (best_entry * Q)) (f : format) : option (best_entry * Q) :=
  if audio_only_eligible f then
    let key := audio_key f in
    match st with
    | None => Some (best_entry_of dur f, key)
    | Some (_, best_a_key) =>
        if Py.Qlt_bool best_a_key key then Some (best_entry_of dur f, key)
        else st
    end
  else st.

(** One iteration of the loop of [_best_separate_mp4_m4a]: the two
    selections advance independently on the same format. *)
Definition separate_step (dur : option Z)
  (st : option (best_entry * (Z * Z * Q)) * option (best_entry * Q))
  (f : format) :=
  (video_only_step dur (fst st) f, audio_only_step dur (snd st) f).

(** The plan built after the loop from the two selected entries. *)
Definition separate_plan (best_v best_a : best_entry) : plan :=
  let '(total_size, confident) :=
    match be_size best_v, be_size best_a with
    | Some sv, Some sa => (Some (sv + sa), be_conf best_v && be_conf best_a)
    | _, _ => (None, false)
    end in
  let vf := be_f best_v in
  let af := be_f best_a in
  {| kind := Some "separate";
     format_spec := Py.str_of (format_id vf) +:+ "+" +:+ Py.str_of (format_id af);
     merge_output_format := Some "mp4";
     mp3_kbps := None;
     estimated_size := total_size;
     estimated_confident := confident;
     probe_urls := app (url_list vf) (url_list af);
     quality_label := height_label vf |}.

Definition _best_separate_mp4_m4a (m : meta) : option plan :=
  let dur := _duration_sec m in
  let '(best_v, best_a) := fold_left (separate_step dur) (formats m) (None, None) in
  match best_v, best_a with
  | Some (best_v, _), Some (best_a, _) => Some (separate_plan best_v best_a)
  | _, _ => None
  end.

Definition unknown_plan : plan :=
  {| kind := Some "unknown";
     format_spec := "best";
     merge_output_format := None;
     mp3_kbps := None;
     estimated_size := None;
     estimated_confident := false;
     probe_urls := [];
     quality_label := "best" |}.

Definition _build_video_plan_no_squeeze (m : meta) : plan :=
  match _best_progressive_mp4 m with
  | Some p => p
  | None =>
      match _best_separate_mp4_m4a m with
      | Some p => p
      | None => unknown_plan
      end
  end.

(** ** Range probe *)

(** What the probe reads from the response to [GET url] with
    [Range: bytes=0-0]: the two headers. *)
Record http_response : Type := {
  content_range : option string;
  content_length : option string
}.

(** The network: the response to the range request for a URL, or [None]
    when the request raises. *)
Definition network : Type := string -> option http_response.

(** [re.search(r"/(\d+)\s*$", cr.strip())] followed by [int(m.group(1))]:
    after [strip] nothing follows the digits, so the match is the text
    after the last slash when that text is a non-empty run of digits. *)
Definition content_range_total (cr : string) : option Z :=
  match after_last_slash (strip cr) with
  | Some tail => digits_value tail
  | None => None
  end.

Definition _probe_url_size_bytes (net : network) (url : string) : option Z :=
  if negb (Py.str_truthy (Some url)) then None else
  match net url with
  | None => None
  | Some resp =>
      let from_range :=
        match content_range resp with
        | Some cr =>
            if Py.str_truthy (Some cr) then
              match content_range_total cr with
              | Some total => if 0 <? total then Some total else None
              | None => None
              end
            else None
        | None => None
        end in
      match from_range with
      | Some total => Some total
      | None =>
          match content_length resp with
          | Some cl =>
              match digits_value cl with
              | Some val => if 1024 * 1024 <? val then Some val else None
              | None => None
              end
          | None => None
          end
      end
  end.

(** The plan objects live in a store of dictionaries indexed by object
    identity; a variable holding a plan holds such an identity. *)
Abbreviation heap := (gmap nat plan).

(** The loop over [urls]: the sizes when every probe gives a positive
    integer, [None] at the first probe that does not; the second component
    lists the URLs that were requested, in order. *)
Fixpoint probe_all (net : network) (urls : list string)
  : option (list Z) * list string :=
  match urls with
  | [] => (Some [], [])
  | u :: urls' =>
      match _probe_url_size_bytes net u with
      | Some sz =>
          if sz <=? 0 then (None, [u]) else
          let '(rest, asked) := probe_all net urls' in
          ((fun sizes => sz :: sizes) <$> rest, u :: asked)
      | None => (None, [u])
      end
  end.

Definition sum_sizes (sizes : list Z) : Z := fold_right Z.add 0 sizes.

(** [_apply_probe_if_needed(plan)] on the object [plan] of the store [h]:
    the returned identity, the store after the call, and the URLs that
    were requested. *)
Definition _apply_probe_if_needed (net : network) (h : heap) (plan : nat)
  : nat * heap * list string :=
  match h !! plan with
  | None => (plan, h, [])
  | Some p =>
      if estimated_confident p && bool_decide (is_Some (estimated_size p))
      then (plan, h, [])
      else
        let urls := filter (fun u => Py.startswith "http" u = true) (probe_urls p) in
        match urls with
        | [] => (plan, h, [])
        | _ =>
            match probe_all net urls with
            | (None, asked) => (plan, h, asked)
            | (Some sizes, asked) =>
                let total := sum_sizes sizes in
                let h := alter (set_estimated_size (Some total)) plan h in
                let h := alter (set_estimated_confident true) plan h in
                (plan, h, asked)
            end
        end
  end.

(** ** Audio fitter *)

Definition candidates : list Z := [192; 160; 128; 112; 96; 80; 64; 48; 32].

(** [int(dur * (br * 1000 / 8))], where [dur] is the integer returned by
    [_duration_sec]; on every rung of the ladder [br * 1000] is a multiple
    of 8, so the inner quotient is an exact integer and so is the product
    (it is representable as long as it is below [2^53]). *)
Definition audio_estimate (dur br : Z) : Z := dur * (br * 1000 / 8).

Definition audio_plan_of (br est : Z) : plan :=
  {| kind := None;
     format_spec := "bestaudio/best";
     merge_output_format := None;
     mp3_kbps := Some br;
     estimated_size := Some est;
     estimated_confident := true;
     probe_urls := [];
     quality_label := "mp3 " +:+ pretty br +:+ "kbps" |}.

(** The [for br in candidates] loop. *)
Fixpoint fit_ladder (dur limit_bytes : Z) (brs : list Z) : option plan :=
  match brs with
  | [] => None
  | br :: brs' =>
      let est := audio_estimate dur br in
      if est + AUDIO_HEADROOM_BYTES <=? limit_bytes
      then Some (audio_plan_of br est)
      else fit_ladder dur limit_bytes brs'
  end.

Definition unknown_duration_reason : string :=
  "Cannot determine duration, so I can't reliably estimate MP3 size.".

Definition audio_too_large_reason (limit_bytes : Z) : string :=
  "Audio is too long to fit into " +:+ _fmt_bytes (Some limit_bytes)
  +:+ " even at low bitrate.".

Definition _build_audio_plan_mp3 (m : meta) (limit_bytes : Z)
  : option plan * option string :=
  match dur_truthy (_duration_sec m) with
  | None => (None, Some unknown_duration_reason)
  | Some dur =>
      match fit_ladder dur limit_bytes candidates with
      | Some p => (Some p, None)
      | None => (None, Some (audio_too_large_reason limit_bytes))
      end
  end.

(** ** The chat platform and the global state *)

Record button : Type := {
  label : string;
  callback_data : string
}.

(** An inline keyboard: rows of buttons. *)
Abbreviation keyboard := (list (list button)).

(** The calls the bot makes to the platform. *)
Inductive bot_call : Type :=
| send_message (chat_id : Z) (text : string)
    (reply_to_message_id : option Z) (reply_markup : option keyboard)
| edit_message_text (chat_id message_id : Z) (text : string)
    (reply_markup : option keyboard)
| delete_message (chat_id message_id : Z)
| answer_callback_query (call_id : string) (text : string).

(** The platform: for the n-th call made so far, [None] when the call
    raises and otherwise the id of the message it concerns. *)
Definition platform : Type := nat -> bot_call -> option Z.

Record pending : Type := {
  created_at : Q;
  pr_user_id : Z;
  pr_chat_id : Z;
  pr_reply_to_message_id : Z;
  pr_url : string;
  pr_title : string;
  video_plan : option plan;
  audio_plan : option plan
}.

Record job : Type := {
  job_id : string;
  j_chat_id : Z;
  j_reply_to_message_id : Z;
  j_status_message_id : Z;
  j_url : string;
  j_title : string;
  mode : string;
  j_plan : plan
}.

(** The values of [active_jobs]. *)
Record job_info : Type := {
  ji_user_id : Z;
  ji_chat_id : Z;
  ji_status_message_id : Z
}.

(** A file of the output folder. *)
Record file : Type := {
  file_name : string;
  file_size : Z;
  file_mtime : Q
}.

(** The module-level state, the calls made to the platform so far (oldest
    first) and the output folder. *)
Record bot_state : Type := {
  last_edited : gmap string Q;
  last_text : gmap string string;
  pending_requests : gmap string pending;
  jobs_q : list job;
  cancel_events : gmap string bool;
  active_jobs : gmap string job_info;
  outbox : list bot_call;
  output_folder : list file
}.

Definition with_edit (le : gmap string Q) (lt : gmap string string)
  (st : bot_state) : bot_state :=
  {| last_edited := le; last_text := lt;
     pending_requests := pending_requests st; jobs_q := jobs_q st;
     cancel_events := cancel_events st; active_jobs := active_jobs st;
     outbox := outbox st; output_folder := output_folder st |}.

Definition with_pending (pr : gmap string pending) (st : bot_state) : bot_state :=
  {| last_edited := last_edited st; last_text := last_text st;
     pending_requests := pr; jobs_q := jobs_q st;
     cancel_events := cancel_events st; active_jobs := active_jobs st;
     outbox := outbox st; output_folder := output_folder st |}.

Definition with_jobs_q (q : list job) (st : bot_state) : bot_state :=
  {| last_edited := last_edited st; last_text := last_text st;
     pending_requests := pending_requests st; jobs_q := q;
     cancel_events := cancel_events st; active_jobs := active_jobs st;
     outbox := outbox st; output_folder := output_folder st |}.

Definition with_cancel_events (ce : gmap string bool) (st : bot_state) : bot_state :=
  {| last_edited := last_edited st; last_text := last_text st;
     pending_requests := pending_requests st; jobs_q := jobs_q st;
     cancel_events := ce; active_jobs := active_jobs st;
     outbox := outbox st; output_folder := output_folder st |}.

Definition with_active_jobs (aj : gmap string job_info) (st : bot_state) : bot_state :=
  {| last_edited := last_edited st; last_text := last_text st;
     pending_requests := pending_requests st; jobs_q := jobs_q st;
     cancel_events := cancel_events st; active_jobs := aj;
     outbox := outbox st; output_folder := output_folder st |}.

Definition with_outbox (ob : list bot_call) (st : bot_state) : bot_state :=
  {| last_edited := last_edited st; last_text := last_text st;
     pending_requests := pending_requests st; jobs_q := jobs_q st;
     cancel_events := cancel_events st; active_jobs := active_jobs st;
     outbox := ob; output_folder := output_folder st |}.

Definition with_output_folder (fs : list file) (st : bot_state) : bot_state :=
  {| last_edited := last_edited st; last_text := last_text st;
     pending_requests := pending_requests st; jobs_q := jobs_q st;
     cancel_events := cancel_events st; active_jobs := active_jobs st;
     outbox := outbox st; output_folder := fs |}.

Definition empty_state : bot_state :=
  {| last_edited := ∅; last_text := ∅; pending_requests := ∅; jobs_q := [];
     cancel_events := ∅; active_jobs := ∅; outbox := []; output_folder := [] |}.

(** ** Safe platform calls *)

(** [_bot_call]: the call is made under the lock; its result is [None]
    when it raises. *)
Definition _bot_call (tg : platform) (c : bot_call) (st : bot_state)
  : bot_state * option Z :=
  (with_outbox (outbox st ++ [c]) st, tg (length (outbox st)) c).

Definition _safe_delete (tg : platform) (chat_id message_id : Z)
  (st : bot_state) : bot_state :=
  fst (_bot_call tg (delete_message chat_id message_id) st).

(** The key [f"{chat_id}-{message_id}"]. *)
Definition edit_key (chat_id message_id : Z) : string :=
  pretty chat_id +:+ "-" +:+ pretty message_id.

(** The two tests made when [force] is false. *)
Definition edit_suppressed (now : Q) (key text : string) (st : bot_state) : bool :=
  match last_edited st !! key with
  | Some last => Py.Qlt_bool (now - last) EDIT_INTERVAL_SEC
  | None => false
  end
  || bool_decide (last_text st !! key = Some text).

Definition _safe_edit (tg : platform) (now : Q) (chat_id message_id : Z)
  (text : string) (reply_markup : option keyboard) (force : bool)
  (st : bot_state) : bot_state :=
  let key := edit_key chat_id message_id in
  if negb force && edit_suppressed now key text st then st
  else
    match _bot_call tg (edit_message_text chat_id message_id text reply_markup) st with
    | (st, Some _) =>
        with_edit (<[key := now]> (last_edited st)) (<[key := text]> (last_text st)) st
    | (st, None) => st
    end.

Definition _safe_send_message (tg : platform) (chat_id : Z) (text : string)
  (reply_to_message_id : option Z) (reply_markup : option keyboard)
  (st : bot_state) : bot_state * option Z :=
  _bot_call tg (send_message chat_id text reply_to_message_id reply_markup) st.

Definition _safe_answer_callback (tg : platform) (call_id text : string)
  (st : bot_state) : bot_state :=
  fst (_bot_call tg (answer_callback_query call_id text) st).

(** ** Cancel UI *)

Definition _cancel_markup (job_id : string) : keyboard :=
  [[ {| label := "Cancel"; callback_data := "cnl|" +:+ job_id |} ]].

Definition _is_cancelled (job_id : string) (st : bot_state) : bool :=
  default false (cancel_events st !! job_id).

(** ** Status rendering *)

Definition nl : string := String (ascii_of_nat 10) EmptyString.

Definition pct_suffix (pct : option Z) : string :=
  match pct with
  | Some p => " " +:+ pretty p +:+ "%"
  | None => ""
  end.

(** The [downloaded / total] line, written when both are integers and the
    total is positive. *)
Definition size_line (downloaded total : option Z) : string :=
  match downloaded, total with
  | Some d, Some t =>
      if 0 <? t then nl +:+ _fmt_bytes (Some d) +:+ " / " +:+ _fmt_bytes (Some t)
      else ""
  | _, _ => ""
  end.

Definition _render_status (title stage : string) (pct downloaded total : option Z)
  (queued_pos : option Z) : string :=
  if String.eqb stage "queued" then
    let line := "Status: ⏳ Queued" in
    let line :=
      match queued_pos with
      | Some n => line +:+ " (#" +:+ pretty n +:+ ")"
      | None => line
      end in
    title +:+ nl +:+ nl +:+ line
  else if String.eqb stage "downloading" then
    title +:+ nl +:+ nl +:+ "Status: ⬇️ Downloading..." +:+ pct_suffix pct
    +:+ size_line downloaded total
  else if String.eqb stage "sending_video" then
    title +:+ nl +:+ nl +:+ "Status: ⬆️ Sending video..." +:+ pct_suffix pct
  else if String.eqb stage "sending_document" then
    title +:+ nl +:+ nl +:+ "Status: ⬆️ Sending document..." +:+ pct_suffix pct
  else if String.eqb stage "sending_audio" then
    title +:+ nl +:+ nl +:+ "Status: ⬆️ Sending audio..." +:+ pct_suffix pct
  else if String.eqb stage "cancelled" then
    title +:+ nl +:+ nl +:+ "Status: ⛔ Cancelled"
  else if String.eqb stage "error" then
    title +:+ nl +:+ nl +:+ "Status: ❌ Error"
  else title +:+ nl +:+ nl +:+ "Status: ✅ Done!".

(** ** Pending choices *)

(** The ids collected in [to_del]. *)
Definition expired_ids (now : Q) (pr : gmap string pending) : list string :=
  (filter (fun '(_, data) =>
             Py.Qlt_bool PENDING_TTL_SEC (now - created_at data) = true)
          (map_to_list pr)).*1.

Definition _cleanup_pending (now : Q) (st : bot_state) : bot_state :=
  let to_del := expired_ids now (pending_requests st) in
  with_pending (foldr delete (pending_requests st) to_del) st.

(** ** Main flow: message, plans, buttons *)

(** What the handlers read from an incoming message. *)
Record message : Type := {
  msg_chat_id : Z;
  msg_from_user_id : Z;
  msg_message_id : Z
}.

(** ["\n".join(lines)] *)
Fixpoint join_lines (lines : list string) : string :=
  match lines with
  | [] => ""
  | [l] => l
  | l :: ls => l +:+ nl +:+ join_lines ls
  end.

Definition audio_button (request_id : string) : button :=
  {| label := "Download as Audio (MP3)";
     callback_data := "dl|audio|" +:+ request_id |}.

(** The entry written to [pending_requests]. *)
Definition pending_entry (now : Q) (msg : message) (url title : string)
  (video_plan audio_plan : option plan) : pending :=
  {| created_at := now;
     pr_user_id := msg_from_user_id msg;
     pr_chat_id := msg_chat_id msg;
     pr_reply_to_message_id := msg_message_id msg;
     pr_url := url;
     pr_title := title;
     video_plan := video_plan;
     audio_plan := audio_plan |}.

(** The tail shared by the two refusals: audio alone when an audio plan
    exists, otherwise the text with the reason audio is missing. *)
Definition refuse_video (tg : platform) (now : Q) (request_id : string)
  (msg : message) (url title text : string)
  (audio_plan : option plan) (audio_reason : option string)
  (st : bot_state) : bot_state :=
  match audio_plan with
  | Some ap =>
      let st :=
        with_pending
          (<[request_id := pending_entry now msg url title None (Some ap)]>
             (pending_requests st)) st in
      fst (_safe_send_message tg (msg_chat_id msg)
             (text +:+ nl +:+ "Audio option available: " +:+ quality_label ap)
             (Some (msg_message_id msg))
             (Some [[audio_button request_id]]) st)
  | None =>
      let text :=
        if Py.str_truthy audio_reason
        then text +:+ nl +:+ "Audio is not available: " +:+ default "" audio_reason
        else text in
      fst (_safe_send_message tg (msg_chat_id msg) text
             (Some (msg_message_id msg)) None st)
  end.

(** [video_conf] and [video_ok] of [_send_choice_ui]. *)
Definition video_conf (p : plan) : bool :=
  estimated_confident p &&
  match estimated_size p with
  | Some video_size => 0 <? video_size
  | None => false
  end.

Definition video_ok (MAX_SEND_BYTES : Z) (p : plan) : bool :=
  video_conf p &&
  match estimated_size p with
  | Some video_size => video_size <=? MAX_SEND_BYTES
  | None => false
  end.

(** The part of [_send_choice_ui] that follows the construction of the
    plans: it decides what is offered, stores the pending entry and sends
    the message with the buttons. *)
Definition decision_gate (MAX_SEND_BYTES : Z) (tg : platform) (now : Q)
  (request_id : string) (msg : message) (url title : string)
  (video_plan : plan) (audio_plan : option plan) (audio_reason : option string)
  (st : bot_state) : bot_state :=
  let video_size := estimated_size video_plan in
  if video_conf video_plan &&
     match video_size with
     | Some s => MAX_SEND_BYTES <? s
     | None => false
     end
  then
    refuse_video tg now request_id msg url title
      (title +:+ nl +:+ nl
       +:+ "This video is too large for Telegram bots." +:+ nl
       +:+ "Estimated size: " +:+ _fmt_bytes video_size +:+ nl
       +:+ "Limit: " +:+ _fmt_bytes (Some MAX_SEND_BYTES) +:+ nl)
      audio_plan audio_reason st
  else if negb (video_ok MAX_SEND_BYTES video_plan) then
    refuse_video tg now request_id msg url title
      (title +:+ nl +:+ nl
       +:+ "I can't reliably determine the final video size before downloading."
       +:+ nl
       +:+ "Telegram bot upload limit is " +:+ _fmt_bytes (Some MAX_SEND_BYTES)
       +:+ "." +:+ nl
       +:+ "Please try a shorter video." +:+ nl)
      audio_plan audio_reason st
  else
    let st :=
      with_pending
        (<[request_id := pending_entry now msg url title (Some video_plan) audio_plan]>
           (pending_requests st)) st in
    let kb :=
      [ {| label := "Download as Video";
           callback_data := "dl|video|" +:+ request_id |};
        {| label := "Download as Document";
           callback_data := "dl|doc|" +:+ request_id |} ]
      :: (match audio_plan with
          | Some _ => [[audio_button request_id]]
          | None => []
          end) in
    let info_lines :=
      app [ "Estimated size: " +:+ _fmt_bytes video_size
        +:+ " (limit " +:+ _fmt_bytes (Some MAX_SEND_BYTES) +:+ ")";
        "Selected: " +:+ quality_label video_plan ]
         (match audio_plan with
          | Some ap => ["Audio: " +:+ quality_label ap]
          | None => []
          end) in
    fst (_safe_send_message tg (msg_chat_id msg)
           (title +:+ nl +:+ nl +:+ "Choose download method:" +:+ nl
            +:+ join_lines info_lines)
           (Some (msg_message_id msg)) (Some kb) st).

(** [_send_choice_ui].  The parameters stand for what the function obtains
    from outside: [get_meta] is [_get_video_meta] ([None] when it raises),
    [strip_hashtags] is [_strip_hashtags], [now] and [now'] are the two
    readings of the clock (at the sweep and at the creation of the entry),
    [request_id] is the fresh random id.  [bot.reply_to] is not a safe
    call: when it raises the handler stops. *)
Definition _send_choice_ui (MAX_SEND_BYTES : Z) (tg : platform) (net : network)
  (get_meta : string -> option meta) (strip_hashtags : string -> string)
  (now now' : Q) (request_id : string) (msg : message) (url : string)
  (st : bot_state) : bot_state :=
  let st := _cleanup_pending now st in
  match _bot_call tg
          (send_message (msg_chat_id msg) "Getting info..."
             (Some (msg_message_id msg)) None) st with
  | (st, None) => st
  | (st, Some processing_msg) =>
      match get_meta url with
      | None =>
          let st := _safe_delete tg (msg_chat_id msg) processing_msg st in
          fst (_bot_call tg
                 (send_message (msg_chat_id msg)
                    "Invalid URL or unsupported website."
                    (Some (msg_message_id msg)) None) st)
      | Some m =>
          let title :=
            strip (if Py.str_truthy (meta_title m)
                   then default "" (meta_title m) else "Video") in
          let title :=
            if Py.str_truthy (Some (strip_hashtags title))
            then strip_hashtags title else "Video" in
          let video_plan := 0%nat in
          let h : heap := {[ video_plan := _build_video_plan_no_squeeze m ]} in
          let '(video_plan, h, _) := _apply_probe_if_needed net h video_plan in
          let '(audio_plan, audio_reason) := _build_audio_plan_mp3 m MAX_SEND_BYTES in
          let st := _safe_delete tg (msg_chat_id msg) processing_msg st in
          match h !! video_plan with
          | Some vp =>
              decision_gate MAX_SEND_BYTES tg now' request_id msg url title
                vp audio_plan audio_reason st
          | None => st
          end
      end
  end.

(** ** Callbacks *)

(** What the handlers read from a callback query. *)
Record callback : Type := {
  call_id : string;
  call_from_user_id : Z;
  call_data : string;
  call_message_id : Z
}.

Definition on_cancel (tg : platform) (call : callback) (st : bot_state) : bot_state :=
  match split_on "|" (call_data call) with
  | [_; job_id] =>
      match active_jobs st !! job_id with
      | None => _safe_answer_callback tg (call_id call) "Nothing to cancel." st
      | Some job_info =>
          if negb (call_from_user_id call =? ji_user_id job_info)
          then _safe_answer_callback tg (call_id call) "This is not your request." st
          else
            let st :=
              match cancel_events st !! job_id with
              | Some _ => with_cancel_events (<[job_id := true]> (cancel_events st)) st
              | None => st
              end in
            let st :=
              _safe_delete tg (ji_chat_id job_info) (ji_status_message_id job_info) st in
            _safe_answer_callback tg (call_id call) "Cancelled." st
      end
  | _ => _safe_answer_callback tg (call_id call) "Invalid action" st
  end.

(** The plan a mode selects from the pending entry, the mode recorded in
    the job and the answer given when the plan is missing. *)
Definition choose_plan (mode : string) (req : pending)
  : option plan * string * string :=
  if String.eqb mode "audio" then (audio_plan req, "audio", "Audio is not available.")
  else if String.eqb mode "doc" then (video_plan req, "doc", "Video is not available.")
  else (video_plan req, "video", "Video is not available.").

(** [on_download_choice]; [new_job_id] is the fresh random id and [now] the
    reading of the clock made by the forced edit. *)
Definition on_download_choice (tg : platform) (now : Q) (new_job_id : string)
  (call : callback) (st : bot_state) : bot_state :=
  match split_on "|" (call_data call) with
  | [_; mode; rid] =>
      match pending_requests st !! rid with
      | None =>
          _safe_answer_callback tg (call_id call)
            "Request expired. Send the link again." st
      | Some req =>
          if negb (call_from_user_id call =? pr_user_id req)
          then _safe_answer_callback tg (call_id call) "This is not your request." st
          else
            let st := with_pending (delete rid (pending_requests st)) st in
            let chat_id := pr_chat_id req in
            let status_message_id := call_message_id call in
            let title := pr_title req in
            match choose_plan mode req with
            | (None, _, answer) => _safe_answer_callback tg (call_id call) answer st
            | (Some plan, job_mode, _) =>
                let st := _safe_answer_callback tg (call_id call) "OK" st in
                let st :=
                  with_cancel_events (<[new_job_id := false]> (cancel_events st)) st in
                let st :=
                  with_active_jobs
                    (<[new_job_id :=
                         {| ji_user_id := pr_user_id req;
                            ji_chat_id := chat_id;
                            ji_status_message_id := status_message_id |}]>
                       (active_jobs st)) st in
                let queued_pos := Z.of_nat (length (jobs_q st)) + 1 in
                let st :=
                  _safe_edit tg now chat_id status_message_id
                    (_render_status title "queued" None None None (Some queued_pos))
                    (Some (_cancel_markup new_job_id)) true st in
                with_jobs_q
                  (jobs_q st ++
                   [ {| job_id := new_job_id;
                        j_chat_id := chat_id;
                        j_reply_to_message_id := pr_reply_to_message_id req;
                        j_status_message_id := status_message_id;
                        j_url := pr_url req;
                        j_title := title;
                        mode := job_mode;
                        j_plan := plan |} ]) st
            end
      end
  | _ => _safe_answer_callback tg (call_id call) "Invalid action" st
  end.

(** ** Downloaded file discovery

    Paths are file names relative to the output folder. *)

Definition file_exists (fp : string) (fs : list file) : bool :=
  existsb (fun f => String.eqb (file_name f) fp) fs.

Definition getsize (fp : string) (fs : list file) : Z :=
  match List.find (fun f => String.eqb (file_name f) fp) fs with
  | Some f => file_size f
  | None => 0
  end.

(** The loop that keeps the file with the greatest modification time,
    starting from [best = None, best_mtime = -1]. *)
Fixpoint newest_file (fs : list file) (best : option string) (best_mtime : Q)
  : option string :=
  match fs with
  | [] => best
  | f :: fs' =>
      if Py.Qlt_bool best_mtime (file_mtime f)
      then newest_file fs' (Some (file_name f)) (file_mtime f)
      else newest_file fs' best best_mtime
  end.

Definition _find_file_by_prefix (prefix : string) (prefer_ext : option string)
  (folder : list file) : option string :=
  let files := List.filter (fun f => Py.startswith prefix (file_name f)) folder in
  match files with
  | [] => None
  | _ =>
      let preferred :=
        match prefer_ext with
        | Some e =>
            if Py.str_truthy (Some e) then
              file_name <$>
                List.find (fun f => endswith (lower e) (lower (file_name f))) files
            else None
        | None => None
        end in
      match preferred with
      | Some fp => Some fp
      | None =>
          match newest_file files None (inject_Z (-1)) with
          | Some best => if Py.str_truthy (Some best) then Some best else None
          | None => None
          end
      end
  end.

(** [requested] is [info["requested_downloads"][0]["filepath"]], [None] when
    reading it fails. *)
Definition _find_downloaded_file (requested : option string)
  (fallback_prefix : string) (prefer_ext : option string) (folder : list file)
  : option string :=
  match requested with
  | Some fp =>
      if Py.str_truthy (Some fp) && file_exists fp folder then Some fp
      else _find_file_by_prefix fallback_prefix prefer_ext folder
  | None => _find_file_by_prefix fallback_prefix prefer_ext folder
  end.

(** ** Worker: download and send *)

(** What a statement of the worker does: it completes, or it raises. *)
Inductive completion : Type :=
| Normal
| Raised (e : string).

Definition cancelled_by_user : string := "Cancelled by user".

(** Cancel callbacks handled by the dispatcher thread while the worker is
    between two of its own steps. *)
Definition run_calls (tg : platform) (calls : list callback) (st : bot_state)
  : bot_state :=
  fold_left (fun st call => on_cancel tg call st) calls st.

(** One invocation of the progress hook by the resolution library: the
    callbacks handled since the previous step, the clock and the
    dictionary passed to the hook. *)
Record hook_event : Type := {
  he_calls : list callback;
  he_now : Q;
  he_d : progress_dict
}.

Definition status_is (s : string) (d : progress_dict) : bool :=
  match status d with
  | Some v => String.eqb v s
  | None => false
  end.

(** [d.get("filename") or d.get("tmpfilename") or ""] *)
Definition hook_filename (d : progress_dict) : string :=
  if Py.str_truthy (filename d) then default "" (filename d)
  else if Py.str_truthy (tmpfilename d) then default "" (tmpfilename d)
  else "".

Definition too_large_during_download (MAX_SEND_BYTES hard_total : Z) : string :=
  "This video is too large: " +:+ _fmt_bytes (Some hard_total)
  +:+ " > limit " +:+ _fmt_bytes (Some MAX_SEND_BYTES).

(** [progress_hook], the closure of [_download_and_send], on the global
    state and the job's [progress_state]. *)
Definition progress_hook (MAX_SEND_BYTES : Z) (tg : platform) (tmp_id : string)
  (j : job) (now : Q) (d : progress_dict)
  (st : bot_state) (progress_state : gmap string Z)
  : bot_state * gmap string Z * completion :=
  if _is_cancelled (job_id j) st then (st, progress_state, Raised cancelled_by_user)
  else
    let fn := hook_filename d in
    if Py.str_truthy (Some fn) && negb (contains tmp_id (basename fn))
    then (st, progress_state, Normal)
    else if status_is "downloading" d then
      let '((pct, done_b, total_b), progress_state) :=
        _calc_download_progress d progress_state in
      let too_large :=
        match Py.as_int (total_bytes d) with
        | Some hard_total =>
            if (MAX_SEND_BYTES <? hard_total) && negb (String.eqb (mode j) "audio")
            then Some hard_total else None
        | None => None
        end in
      match too_large with
      | Some hard_total =>
          (st, progress_state,
           Raised (too_large_during_download MAX_SEND_BYTES hard_total))
      | None =>
          (_safe_edit tg now (j_chat_id j) (j_status_message_id j)
             (_render_status (j_title j) "downloading" pct done_b total_b None)
             (Some (_cancel_markup (job_id j))) false st,
           progress_state, Normal)
      end
    else if status_is "finished" d then
      (_safe_edit tg now (j_chat_id j) (j_status_message_id j)
         (_render_status (j_title j) "downloading" (Some 100) None None None)
         (Some (_cancel_markup (job_id j))) true st,
       <["pct" := 100]> progress_state, Normal)
    else (st, progress_state, Normal).

(** The library calls the hook for each event in turn and stops at the
    first one that raises. *)
Fixpoint run_hooks (MAX_SEND_BYTES : Z) (tg : platform) (tmp_id : string)
  (j : job) (events : list hook_event)
  (st : bot_state) (progress_state : gmap string Z)
  : bot_state * gmap string Z * completion :=
  match events with
  | [] => (st, progress_state, Normal)
  | ev :: events' =>
      let st := run_calls tg (he_calls ev) st in
      match progress_hook MAX_SEND_BYTES tg tmp_id j (he_now ev) (he_d ev)
              st progress_state with
      | (st, progress_state, Normal) =>
          run_hooks MAX_SEND_BYTES tg tmp_id j events' st progress_state
      | raised => raised
      end
  end.

(** How [ydl.extract_info(url, download=True)] ends when no hook raises. *)
Inductive download_result : Type :=
| download_raises (e : string)
| download_returns (requested_filepath : option string).

(** One run of the resolution library: the hook events, the files it has
    written to the output folder when it stops, and how it ends. *)
Record download_run : Type := {
  dl_events : list hook_event;
  dl_files : list file;
  dl_result : download_result
}.

(** One read of the multipart body by the HTTP client. *)
Record upload_chunk : Type := {
  uc_calls : list callback;
  uc_now : Q;
  uc_bytes_read : Z;
  uc_len : Z
}.

(** How [session.post] ends when no chunk callback raises. *)
Inductive post_result : Type :=
| post_raises (e : string)
| post_not_json (status_code : Z)
| post_json (ok : bool) (description : option string).

Record upload_run : Type := {
  up_chunks : list upload_chunk;
  up_result : post_result
}.

(** Everything outside the worker that one job run depends on. *)
Record job_env : Type := {
  tmp_id : string;
  now_start : Q;
  download : download_run;
  calls_after_download : list callback;
  now_upload : Q;
  upload : upload_run;
  now_sent : Q;
  calls_before_handler : list callback;
  now_handler : Q
}.

(** [render_upload], the closure of [_send_via_bot_api_with_progress]. *)
Definition render_upload (title stage_label : string)
  (pct sent total_len : option Z) : string :=
  let line := "Status: ⬆️ " +:+ stage_label in
  let line :=
    match pct with
    | Some p => line +:+ " " +:+ pretty (Z.max 0 (Z.min 100 p)) +:+ "%"
    | None => line
    end in
  title +:+ nl +:+ nl +:+ line +:+ size_line sent total_len.

(** The monitor callback [_cb]. *)
Definition upload_callback (tg : platform) (j : job) (stage_label : string)
  (c : upload_chunk) (st : bot_state) : bot_state * completion :=
  if _is_cancelled (job_id j) st then (st, Raised cancelled_by_user)
  else
    let total_len := uc_len c in
    let sent := uc_bytes_read c in
    let pct := if total_len =? 0 then None else Some (Z.quot (sent * 100) total_len) in
    (_safe_edit tg (uc_now c) (j_chat_id j) (j_status_message_id j)
       (render_upload (j_title j) stage_label pct (Some sent) (Some total_len))
       (Some (_cancel_markup (job_id j))) false st,
     Normal).

Fixpoint run_chunks (tg : platform) (j : job) (stage_label : string)
  (chunks : list upload_chunk) (st : bot_state) : bot_state * completion :=
  match chunks with
  | [] => (st, Normal)
  | c :: chunks' =>
      let st := run_calls tg (uc_calls c) st in
      match upload_callback tg j stage_label c st with
      | (st, Normal) => run_chunks tg j stage_label chunks' st
      | raised => raised
      end
  end.

(** [_send_via_bot_api_with_progress]; the file name sent to the platform
    and the extra form fields only reach the HTTP request, which is part
    of [upload env]. *)
Definition _send_via_bot_api_with_progress (tg : platform) (env : job_env)
  (j : job) (file_path stage_label : string) (st : bot_state)
  : bot_state * completion :=
  let size :=
    if file_exists file_path (output_folder st)
    then getsize file_path (output_folder st) else 0 in
  let st :=
    _safe_edit tg (now_upload env) (j_chat_id j) (j_status_message_id j)
      (render_upload (j_title j) stage_label (Some 0) (Some 0) (Some size))
      (Some (_cancel_markup (job_id j))) true st in
  if _is_cancelled (job_id j) st then (st, Raised cancelled_by_user)
  else
    match run_chunks tg j stage_label (up_chunks (upload env)) st with
    | (st, Raised e) => (st, Raised e)
    | (st, Normal) =>
        match up_result (upload env) with
        | post_raises e => (st, Raised e)
        | post_not_json status_code =>
            (st, Raised ("Telegram API error: HTTP " +:+ pretty status_code))
        | post_json false description =>
            (st, Raised ("Telegram API error: "
                         +:+ default "Unknown error" description))
        | post_json true _ =>
            (_safe_edit tg (now_sent env) (j_chat_id j) (j_status_message_id j)
               (render_upload (j_title j) stage_label (Some 100) (Some size) (Some size))
               (Some (_cancel_markup (job_id j))) true st,
             Normal)
        end
    end.

Definition file_too_large (MAX_SEND_BYTES final_size : Z) : string :=
  "This file is " +:+ _fmt_bytes (Some final_size)
  +:+ ", which exceeds the limit " +:+ _fmt_bytes (Some MAX_SEND_BYTES) +:+ ".".

(** The three calls of [_send_via_bot_api_with_progress] differ in the
    platform method, the form field and the stage label; only the label
    reaches the status message. *)
Definition stage_label_of (mode : string) : string :=
  if String.eqb mode "audio" then "Sending audio..."
  else if String.eqb mode "doc" then "Sending document..."
  else "Sending video...".

(** The body of the [try] statement of [_download_and_send]: the state it
    leaves, the value of the variable [file_path], and whether the body
    completed (by reaching its end or by [return]) or raised. *)
Definition try_body (MAX_SEND_BYTES : Z) (tg : platform) (env : job_env)
  (j : job) (st : bot_state) : bot_state * option string * completion :=
  if _is_cancelled (job_id j) st then
    (_safe_delete tg (j_chat_id j) (j_status_message_id j) st, None, Normal)
  else
    let st :=
      _safe_edit tg (now_start env) (j_chat_id j) (j_status_message_id j)
        (_render_status (j_title j) "downloading" (Some 0) None None None)
        (Some (_cancel_markup (job_id j))) true st in
    let '(st, _, hooks) :=
      run_hooks MAX_SEND_BYTES tg (tmp_id env) j (dl_events (download env))
        st initial_progress_state in
    let st :=
      with_output_folder (output_folder st ++ dl_files (download env)) st in
    match hooks, dl_result (download env) with
    | Raised e, _ => (st, None, Raised e)
    | Normal, download_raises e => (st, None, Raised e)
    | Normal, download_returns requested =>
        let st := run_calls tg (calls_after_download env) st in
        if _is_cancelled (job_id j) st then
          (_safe_delete tg (j_chat_id j) (j_status_message_id j) st, None, Normal)
        else
          let prefer_ext :=
            if String.eqb (mode j) "audio" then Some ".mp3" else None in
          let file_path :=
            _find_downloaded_file requested (tmp_id env) prefer_ext
              (output_folder st) in
          let file_path :=
            match file_path with
            | Some fp => if Py.str_truthy (Some fp) then Some fp
                         else _find_file_by_prefix (tmp_id env) prefer_ext
                                (output_folder st)
            | None => _find_file_by_prefix (tmp_id env) prefer_ext (output_folder st)
            end in
          match file_path with
          | None => (st, file_path, Raised "Downloaded file not found")
          | Some fp =>
              if negb (Py.str_truthy (Some fp) && file_exists fp (output_folder st))
              then (st, file_path, Raised "Downloaded file not found")
              else
                let final_size := getsize fp (output_folder st) in
                if MAX_SEND_BYTES <? final_size then
                  (st, file_path, Raised (file_too_large MAX_SEND_BYTES final_size))
                else
                  match _send_via_bot_api_with_progress tg env j fp
                          (stage_label_of (mode j)) st with
                  | (st, Raised e) => (st, file_path, Raised e)
                  | (st, Normal) =>
                      (_safe_delete tg (j_chat_id j) (j_status_message_id j) st,
                       file_path, Normal)
                  end
          end
    end.

(** The line written by the [except] clause: [f"{title}\n\nStatus: ❌ {str(e)}"]. *)
Definition error_text (title e : string) : string :=
  title +:+ nl +:+ nl +:+ "Status: ❌ " +:+ e.

(** The [except Exception as e] clause. *)
Definition except_clause (tg : platform) (env : job_env) (j : job) (e : string)
  (st : bot_state) : bot_state :=
  if _is_cancelled (job_id j) st then
    _safe_delete tg (j_chat_id j) (j_status_message_id j) st
  else
    _safe_edit tg (now_handler env) (j_chat_id j) (j_status_message_id j)
      (error_text (j_title j) e) None true st.

(** Failures of the file system that the worker can meet outside the body
    of its [try] statement: [os.makedirs] before it, and in the [finally]
    clause [os.remove] on the file found, [os.listdir], and [os.remove] on
    a listed file. *)
Record fs_faults : Type := {
  makedirs_raises : option string;
  remove_found_raises : bool;
  listdir_raises : bool;
  remove_listed_raises : string -> bool
}.

Definition no_faults : fs_faults :=
  {| makedirs_raises := None; remove_found_raises := false;
     listdir_raises := false; remove_listed_raises := fun _ => false |}.

(** [os.remove(fp)] when it succeeds. *)
Definition remove_file (fp : string) (folder : list file) : list file :=
  List.filter (fun f => negb (String.eqb (file_name f) fp)) folder.

(** The loop [for fn in os.listdir(...)] of the [finally] clause over the
    names listed: a name that starts with [tmp_id] and still exists is
    removed; the first removal that raises ends the loop, since the
    [except] that swallows the exception is outside it. *)
Fixpoint remove_listed (raises : string -> bool) (tmp_id : string)
  (names : list string) (folder : list file) : list file :=
  match names with
  | [] => folder
  | fn :: names' =>
      if Py.startswith tmp_id fn && file_exists fn folder then
        if raises fn then folder
        else remove_listed raises tmp_id names' (remove_file fn folder)
      else remove_listed raises tmp_id names' folder
  end.

(** The [finally] clause: two attempts at removing files, each inside its
    own [try ... except Exception: pass], then the two registry entries.
    The names are listed in the order of the folder. *)
Definition finally_clause (fs : fs_faults) (env : job_env) (j : job)
  (file_path : option string) (st : bot_state) : bot_state :=
  let folder := output_folder st in
  let folder :=
    match file_path with
    | Some fp =>
        if Py.str_truthy (Some fp) && file_exists fp folder
        then if remove_found_raises fs then folder else remove_file fp folder
        else folder
    | None => folder
    end in
  let folder :=
    if listdir_raises fs then folder
    else remove_listed (remove_listed_raises fs) (tmp_id env)
           (map file_name folder) folder in
  let st := with_output_folder folder st in
  let st := with_cancel_events (delete (job_id j) (cancel_events st)) st in
  with_active_jobs (delete (job_id j) (active_jobs st)) st.

(** [_download_and_send]: the state it leaves and whether it returns or an
    exception leaves it.  [os.makedirs] runs before the [try] statement,
    so when it raises neither the [except] nor the [finally] clause runs.
    The other statement before the [try] that could raise,
    [int(plan.get("mp3_kbps", 128))], does not: the key is either absent
    or holds an integer.  From the [try] statement on every exception is
    caught.  The callbacks [calls_before_handler env] are those the
    dispatcher thread handles between the moment the body raises and the
    test made by the [except] clause. *)
Definition _download_and_send (MAX_SEND_BYTES : Z) (tg : platform)
  (fs : fs_faults) (env : job_env) (j : job) (st : bot_state)
  : bot_state * completion :=
  match makedirs_raises fs with
  | Some e => (st, Raised e)
  | None =>
      let '(st, file_path, body) := try_body MAX_SEND_BYTES tg env j st in
      let st :=
        match body with
        | Raised e =>
            except_clause tg env j e (run_calls tg (calls_before_handler env) st)
        | Normal => st
        end in
      (finally_clause fs env j file_path st, Normal)
  end.

(** ** The link of a message ([_extract_first_url])

    The text is taken as ASCII: white space is what [is_space] accepts. *)

(** The rest of [s] after the prefix [p], if [s] starts with [p]. *)
Fixpoint strip_prefix (p s : string) : option string :=
  match p, s with
  | EmptyString, _ => Some s
  | String a p', String b s' => if Ascii.eqb a b then strip_prefix p' s' else None
  | String _ _, EmptyString => None
  end.

(** The longest prefix matched by [\S*]. *)
Fixpoint take_non_space (s : string) : string :=
  match s with
  | EmptyString => EmptyString
  | String c s' => if is_space c then EmptyString else String c (take_non_space s')
  end.

(** [\S+] after a scheme: at least one character. *)
Definition url_after (scheme rest : string) : option string :=
  match take_non_space rest with
  | EmptyString => None
  | run => Some (scheme +:+ run)
  end.

(** [https?://\S+] matched at the start of [s]. *)
Definition url_here (s : string) : option string :=
  match strip_prefix "https://" s with
  | Some rest => url_after "https://" rest
  | None =>
      match strip_prefix "http://" s with
      | Some rest => url_after "http://" rest
      | None => None
      end
  end.

(** [re.search(r"(https?://\S+)", s)]: the match at the leftmost position
    that has one. *)
Fixpoint search_url (s : string) : option string :=
  match url_here s with
  | Some u => Some u
  | None =>
      match s with
      | EmptyString => None
      | String _ s' => search_url s'
      end
  end.

(** The characters removed from the end of the match: the closing
    brackets, the full stop, the comma and the two quotation marks. *)
Definition url_trailing : list ascii :=
  [")"; "."; ","; "]"; "}"; ">"; ascii_of_nat 34; "'"]%char.

Definition is_url_trailing (c : ascii) : bool := existsb (Ascii.eqb c) url_trailing.

(** [s.rstrip(chars)] *)
Definition rstrip_chars (p : ascii -> bool) (s : string) : string :=
  string_of_list_ascii (rev (drop_while p (rev (list_ascii_of_string s)))).

Definition _extract_first_url (text : string) : option string :=
  if negb (Py.str_truthy (Some text)) then None else
  match search_url (strip text) with
  | None => None
  | Some url => Some (rstrip_chars is_url_trailing (strip url))
  end.

(** ** The argument of [/custom] *)

(** What [get_text] reads from a message: its text and, when the message
    replies to another one, the text of that one. *)
Record text_message : Type := {
  tm_text : option string;
  tm_reply_to_message : option (option string)
}.

Definition get_text (m : text_message) : option string :=
  if negb (Py.str_truthy (tm_text m)) then None else
  let parts := split_on " " (default "" (tm_text m)) in
  if (length parts <? 2)%nat then
    match tm_reply_to_message m with
    | Some reply_text => if Py.str_truthy reply_text then reply_text else None
    | None => None
    end
  else parts !! 1%nat.

(** ** Vocabulary of the statements *)

(** The test of the ladder as the specification writes it. *)
Definition fits (d limit_bytes br : Z) : Prop :=
  d * br * 1000 / 8 + 1500000 <= limit_bytes.

(** The shape shared by the three selection loops: keep a candidate and
    its key, replace them only by a candidate whose key is greater. *)
Definition select_step {A K : Type} (eligible : format -> bool)
  (key : format -> K) (gt : K -> K -> bool) (build : format -> A)
  (st : option (A * K)) (f : format) : option (A * K) :=
  if eligible f then
    match st with
    | None => Some (build f, key f)
    | Some (_, best_key) => if gt (key f) best_key then Some (build f, key f) else st
    end
  else st.

(** Two video keys compare equal. *)
Definition video_key_tie (k k' : Z * Z * Q) : Prop :=
  k.1.1 = k'.1.1 /\ k.1.2 = k'.1.2 /\ (k.2 == k'.2)%Q.

(** The buttons of the last message sent to the user. *)
Definition last_buttons (st : bot_state) : list button :=
  match last (outbox st) with
  | Some (send_message _ _ _ (Some kb)) => concat kb
  | _ => []
  end.

(** The mode-select token [f"dl|{mode}|{request_id}"]. *)
Definition choice_token (choice request_id : string) : string :=
  "dl|" +:+ choice +:+ "|" +:+ request_id.

(** A delivery mode is offered: the last message carries its button. *)
Definition offered (choice request_id : string) (st : bot_state) : Prop :=
  In (choice_token choice request_id) (callback_data <$> last_buttons st).

(** The size of a plan is proven to fit the ceiling: it is confident and a
    positive integer not above the ceiling. *)
Definition proven_to_fit (MAX_SEND_BYTES : Z) (p : plan) : Prop :=
  estimated_confident p = true /\
  exists s : Z, estimated_size p = Some s /\ 0 < s <= MAX_SEND_BYTES.

(** The message sent when video is accepted. *)
Definition accept_call (MAX_SEND_BYTES : Z) (request_id : string) (msg : message) (title : string)
  (vp : plan) (ap : option plan) : bot_call :=
  send_message (msg_chat_id msg)
    (title +:+ nl +:+ nl +:+ "Choose download method:" +:+ nl
     +:+ join_lines
           ([ "Estimated size: " +:+ _fmt_bytes (estimated_size vp)
              +:+ " (limit " +:+ _fmt_bytes (Some MAX_SEND_BYTES) +:+ ")";
              "Selected: " +:+ quality_label vp ]
            ++ match ap with
               | Some a => ["Audio: " +:+ quality_label a]
               | None => []
               end))
    (Some (msg_message_id msg))
    (Some ([ {| label := "Download as Video";
                callback_data := "dl|video|" +:+ request_id |};
             {| label := "Download as Document";
                callback_data := "dl|doc|" +:+ request_id |} ]
           :: match ap with
              | Some _ => [[audio_button request_id]]
              | None => []
              end)).

(** What no step of a worker changes: the pending store, the queue and the
    active-job registry stay as they are, and a cancellation flag that is
    set stays set. *)
Definition steady (st st' : bot_state) : Prop :=
  pending_requests st' = pending_requests st /\
  jobs_q st' = jobs_q st /\
  active_jobs st' = active_jobs st /\
  forall k : string, _is_cancelled k st = true -> _is_cancelled k st' = true.

(** A text made of ASCII characters, where [is_space] is the white space
    of [\s] and [str.strip]. *)
Definition ascii_text (s : string) : bool :=
  forallb (fun c => (nat_of_ascii c <? 128)%nat) (list_ascii_of_string s).

(** A text without white space. *)
Definition no_space (s : string) : bool :=
  forallb (fun c => negb (is_space c)) (list_ascii_of_string s).

(** A tail that ends a run of non-space characters: nothing, or something
    that starts with white space. *)
Definition ends_run (rest : string) : Prop :=
  rest = "" \/ exists c r, rest = String c r /\ is_space c = true.

(** The two schemes [_extract_first_url] looks for. *)
Definition is_scheme (scheme : string) : Prop :=
  scheme = "http://" \/ scheme = "https://".

(** * Properties *)

(** ** [_fmt_bytes] on a few values *)

Example _fmt_bytes_limit : _fmt_bytes (Some 50000000) = "47.7 MB".
Proof. vm_compute. reflexivity. Qed.

Example _fmt_bytes_small : _fmt_bytes (Some 1023) = "1023 B".
Proof. vm_compute. reflexivity. Qed.

Example _fmt_bytes_tie : _fmt_bytes (Some 1280) = "1.2 KB".
Proof. vm_compute. reflexivity. Qed.

Example _fmt_bytes_negative : _fmt_bytes (Some (-1)) = "unknown".
Proof. reflexivity. Qed.

(** ** Progress calculator *)

Section Progress.

Lemma settle_pct_spec (raw : Z) (state : gmap string Z) :
  0 <= raw ->
  0 <= stored_pct state <= 99 ->
  let '(pct, state') := settle_pct raw state in
  stored_pct state <= pct <= 99 /\ stored_pct state' = pct.
Proof.
  intros Hraw Hprev. unfold settle_pct, stored_pct in *.
  rewrite lookup_insert_eq. simpl.
  destruct (100 <=? raw) eqn:Hcap;
    [apply Z.leb_le in Hcap | apply Z.leb_gt in Hcap];
    match goal with |- context [?a <? ?b] => destruct (a <? b) eqn:Hlt end;
    first [apply Z.ltb_lt in Hlt | apply Z.ltb_ge in Hlt]; lia.
Qed.

Lemma fragment_quotient_nonneg (frag_count frag_index : Z) :
  0 < frag_count ->
  let idx := if frag_index <? 0 then 0 else frag_index in
  let idx := if frag_count <? idx then frag_count else idx in
  0 <= idx * 100 / frag_count.
Proof.
  intros Hc. cbv zeta. apply Z.div_pos; [|lia].
  destruct (frag_index <? 0) eqn:H1;
    [apply Z.ltb_lt in H1 | apply Z.ltb_ge in H1];
    match goal with |- context [?a <? ?b] => destruct (a <? b) eqn:H2 end;
    first [apply Z.ltb_lt in H2 | apply Z.ltb_ge in H2]; lia.
Qed.

Lemma fragment_signal_pos (d : progress_dict) (c i : Z) :
  fragment_signal d = Some (c, i) -> 0 < c.
Proof.
  unfold fragment_signal.
  destruct (Py.as_int (fragment_count d)), (Py.as_int (fragment_index d)); try discriminate.
  destruct (0 <? z) eqn:H; [|discriminate].
  intros [= <- <-]. now apply Z.ltb_lt.
Qed.

Lemma byte_signal_range (total downloaded : option Py.num) (t dl : Z) :
  byte_signal total downloaded = Some (t, dl) -> 0 < t /\ 0 <= dl.
Proof.
  unfold byte_signal.
  destruct (Py.as_int total), (Py.as_int downloaded); try discriminate.
  destruct ((0 <? z) && (0 <=? z0)) eqn:H; [|discriminate].
  intros [= <- <-]. apply andb_true_iff in H as [H1 H2].
  split; [now apply Z.ltb_lt | now apply Z.leb_le].
Qed.

(** One call: either no percentage is computed and the state is left as it
    is, or the percentage lies between the stored one and 99 and becomes
    the stored one. *)
Lemma _calc_download_progress_step (d : progress_dict) (state : gmap string Z) :
  0 <= stored_pct state <= 99 ->
  let '((pct, _, _), state') := _calc_download_progress d state in
  match pct with
  | None => state' = state
  | Some p => stored_pct state <= p <= 99 /\ stored_pct state' = p
  end.
Proof.
  intros Hprev. unfold _calc_download_progress.
  destruct (fragment_signal d) as [[c i]|] eqn:Hf.
  - apply fragment_signal_pos in Hf.
    pose proof (fragment_quotient_nonneg c i Hf) as Hq. cbv zeta in Hq.
    pose proof (settle_pct_spec _ state Hq Hprev) as Hs.
    destruct (settle_pct _ state) as [pct state']. exact Hs.
  - destruct (byte_signal (total_bytes d) (downloaded_bytes d)) as [[t dl]|] eqn:Hb.
    + apply byte_signal_range in Hb as [Ht Hdl].
      assert (Hq : 0 <= dl * 100 / t) by (apply Z.div_pos; lia).
      pose proof (settle_pct_spec _ state Hq Hprev) as Hs.
      destruct (settle_pct _ state) as [pct state']. exact Hs.
    + destruct (byte_signal (total_bytes_estimate d) (downloaded_bytes d))
        as [[t dl]|] eqn:He.
      * apply byte_signal_range in He as [Ht Hdl].
        assert (Hq : 0 <= dl * 100 / t) by (apply Z.div_pos; lia).
        pose proof (settle_pct_spec _ state Hq Hprev) as Hs.
        destruct (settle_pct _ state) as [pct state']. exact Hs.
      * reflexivity.
Qed.

(** Every percentage computed from a state whose stored value is [lo] lies
    in [[lo, 99]], and the computed percentages never decrease. *)
Lemma feed_progress_from (ds : list progress_dict) :
  forall (state : gmap string Z),
    0 <= stored_pct state <= 99 ->
    let out := feed_progress ds state in
    (forall (i : nat) (p : Z), out !! i = Some (Some p) -> stored_pct state <= p <= 99) /\
    (forall (i j : nat) (p q : Z),
        (i <= j)%nat -> out !! i = Some (Some p) -> out !! j = Some (Some q) -> p <= q).
Proof.
  induction ds as [|d ds IH]; intros state Hst; cbn [feed_progress].
  - split; intros; simplify_eq.
  - pose proof (_calc_download_progress_step d state Hst) as Hstep.
    destruct (_calc_download_progress d state) as [[[pct dl] tot] state'].
    assert (Hst' : 0 <= stored_pct state' <= 99 /\ stored_pct state <= stored_pct state').
    { destruct pct as [p|]; [lia | subst; lia]. }
    destruct Hst' as [Hst' Hmono].
    destruct (IH state' Hst') as [Hrange Hsorted]. cbv zeta.
    split.
    + intros [|i] p Hi; cbn in Hi.
      * simplify_eq. lia.
      * apply Hrange in Hi. lia.
    + intros [|i] [|j] p q Hij Hi Hj; cbn in Hi, Hj.
      * simplify_eq. lia.
      * simplify_eq. apply Hrange in Hj. lia.
      * lia.
      * eapply Hsorted; [| exact Hi | exact Hj]. lia.
Qed.

End Progress.

(** C2. For every sequence of progress signals fed to the calculator with
    the state a worker creates for a job, every computed percentage lies
    in [[0, 99]] (so it is never 100), and the computed percentages never
    decrease, whatever the fragment indices and byte counters do. *)
Theorem progress_monotone_below_100 (ds : list progress_dict) :
  let out := feed_progress ds initial_progress_state in
  (forall (i : nat) (p : Z), out !! i = Some (Some p) -> 0 <= p <= 99 /\ p <> 100) /\
  (forall (i j : nat) (p q : Z),
      (i <= j)%nat -> out !! i = Some (Some p) -> out !! j = Some (Some q) -> p <= q).
Proof.
  assert (H0 : 0 <= stored_pct initial_progress_state <= 99) by (vm_compute; split; discriminate).
  destruct (feed_progress_from ds initial_progress_state H0) as [Hrange Hsorted].
  cbv zeta. split.
  - intros i p Hi. apply Hrange in Hi.
    change (stored_pct initial_progress_state) with 0 in Hi. lia.
  - exact Hsorted.
Qed.

(** A run with a fragment index that goes back and a byte counter that
    reaches the total. *)
Example feed_progress_regression :
  feed_progress
    [ {| status := Some "downloading"; filename := None; tmpfilename := None;
         downloaded_bytes := None; total_bytes := None;
         fragment_count := Some (Py.Int 10); fragment_index := Some (Py.Int 5);
         total_bytes_estimate := None |};
      {| status := Some "downloading"; filename := None; tmpfilename := None;
         downloaded_bytes := None; total_bytes := None;
         fragment_count := Some (Py.Int 10); fragment_index := Some (Py.Int 2);
         total_bytes_estimate := None |};
      {| status := Some "downloading"; filename := None; tmpfilename := None;
         downloaded_bytes := Some (Py.Float (1 # 2)); total_bytes := None;
         fragment_count := None; fragment_index := None;
         total_bytes_estimate := None |};
      {| status := Some "downloading"; filename := None; tmpfilename := None;
         downloaded_bytes := Some (Py.Int 700); total_bytes := Some (Py.Int 700);
         fragment_count := None; fragment_index := None;
         total_bytes_estimate := None |} ]
    initial_progress_state
  = [Some 50; Some 50; None; Some 99].
Proof. vm_compute. reflexivity. Qed.

(** Once the hook has stored 100 on a finished signal, a later signal of
    the same job (the second stream of a paired plan) reads it back. *)
Example feed_progress_after_finished :
  feed_progress
    [ {| status := Some "downloading"; filename := None; tmpfilename := None;
         downloaded_bytes := Some (Py.Int 10); total_bytes := Some (Py.Int 700);
         fragment_count := None; fragment_index := None;
         total_bytes_estimate := None |} ]
    (<["pct" := 100]> initial_progress_state)
  = [Some 100].
Proof. vm_compute. reflexivity. Qed.

(** The theorem on a run of two fragment signals, the second one behind
    the first: 50 is reported twice. *)
Lemma progress_monotone_below_100_witness :
  let sig i :=
    {| status := Some "downloading"; filename := None; tmpfilename := None;
       downloaded_bytes := None; total_bytes := None;
       fragment_count := Some (Py.Int 10); fragment_index := Some (Py.Int i);
       total_bytes_estimate := None |} in
  feed_progress [sig 5; sig 2] initial_progress_state = [Some 50; Some 50] /\
  (0 <= 50 <= 99 /\ 50 <> 100) /\ 50 <= 50.
Proof.
  cbv zeta. split; [reflexivity|].
  pose proof (progress_monotone_below_100
    [ {| status := Some "downloading"; filename := None; tmpfilename := None;
         downloaded_bytes := None; total_bytes := None;
         fragment_count := Some (Py.Int 10); fragment_index := Some (Py.Int 5);
         total_bytes_estimate := None |};
      {| status := Some "downloading"; filename := None; tmpfilename := None;
         downloaded_bytes := None; total_bytes := None;
         fragment_count := Some (Py.Int 10); fragment_index := Some (Py.Int 2);
         total_bytes_estimate := None |} ]) as [Hrange Hmono].
  split.
  - exact (Hrange 1%nat 50 eq_refl).
  - exact (Hmono 0%nat 1%nat 50 50 (le_S _ _ (le_n _)) eq_refl eq_refl).
Defined.

(** ** Audio fitter *)

Section AudioFitter.

Lemma candidates_descending : StronglySorted (fun a b => b < a) candidates.
Proof. unfold candidates. repeat constructor; lia. Qed.

Lemma candidates_exact (br : Z) : In br candidates -> br * 1000 = 8 * (br * 1000 / 8).
Proof.
  unfold candidates. cbn [In].
  intros H. repeat (destruct H as [<-|H]; [reflexivity|]). contradiction.
Qed.

(** On the ladder the estimate of the code is the floor written in the
    specification. *)
Lemma audio_estimate_floor (d br : Z) :
  In br candidates -> audio_estimate d br = d * br * 1000 / 8.
Proof.
  intros Hbr. unfold audio_estimate.
  pose proof (candidates_exact br Hbr) as He.
  replace (d * br * 1000) with ((d * (br * 1000 / 8)) * 8) by lia.
  now rewrite Z.div_mul by lia.
Qed.

(** The loop returns the plan of the first rung that passes the test; on a
    descending ladder that is the highest such rung. *)
Lemma fit_ladder_highest (d limit_bytes : Z) (brs : list Z) (br : Z) :
  StronglySorted (fun a b => b < a) brs ->
  In br brs ->
  audio_estimate d br + AUDIO_HEADROOM_BYTES <= limit_bytes ->
  (forall br', In br' brs ->
     audio_estimate d br' + AUDIO_HEADROOM_BYTES <= limit_bytes -> br' <= br) ->
  fit_ladder d limit_bytes brs = Some (audio_plan_of br (audio_estimate d br)).
Proof.
  induction brs as [|a brs IH]; intros Hs Hin Hfit Hmax; [destruct Hin|].
  apply StronglySorted_inv in Hs as [Hs Ha]. cbn [fit_ladder].
  destruct (audio_estimate d a + AUDIO_HEADROOM_BYTES <=? limit_bytes) eqn:Hta.
  - apply Z.leb_le in Hta.
    destruct Hin as [->|Hin]; [reflexivity|].
    pose proof (Hmax a (or_introl eq_refl) Hta) as Hle.
    rewrite List.Forall_forall in Ha. apply Ha in Hin. lia.
  - apply Z.leb_gt in Hta.
    destruct Hin as [->|Hin]; [lia|].
    apply IH; auto. intros br' Hbr'. apply Hmax. now right.
Qed.

Lemma fit_ladder_none (d limit_bytes : Z) (brs : list Z) :
  (forall br, In br brs -> ~ audio_estimate d br + AUDIO_HEADROOM_BYTES <= limit_bytes) ->
  fit_ladder d limit_bytes brs = None.
Proof.
  induction brs as [|a brs IH]; intros Hno; [reflexivity|]. cbn [fit_ladder].
  destruct (audio_estimate d a + AUDIO_HEADROOM_BYTES <=? limit_bytes) eqn:Hta.
  - apply Z.leb_le in Hta. exfalso. exact (Hno a (or_introl eq_refl) Hta).
  - apply IH. intros br Hbr. apply Hno. now right.
Qed.

End AudioFitter.

(** C3 (as amended).  Let the duration of the metadata be a number [x]; the
    fitter works on [int(x)], the duration truncated to whole seconds.
    - When [x > 0] and [d = int(x) > 0]: if [br] is the highest rung of the
      ladder with [floor(d * br * 1000 / 8) + 1,500,000 <= L], the fitter
      returns a plan with that bitrate, that estimated size and
      confidence true, and no reason; if no rung passes the test it
      returns no plan and the too-large reason.
    - When the duration is absent, is not positive, or truncates to 0, it
      returns no plan and the unknown-duration reason. *)
Theorem audio_fitter_ladder (m : meta) (L : Z) :
  (forall x : Py.num,
      duration m = Some x -> Py.positive x = true -> 0 < Py.to_int x ->
      let d := Py.to_int x in
      (forall br : Z,
          In br candidates -> fits d L br ->
          (forall br', In br' candidates -> fits d L br' -> br' <= br) ->
          exists p : plan,
            _build_audio_plan_mp3 m L = (Some p, None) /\
            mp3_kbps p = Some br /\
            estimated_size p = Some (d * br * 1000 / 8) /\
            estimated_confident p = true) /\
      ((forall br : Z, In br candidates -> ~ fits d L br) ->
       _build_audio_plan_mp3 m L = (None, Some (audio_too_large_reason L)))) /\
  (duration m = None \/
   (exists x : Py.num,
       duration m = Some x /\ (Py.positive x = false \/ Py.to_int x = 0)) ->
   _build_audio_plan_mp3 m L = (None, Some unknown_duration_reason)).
Proof.
  split.
  - intros x Hx Hpos Hd d.
    assert (Hdur : dur_truthy (_duration_sec m) = Some d).
    { unfold _duration_sec. rewrite Hx, Hpos. cbn.
      destruct (Py.to_int x =? 0) eqn:H0; [apply Z.eqb_eq in H0; lia | reflexivity]. }
    unfold _build_audio_plan_mp3. rewrite Hdur. split.
    + intros br Hbr Hfit Hmax.
      unfold fits in Hfit. rewrite <- audio_estimate_floor in Hfit by exact Hbr.
      rewrite (fit_ladder_highest d L candidates br candidates_descending Hbr Hfit).
      * eexists; split; [reflexivity|]. cbn.
        rewrite audio_estimate_floor by exact Hbr. auto.
      * intros br' Hbr' Hfit'. apply Hmax; [exact Hbr'|].
        unfold fits. now rewrite <- audio_estimate_floor by exact Hbr'.
    + intros Hno. rewrite fit_ladder_none; [reflexivity|].
      intros br Hbr Hfit. apply (Hno br Hbr).
      unfold fits. now rewrite <- audio_estimate_floor by exact Hbr.
  - intros [Hnone | (x & Hx & [Hneg | Hzero])];
      unfold _build_audio_plan_mp3, _duration_sec.
    + now rewrite Hnone.
    + now rewrite Hx, Hneg.
    + rewrite Hx. destruct (Py.positive x); [|reflexivity]. cbn. now rewrite Hzero.
Qed.

(** A ten-minute video and a ceiling of 50,000,000 bytes: the top rung fits. *)
Lemma audio_fitter_ladder_witness :
  exists p : plan,
    _build_audio_plan_mp3
      {| duration := Some (Py.Int 600); formats := []; meta_title := None |}
      50000000 = (Some p, None) /\
    mp3_kbps p = Some 192 /\
    estimated_size p = Some (600 * 192 * 1000 / 8) /\
    estimated_confident p = true.
Proof.
  refine (proj1 (proj1 (audio_fitter_ladder
            {| duration := Some (Py.Int 600); formats := []; meta_title := None |}
            50000000) (Py.Int 600) eq_refl eq_refl _) 192 _ _ _).
  - reflexivity.
  - cbn. auto.
  - unfold fits. vm_compute. discriminate.
  - intros br' Hbr' _. cbn in Hbr'.
    repeat (destruct Hbr' as [<-|Hbr']; [lia|]). contradiction.
Defined.

(** C3, the claim as written, fails on durations that are not whole
    seconds.  For a duration of 213.5 s the claim asks for an estimated
    size of [floor(213.5 * 192 * 1000 / 8) = 5,124,000] and the code stores
    [213 * 24000 = 5,112,000]; for a duration of 0.5 s, known and positive,
    the top rung passes the test of the claim and the code reports that
    the duration cannot be determined. *)
Lemma audio_fitter_fractional_duration :
  (exists p : plan,
      _build_audio_plan_mp3
        {| duration := Some (Py.Float (427 # 2)); formats := []; meta_title := None |}
        50000000 = (Some p, None) /\
      mp3_kbps p = Some 192 /\
      estimated_size p = Some 5112000 /\
      Qfloor ((427 # 2) * inject_Z 192 * inject_Z 1000 / inject_Z 8) = 5124000) /\
  (_build_audio_plan_mp3
     {| duration := Some (Py.Float (1 # 2)); formats := []; meta_title := None |}
     50000000 = (None, Some unknown_duration_reason) /\
   Py.positive (Py.Float (1 # 2)) = true /\
   Qfloor ((1 # 2) * inject_Z 192 * inject_Z 1000 / inject_Z 8) + 1500000 <= 50000000).
Proof.
  split.
  - eexists. split; [vm_compute; reflexivity|]. vm_compute. auto.
  - vm_compute. repeat split; discriminate.
Qed.


(** ** Rendition selection *)

Section Selection.

Context {A K : Type}.
Variable eligible : format -> bool.
Variable key : format -> K.
Variable gt : K -> K -> bool.
Variable build : format -> A.

Local Abbreviation step := (select_step eligible key gt build).

(** The loop holds nothing or an eligible candidate it has met. *)
Lemma select_invariant (l : list format) :
  forall (seen : format -> Prop) (st : option (A * K)),
    (st = None \/
     exists g, seen g /\ eligible g = true /\ st = Some (build g, key g)) ->
    fold_left step l st = None \/
    exists g, (seen g \/ In g l) /\ eligible g = true /\
              fold_left step l st = Some (build g, key g).
Proof.
  induction l as [|f l IH]; intros seen st Hst; cbn [fold_left].
  - destruct Hst as [->|(g & Hg & He & ->)]; [now left|]. right. eauto.
  - destruct (IH (fun g => seen g \/ g = f) (step st f)) as [Hn|(g & Hg & He & Hs)].
    + unfold select_step. destruct (eligible f) eqn:Hf.
      * right. destruct Hst as [->|(g & Hg & He & ->)].
        -- exists f. auto.
        -- destruct (gt (key f) (key g)); [exists f | exists g]; auto.
      * destruct Hst as [->|(g & Hg & He & ->)]; [now left|]. right. eauto.
    + now left.
    + right. exists g. split; [|auto]. cbn. destruct Hg as [[Hg| ->]|Hg]; auto.
Qed.

(** Candidates whose key is not greater leave the loop as it is. *)
Lemma select_keep (l : list format) (a : A) (k : K) :
  (forall g, In g l -> eligible g = true -> gt (key g) k = false) ->
  fold_left step l (Some (a, k)) = Some (a, k).
Proof.
  induction l as [|g l IH]; intros Hle; cbn [fold_left]; [reflexivity|].
  assert (Hg : step (Some (a, k)) g = Some (a, k)).
  { unfold select_step. destruct (eligible g) eqn:He; [|reflexivity].
    now rewrite (Hle g (or_introl eq_refl) He). }
  rewrite Hg. apply IH. intros g' Hin. apply Hle. now right.
Qed.

(** The loop selects the first candidate whose key no other candidate
    exceeds: the earlier ones are smaller, the later ones are not greater,
    ties included. *)
Lemma select_first_max (l1 l2 : list format) (f : format) :
  eligible f = true ->
  (forall g, In g l1 -> eligible g = true -> gt (key f) (key g) = true) ->
  (forall g, In g l2 -> eligible g = true -> gt (key g) (key f) = false) ->
  fold_left step (l1 ++ f :: l2) None = Some (build f, key f).
Proof.
  intros Hf Hbefore Hafter.
  rewrite fold_left_app. cbn [fold_left].
  assert (Hmid : step (fold_left step l1 None) f = Some (build f, key f)).
  { destruct (select_invariant l1 (fun _ => False) None (or_introl eq_refl))
      as [->|(g & [[]|Hg] & He & ->)]; unfold select_step; rewrite Hf.
    - reflexivity.
    - now rewrite (Hbefore g Hg He). }
  rewrite Hmid. now apply select_keep.
Qed.

End Selection.

Lemma progressive_step_select (dur : option Z) st f :
  progressive_step dur st f =
  select_step progressive_eligible video_key video_key_gt (progressive_plan dur) st f.
Proof.
  unfold progressive_step, select_step, progressive_eligible.
  destruct (ext_is "mp4" f); cbn; [|reflexivity].
  destruct (is_none_codec (vcodec f) || is_none_codec (acodec f)); reflexivity.
Qed.

Lemma video_only_step_select (dur : option Z) st f :
  video_only_step dur st f =
  select_step video_only_eligible video_key video_key_gt (best_entry_of dur) st f.
Proof. reflexivity. Qed.

Lemma audio_only_step_select (dur : option Z) st f :
  audio_only_step dur st f =
  select_step audio_only_eligible audio_key (fun k best => Py.Qlt_bool best k)
    (best_entry_of dur) st f.
Proof. reflexivity. Qed.

Lemma fold_left_ext {S X : Type} (f g : S -> X -> S) (l : list X) (s : S) :
  (forall s x, f s x = g s x) -> fold_left f l s = fold_left g l s.
Proof.
  intros Hfg. revert s. induction l as [|x l IH]; intros s; cbn; [reflexivity|].
  now rewrite Hfg, IH.
Qed.

(** The two selections of [_best_separate_mp4_m4a] do not interact. *)
Lemma separate_fold (dur : option Z) (l : list format) :
  forall sv sa,
    fold_left (separate_step dur) l (sv, sa) =
    (fold_left (video_only_step dur) l sv, fold_left (audio_only_step dur) l sa).
Proof.
  induction l as [|f l IH]; intros sv sa; cbn [fold_left]; [reflexivity|].
  unfold separate_step at 2. cbn [fst snd]. apply IH.
Qed.

(** A later candidate whose key ties with the held one does not replace it. *)
Lemma video_key_tie_not_gt (k k' : Z * Z * Q) :
  video_key_tie k k' -> video_key_gt k k' = false.
Proof.
  destruct k as [[h f] t], k' as [[h' f'] t']. unfold video_key_tie. cbn.
  intros (-> & -> & Ht). rewrite !Z.eqb_refl. cbn.
  unfold Py.Qlt_bool. apply negb_false_iff, Qle_bool_iff. rewrite Ht. apply Qle_refl.
Qed.

Lemma audio_key_tie_not_gt (k k' : Q) : (k == k')%Q -> Py.Qlt_bool k' k = false.
Proof.
  intros Hk. unfold Py.Qlt_bool. apply negb_false_iff, Qle_bool_iff.
  rewrite Hk. apply Qle_refl.
Qed.

Lemma video_key_gt_asym (k k' : Z * Z * Q) :
  video_key_gt k k' = true -> video_key_gt k' k = false.
Proof.
  destruct k as [[h f] t], k' as [[h' f'] t']. cbn.
  rewrite (Z.eqb_sym h' h), (Z.eqb_sym f' f).
  destruct (h =? h') eqn:Hh; cbn.
  - destruct (f =? f') eqn:Hf; cbn.
    + unfold Py.Qlt_bool. intros Ht. apply negb_true_iff in Ht.
      apply negb_false_iff, Qle_bool_iff.
      destruct (Qlt_le_dec t' t) as [Hlt|Hle]; [now apply Qlt_le_weak|].
      apply Qle_bool_iff in Hle. congruence.
    + intros Hlt. apply Z.ltb_lt in Hlt. apply Z.ltb_ge. lia.
  - intros Hlt. apply Z.ltb_lt in Hlt. apply Z.ltb_ge. lia.
Qed.

Lemma audio_key_gt_asym (k k' : Q) :
  Py.Qlt_bool k' k = true -> Py.Qlt_bool k k' = false.
Proof.
  unfold Py.Qlt_bool. intros Ht. apply negb_true_iff in Ht.
  apply negb_false_iff, Qle_bool_iff.
  destruct (Qlt_le_dec k' k) as [Hlt|Hle]; [now apply Qlt_le_weak|].
  apply Qle_bool_iff in Hle. congruence.
Qed.

(** C4. In each of the three selections (single-file candidates,
    video-only candidates, audio-only candidates), let [f] be an eligible
    candidate such that every eligible candidate met before it has a
    smaller key and every eligible candidate met after it has a smaller
    key or a key that compares equal.  Then the selection is made from
    [f]: among candidates that tie on the key the first one met is chosen
    and no later one replaces it. *)
Theorem selection_first_wins (m : meta) :
  let dur := _duration_sec m in
  (forall (l1 l2 : list format) (f : format),
      formats m = (l1 ++ f :: l2)%list ->
      progressive_eligible f = true ->
      (forall g, In g l1 -> progressive_eligible g = true ->
                 video_key_gt (video_key f) (video_key g) = true) ->
      (forall g, In g l2 -> progressive_eligible g = true ->
                 video_key_gt (video_key f) (video_key g) = true \/
                 video_key_tie (video_key g) (video_key f)) ->
      _best_progressive_mp4 m = Some (progressive_plan dur f)) /\
  (forall (v1 v2 a1 a2 : list format) (fv fa : format),
      formats m = (v1 ++ fv :: v2)%list ->
      formats m = (a1 ++ fa :: a2)%list ->
      video_only_eligible fv = true ->
      audio_only_eligible fa = true ->
      (forall g, In g v1 -> video_only_eligible g = true ->
                 video_key_gt (video_key fv) (video_key g) = true) ->
      (forall g, In g v2 -> video_only_eligible g = true ->
                 video_key_gt (video_key fv) (video_key g) = true \/
                 video_key_tie (video_key g) (video_key fv)) ->
      (forall g, In g a1 -> audio_only_eligible g = true ->
                 (audio_key g < audio_key fa)%Q) ->
      (forall g, In g a2 -> audio_only_eligible g = true ->
                 (audio_key g < audio_key fa)%Q \/ (audio_key g == audio_key fa)%Q) ->
      _best_separate_mp4_m4a m =
      Some (separate_plan (best_entry_of dur fv) (best_entry_of dur fa))).
Proof.
  cbv zeta. split.
  - intros l1 l2 f Hm Hf Hbefore Hafter. unfold _best_progressive_mp4. rewrite Hm.
    rewrite (fold_left_ext _ _ _ _ (progressive_step_select (_duration_sec m))).
    rewrite (select_first_max progressive_eligible video_key video_key_gt
               (progressive_plan (_duration_sec m)) l1 l2 f Hf Hbefore).
    + reflexivity.
    + intros g Hg He. destruct (Hafter g Hg He) as [Hlt|Htie].
      * now apply video_key_gt_asym.
      * now apply video_key_tie_not_gt.
  - intros v1 v2 a1 a2 fv fa Hv Ha Hfv Hfa Hvb Hva Hab Haa.
    unfold _best_separate_mp4_m4a. rewrite separate_fold.
    rewrite Hv at 1. rewrite Ha.
    rewrite (fold_left_ext _ _ _ _ (video_only_step_select (_duration_sec m))).
    rewrite (fold_left_ext _ _ _ _ (audio_only_step_select (_duration_sec m))).
    rewrite (select_first_max video_only_eligible video_key video_key_gt
               (best_entry_of (_duration_sec m)) v1 v2 fv Hfv Hvb).
    + rewrite (select_first_max audio_only_eligible audio_key
                 (fun k best => Py.Qlt_bool best k)
                 (best_entry_of (_duration_sec m)) a1 a2 fa Hfa).
      * reflexivity.
      * intros g Hg He. specialize (Hab g Hg He). unfold Py.Qlt_bool.
        apply negb_true_iff. destruct (Qle_bool (audio_key fa) (audio_key g)) eqn:Hle;
          [|reflexivity].
        apply Qle_bool_iff in Hle. exfalso. exact (Qlt_not_le _ _ Hab Hle).
      * intros g Hg He. destruct (Haa g Hg He) as [Hlt|Htie].
        -- apply audio_key_gt_asym. unfold Py.Qlt_bool. apply negb_true_iff.
           destruct (Qle_bool (audio_key fa) (audio_key g)) eqn:Hle; [|reflexivity].
           apply Qle_bool_iff in Hle. exfalso. exact (Qlt_not_le _ _ Hlt Hle).
        -- now apply audio_key_tie_not_gt.
    + intros g Hg He. destruct (Hva g Hg He) as [Hlt|Htie].
      * now apply video_key_gt_asym.
      * now apply video_key_tie_not_gt.
Qed.

(** Six formats: two single-file candidates that tie, two video-only
    candidates that tie and two audio-only candidates that tie. *)
Lemma selection_first_wins_witness :
  let fmt e v a h id :=
    {| ext := Some e; vcodec := Some v; acodec := Some a; height := h;
       fps := Some (Py.Float (2997 # 100)); tbr := Some (Py.Float (2500 # 1));
       abr := None; filesize := Some (Py.Int 1000); filesize_approx := None;
       format_url := None; format_id := Some id |} in
  let p1 := fmt "mp4" "avc1" "mp4a" (Some 720) "22" in
  let p2 := fmt "mp4" "avc1" "mp4a" (Some 720) "59" in
  let v1 := fmt "mp4" "avc1" "none" (Some 1080) "137" in
  let v2 := fmt "mp4" "avc1" "none" (Some 1080) "299" in
  let a1 := fmt "m4a" "none" "mp4a" None "140" in
  let a2 := fmt "m4a" "none" "mp4a" None "141" in
  let m := {| duration := Some (Py.Int 60);
              formats := [p1; p2; v1; v2; a1; a2]; meta_title := None |} in
  _best_progressive_mp4 m = Some (progressive_plan (Some 60) p1) /\
  _best_separate_mp4_m4a m =
  Some (separate_plan (best_entry_of (Some 60) v1) (best_entry_of (Some 60) a1)).
Proof.
  cbv zeta.
  match goal with |- _best_progressive_mp4 ?m = _ /\ _ =>
    pose proof (selection_first_wins m) as [Hp Hs] end.
  split.
  - refine (Hp [] _ _ eq_refl eq_refl _ _).
    + intros g [].
    + intros g Hg He. cbn in Hg.
      repeat (destruct Hg as [<-|Hg]; [try discriminate He|]); [|contradiction].
      right. repeat split.
  - refine (Hs [_; _] _ [_; _; _; _] _ _ _ eq_refl eq_refl eq_refl eq_refl _ _ _ _).
    + intros g Hg He. cbn in Hg.
      repeat (destruct Hg as [<-|Hg]; [try discriminate He|]). contradiction.
    + intros g Hg He. cbn in Hg.
      repeat (destruct Hg as [<-|Hg]; [try discriminate He|]); [|contradiction].
      right. repeat split.
    + intros g Hg He. cbn in Hg.
      repeat (destruct Hg as [<-|Hg]; [try discriminate He|]). contradiction.
    + intros g Hg He. cbn in Hg.
      repeat (destruct Hg as [<-|Hg]; [try discriminate He|]); [|contradiction].
      right. reflexivity.
Defined.

Example selection_tie_format_spec :
  let fmt id :=
    {| ext := Some "mp4"; vcodec := Some "avc1"; acodec := Some "mp4a";
       height := Some 720; fps := Some (Py.Int 30); tbr := Some (Py.Int 2500);
       abr := None; filesize := Some (Py.Int 1000); filesize_approx := None;
       format_url := Some "https://cdn/x"; format_id := Some id |} in
  format_spec <$>
    _best_progressive_mp4
      {| duration := None; formats := [fmt "22"; fmt "59"]; meta_title := None |}
  = Some "22".
Proof. vm_compute. reflexivity. Qed.

(** ** Range probe *)

Example _probe_url_size_bytes_range :
  _probe_url_size_bytes
    (fun _ => Some {| content_range := Some "bytes 0-0/123456";
                      content_length := Some "1" |})
    "https://cdn/v" = Some 123456.
Proof. vm_compute. reflexivity. Qed.

Example _probe_url_size_bytes_length :
  _probe_url_size_bytes
    (fun _ => Some {| content_range := None; content_length := Some "2000000" |})
    "https://cdn/v" = Some 2000000.
Proof. vm_compute. reflexivity. Qed.

Example _probe_url_size_bytes_small_length :
  _probe_url_size_bytes
    (fun _ => Some {| content_range := Some "bytes 0-0/*"; content_length := Some "1" |})
    "https://cdn/v" = None.
Proof. vm_compute. reflexivity. Qed.

Section Probe.

Variable net : network.

Local Abbreviation probe := (_probe_url_size_bytes net).
Local Abbreviation is_http := (fun u : string => Py.startswith "http" u = true).

(** The fallback on [Content-Length] gives a total above 1 MiB or none. *)
Lemma content_length_fallback_positive (resp : http_response) (sz : Z) :
  match content_length resp with
  | Some cl =>
      match digits_value cl with
      | Some val => if 1024 * 1024 <? val then Some val else None
      | None => None
      end
  | None => None
  end = Some sz -> 0 < sz.
Proof.
  destruct (content_length resp) as [cl|]; [|discriminate].
  destruct (digits_value cl) as [val|]; [|discriminate].
  destruct (1024 * 1024 <? val) eqn:Hbig; [|discriminate].
  intros [= <-]. apply Z.ltb_lt in Hbig. lia.
Qed.

(** A probe that returns a total returns a positive one. *)
Lemma _probe_url_size_bytes_positive (u : string) (sz : Z) :
  probe u = Some sz -> 0 < sz.
Proof.
  unfold _probe_url_size_bytes.
  destruct (negb (Py.str_truthy (Some u))); [discriminate|].
  destruct (net u) as [resp|]; [|discriminate].
  destruct (content_range resp) as [cr|];
    [|apply content_length_fallback_positive].
  destruct (Py.str_truthy (Some cr));
    [|apply content_length_fallback_positive].
  destruct (content_range_total cr) as [total|];
    [|apply content_length_fallback_positive].
  destruct (0 <? total) eqn:Hpos;
    [|apply content_length_fallback_positive].
  intros [= <-]. now apply Z.ltb_lt.
Qed.

(** When every probe gives a total, the loop collects all of them and has
    requested every URL. *)
Lemma probe_all_success (urls : list string) :
  (forall u, In u urls -> is_Some (probe u)) ->
  probe_all net urls = (Some (map (fun u => default 0 (probe u)) urls), urls).
Proof.
  induction urls as [|u urls IH]; intros Hall; cbn [probe_all map]; [reflexivity|].
  destruct (Hall u (or_introl eq_refl)) as [sz Hsz]. rewrite Hsz.
  pose proof (_probe_url_size_bytes_positive u sz Hsz) as Hpos.
  destruct (sz <=? 0) eqn:Hle; [apply Z.leb_le in Hle; lia|].
  rewrite IH by (intros u' Hu'; apply Hall; now right). reflexivity.
Qed.

(** When some probe gives no total, the loop gives none. *)
Lemma probe_all_failure (urls : list string) (u : string) :
  In u urls -> probe u = None -> (probe_all net urls).1 = None.
Proof.
  induction urls as [|u' urls IH]; intros Hin Hfail; [destruct Hin|].
  cbn [probe_all].
  destruct (probe u') as [sz|] eqn:Hsz.
  - destruct (sz <=? 0); [reflexivity|].
    destruct Hin as [->|Hin]; [congruence|].
    specialize (IH Hin Hfail).
    destruct (probe_all net urls) as [rest asked]. cbn in *. now rewrite IH.
  - reflexivity.
Qed.

(** The two assignments of the last lines of [_apply_probe_if_needed]. *)
Lemma alter_size_confident (h : heap) (l : nat) (p : plan) (total : Z) :
  h !! l = Some p ->
  alter (set_estimated_confident true) l (alter (set_estimated_size (Some total)) l h)
  = <[l := set_estimated_confident true (set_estimated_size (Some total) p)]> h.
Proof.
  intros Hl. apply map_eq. intros k. destruct (decide (k = l)) as [->|Hk].
  - rewrite lookup_alter_eq, lookup_alter_eq, Hl, lookup_insert_eq. reflexivity.
  - rewrite lookup_alter_ne, lookup_alter_ne, lookup_insert_ne by congruence. reflexivity.
Qed.

Lemma _apply_probe_if_needed_confident (h : heap) (l : nat) (p : plan) :
  h !! l = Some p ->
  estimated_confident p = true -> is_Some (estimated_size p) ->
  _apply_probe_if_needed net h l = (l, h, []).
Proof.
  intros Hl Hc Hs. unfold _apply_probe_if_needed. rewrite Hl, Hc.
  now rewrite bool_decide_eq_true_2.
Qed.

Lemma not_confident_guard (p : plan) :
  ~ (estimated_confident p = true /\ is_Some (estimated_size p)) ->
  estimated_confident p && bool_decide (is_Some (estimated_size p)) = false.
Proof.
  intros Hn. apply andb_false_iff.
  destruct (estimated_confident p); [right | now left].
  apply bool_decide_eq_false_2. intros Hs. apply Hn. auto.
Qed.

Lemma _apply_probe_if_needed_no_url (h : heap) (l : nat) (p : plan) :
  h !! l = Some p ->
  filter is_http (probe_urls p) = [] ->
  _apply_probe_if_needed net h l = (l, h, []).
Proof.
  intros Hl Hu. unfold _apply_probe_if_needed. rewrite Hl, Hu.
  now destruct (estimated_confident p && bool_decide (is_Some (estimated_size p))).
Qed.

Lemma _apply_probe_if_needed_success (h : heap) (l : nat) (p : plan) :
  h !! l = Some p ->
  ~ (estimated_confident p = true /\ is_Some (estimated_size p)) ->
  let urls := filter is_http (probe_urls p) in
  urls <> [] ->
  (forall u, In u urls -> is_Some (probe u)) ->
  _apply_probe_if_needed net h l =
  (l,
   <[l := set_estimated_confident true
            (set_estimated_size
               (Some (sum_sizes (map (fun u => default 0 (probe u)) urls))) p)]> h,
   urls).
Proof.
  intros Hl Hn urls Hne Hall. unfold _apply_probe_if_needed.
  rewrite Hl, (not_confident_guard p Hn). fold urls.
  rewrite (probe_all_success urls Hall).
  destruct urls as [|u us]; [congruence|].
  now rewrite (alter_size_confident h l p _ Hl).
Qed.

Lemma _apply_probe_if_needed_failure (h : heap) (l : nat) (p : plan) (u : string) :
  h !! l = Some p ->
  In u (filter is_http (probe_urls p)) ->
  probe u = None ->
  exists asked, _apply_probe_if_needed net h l = (l, h, asked).
Proof.
  intros Hl Hin Hfail. unfold _apply_probe_if_needed. rewrite Hl.
  destruct (estimated_confident p && bool_decide (is_Some (estimated_size p)));
    [eauto|].
  pose proof (probe_all_failure _ u Hin Hfail) as Hnone.
  destruct (filter is_http (probe_urls p)) as [|u' us]; [eauto|].
  destruct (probe_all net (u' :: us)) as [[sizes|] asked]; [discriminate|eauto].
Qed.

End Probe.

Lemma probed_totals (net : network) (urls : list string) :
  (forall u, In u urls ->
     exists sz, _probe_url_size_bytes net u = Some sz /\ 0 < sz) ->
  Forall2 (fun u sz => _probe_url_size_bytes net u = Some sz /\ 0 < sz) urls
    (map (fun u => default 0 (_probe_url_size_bytes net u)) urls).
Proof.
  induction urls as [|u urls IH]; intros Hall; cbn [map]; constructor.
  - destruct (Hall u (or_introl eq_refl)) as (sz & Hsz & Hpos).
    rewrite Hsz. cbn. auto.
  - apply IH. intros u' Hu'. apply Hall. now right.
Qed.

(** Either every URL of a list gives a total, or one of them gives none. *)
Lemma probes_all_or_one_fails (net : network) (urls : list string) :
  (forall u, In u urls -> is_Some (_probe_url_size_bytes net u)) \/
  (exists u, In u urls /\ _probe_url_size_bytes net u = None).
Proof.
  induction urls as [|u urls [IH|(u' & Hin & Hfail)]].
  - left. intros u [].
  - destruct (_probe_url_size_bytes net u) as [sz|] eqn:Hsz.
    + left. intros u' [<-|Hin]; [rewrite Hsz; eauto | now apply IH].
    + right. exists u. split; [now left | exact Hsz].
  - right. exists u'. split; [now right | exact Hfail].
Qed.

(** C6. Let [p] be the plan object given to the probing step and [urls]
    the http URLs it exposes.
    - If [p] is not confident, [urls] is not empty and every probe returns
      a positive total, the plan returned has as estimated size the sum of
      the probed totals, and is confident.
    - If [p] is not confident and [urls] is empty or some probe returns no
      total, the plan returned is [p], size and confidence included.
    - If [p] is confident with an integer size, the plan returned is [p]
      and no URL is requested. *)
Theorem probe_escalation (net : network) (h : heap) (l : nat) (p : plan) :
  h !! l = Some p ->
  let urls := filter (fun u => Py.startswith "http" u = true) (probe_urls p) in
  let r := _apply_probe_if_needed net h l in
  (~ (estimated_confident p = true /\ is_Some (estimated_size p)) ->
   urls <> [] ->
   (forall u, In u urls ->
      exists sz, _probe_url_size_bytes net u = Some sz /\ 0 < sz) ->
   exists (totals : list Z) (p' : plan),
     Forall2 (fun u sz => _probe_url_size_bytes net u = Some sz /\ 0 < sz) urls totals /\
     r.1.2 !! r.1.1 = Some p' /\
     estimated_size p' = Some (sum_sizes totals) /\
     estimated_confident p' = true) /\
  (~ (estimated_confident p = true /\ is_Some (estimated_size p)) ->
   urls = [] \/ (exists u, In u urls /\ _probe_url_size_bytes net u = None) ->
   r.1.2 !! r.1.1 = Some p) /\
  (estimated_confident p = true /\ is_Some (estimated_size p) ->
   r.1.2 !! r.1.1 = Some p /\ r.2 = []).
Proof.
  intros Hl urls r. repeat split.
  - intros Hn Hne Hall.
    exists (map (fun u => default 0 (_probe_url_size_bytes net u)) urls).
    eexists. split; [now apply probed_totals|].
    subst r. rewrite (_apply_probe_if_needed_success net h l p Hl Hn Hne).
    + cbn. rewrite lookup_insert_eq. split; [reflexivity|]. cbn. fold urls. auto.
    + intros u Hu. destruct (Hall u Hu) as (sz & -> & _). eauto.
  - intros Hn [Hempty|(u & Hin & Hfail)]; subst r.
    + now rewrite (_apply_probe_if_needed_no_url net h l p Hl Hempty).
    + destruct (_apply_probe_if_needed_failure net h l p u Hl Hin Hfail) as [asked ->].
      exact Hl.
  - subst r. destruct H as [Hc Hs].
    now rewrite (_apply_probe_if_needed_confident net h l p Hl Hc Hs).
  - subst r. destruct H as [Hc Hs].
    now rewrite (_apply_probe_if_needed_confident net h l p Hl Hc Hs).
Qed.

(** A paired plan that exposes two http URLs and one that is not http; the
    probes of the first two give 1,000,000 and 2,000,000 bytes. *)
Lemma probe_escalation_witness :
  let net : network := fun u =>
    if String.eqb u "https://cdn/v"
    then Some {| content_range := Some "bytes 0-0/1000000"; content_length := Some "1" |}
    else Some {| content_range := None; content_length := Some "2000000" |} in
  let p := {| kind := Some "separate"; format_spec := "137+140";
              merge_output_format := Some "mp4"; mp3_kbps := None;
              estimated_size := Some 777; estimated_confident := false;
              probe_urls := ["https://cdn/v"; "ftp://cdn/x"; "http://cdn/a"];
              quality_label := "1080p" |} in
  let r := _apply_probe_if_needed net {[ 0%nat := p ]} 0%nat in
  exists (totals : list Z) (p' : plan),
    Forall2 (fun u sz => _probe_url_size_bytes net u = Some sz /\ 0 < sz)
      ["https://cdn/v"; "http://cdn/a"] totals /\
    r.1.2 !! r.1.1 = Some p' /\
    estimated_size p' = Some (sum_sizes totals) /\
    estimated_confident p' = true.
Proof.
  cbv zeta.
  match goal with |- context [_apply_probe_if_needed ?net ?h ?l] =>
    pose proof (probe_escalation net h l) as H
  end.
  refine (proj1 (H _ eq_refl) _ _ _).
  - intros [[=] _].
  - discriminate.
  - intros u [<-|[<-|[]]].
    + exists 1000000. split; [vm_compute; reflexivity | lia].
    + exists 2000000. split; [vm_compute; reflexivity | lia].
Defined.

Example _apply_probe_if_needed_sum :
  let net : network := fun u =>
    if String.eqb u "https://cdn/v"
    then Some {| content_range := Some "bytes 0-0/1000000"; content_length := Some "1" |}
    else Some {| content_range := None; content_length := Some "2000000" |} in
  let p := {| kind := Some "separate"; format_spec := "137+140";
              merge_output_format := Some "mp4"; mp3_kbps := None;
              estimated_size := Some 777; estimated_confident := false;
              probe_urls := ["https://cdn/v"; "ftp://cdn/x"; "http://cdn/a"];
              quality_label := "1080p" |} in
  let r := _apply_probe_if_needed net {[ 0%nat := p ]} 0%nat in
  (estimated_size <$> r.1.2 !! r.1.1) = Some (Some 3000000) /\
  r.2 = ["https://cdn/v"; "http://cdn/a"].
Proof. vm_compute. auto. Qed.

(** C7 (as amended).  The probing step, applied to a plan object that is
    not confident, returns the object it was given and leaves every other
    object alone; when the plan exposes an http URL and every probe gives
    a total it writes the sum of the totals and [True] into the size and
    confidence fields of that same object, every other field keeping its
    value; when the plan exposes no http URL or a probe gives no total the
    store is left as it was. *)
Theorem probe_rewrites_plan_in_place (net : network) (h : heap) (l : nat) (p : plan) :
  h !! l = Some p ->
  estimated_confident p = false ->
  let urls := filter (fun u => Py.startswith "http" u = true) (probe_urls p) in
  let r := _apply_probe_if_needed net h l in
  r.1.1 = l /\
  (forall k : nat, k <> l -> r.1.2 !! k = h !! k) /\
  (urls <> [] ->
   (forall u, In u urls -> is_Some (_probe_url_size_bytes net u)) ->
   r.1.2 !! l =
   Some {| kind := kind p; format_spec := format_spec p;
           merge_output_format := merge_output_format p; mp3_kbps := mp3_kbps p;
           estimated_size :=
             Some (sum_sizes (map (fun u => default 0 (_probe_url_size_bytes net u)) urls));
           estimated_confident := true;
           probe_urls := probe_urls p; quality_label := quality_label p |}) /\
  (urls = [] \/ (exists u, In u urls /\ _probe_url_size_bytes net u = None) ->
   r.1.2 = h).
Proof.
  intros Hl Hc urls r.
  assert (Hn : ~ (estimated_confident p = true /\ is_Some (estimated_size p)))
    by (intros [Ht _]; congruence).
  assert (Hcases :
    r = (l, h, r.2) \/
    (urls <> [] /\ (forall u, In u urls -> is_Some (_probe_url_size_bytes net u)) /\
     r = (l, <[l := set_estimated_confident true
                      (set_estimated_size
                         (Some (sum_sizes
                                  (map (fun u => default 0 (_probe_url_size_bytes net u))
                                     urls))) p)]> h, urls))).
  { destruct (decide (urls = [])) as [Hempty|Hne].
    - left. subst r. now rewrite (_apply_probe_if_needed_no_url net h l p Hl Hempty).
    - destruct (probes_all_or_one_fails net urls) as [Hall|(u & Hin & Hfail)].
      + right. repeat split; auto.
        apply (_apply_probe_if_needed_success net h l p Hl Hn Hne Hall).
      + left. subst r.
        destruct (_apply_probe_if_needed_failure net h l p u Hl Hin Hfail) as [asked ->].
        reflexivity. }
  split; [|split; [|split]].
  - destruct Hcases as [->|(_ & _ & ->)]; reflexivity.
  - intros k Hk. destruct Hcases as [->|(_ & _ & ->)]; cbn; [reflexivity|].
    now rewrite lookup_insert_ne by congruence.
  - intros Hne Hall. subst r.
    rewrite (_apply_probe_if_needed_success net h l p Hl Hn Hne Hall).
    cbn. now rewrite lookup_insert_eq.
  - intros [Hempty|(u & Hin & Hfail)]; subst r.
    + now rewrite (_apply_probe_if_needed_no_url net h l p Hl Hempty).
    + destruct (_apply_probe_if_needed_failure net h l p u Hl Hin Hfail) as [asked ->].
      reflexivity.
Qed.

Lemma probe_rewrites_plan_in_place_witness :
  let net : network := fun _ =>
    Some {| content_range := Some "bytes 0-0/123456"; content_length := Some "1" |} in
  let p := {| kind := Some "progressive"; format_spec := "22";
              merge_output_format := None; mp3_kbps := None;
              estimated_size := None; estimated_confident := false;
              probe_urls := ["https://cdn/v"]; quality_label := "720p" |} in
  let r := _apply_probe_if_needed net {[ 7%nat := p ]} 7%nat in
  r.1.1 = 7%nat /\
  r.1.2 !! 7%nat =
  Some {| kind := Some "progressive"; format_spec := "22";
          merge_output_format := None; mp3_kbps := None;
          estimated_size := Some 123456; estimated_confident := true;
          probe_urls := ["https://cdn/v"]; quality_label := "720p" |}.
Proof.
  cbv zeta.
  match goal with |- context [_apply_probe_if_needed ?net ?h ?l] =>
    pose proof (probe_rewrites_plan_in_place net h l) as H
  end.
  specialize (H _ eq_refl eq_refl). cbv zeta in H.
  destruct H as (Hid & _ & Hwrite & _). split; [exact Hid|].
  refine (Hwrite _ _).
  - discriminate.
  - intros u [<-|[]]. vm_compute. eauto.
Defined.

(** C7, the claim as written, fails: the plan object given to the probing
    step is the one returned, and after a successful probe its own size
    and confidence fields hold the probed total and [True]. *)
Lemma probe_mutates_input_plan :
  let net : network := fun _ =>
    Some {| content_range := Some "bytes 0-0/123456"; content_length := Some "1" |} in
  let p := {| kind := Some "progressive"; format_spec := "22";
              merge_output_format := None; mp3_kbps := None;
              estimated_size := None; estimated_confident := false;
              probe_urls := ["https://cdn/v"]; quality_label := "720p" |} in
  let h : heap := {[ 7%nat := p ]} in
  let r := _apply_probe_if_needed net h 7%nat in
  r.1.1 = 7%nat /\
  (estimated_size <$> h !! 7%nat) = Some None /\
  (estimated_confident <$> h !! 7%nat) = Some false /\
  (estimated_size <$> r.1.2 !! 7%nat) = Some (Some 123456) /\
  (estimated_confident <$> r.1.2 !! 7%nat) = Some true.
Proof. vm_compute. auto 6. Qed.

(** ** Status reporter *)

Lemma Qlt_bool_true (a b : Q) : (a < b)%Q -> Py.Qlt_bool a b = true.
Proof.
  intros Hlt. unfold Py.Qlt_bool. apply negb_true_iff.
  destruct (Qle_bool b a) eqn:Hle; [|reflexivity].
  apply Qle_bool_iff in Hle. exfalso. exact (Qlt_not_le _ _ Hlt Hle).
Qed.

Lemma Qlt_bool_false (a b : Q) : (b <= a)%Q -> Py.Qlt_bool a b = false.
Proof.
  intros Hle. unfold Py.Qlt_bool. apply negb_false_iff. now apply Qle_bool_iff.
Qed.

Lemma outbox_bot_call (tg : platform) (c : bot_call) (st : bot_state) :
  outbox (_bot_call tg c st).1 = outbox st ++ [c].
Proof. reflexivity. Qed.




(** Two requests with different texts one second apart: the first is sent,
    the second is not; a forced request at the same time is sent. *)
Example _safe_edit_two_requests :
  let tg : platform := fun _ _ => Some 9 in
  let st1 := _safe_edit tg (inject_Z 10) 5 9 "10%" None false empty_state in
  let st2 := _safe_edit tg (inject_Z 11) 5 9 "20%" None false st1 in
  let st3 := _safe_edit tg (inject_Z 11) 5 9 "20%" None true st2 in
  outbox st1 = [edit_message_text 5 9 "10%" None] /\
  st2 = st1 /\
  outbox st3 = [edit_message_text 5 9 "10%" None; edit_message_text 5 9 "20%" None].
Proof. vm_compute. auto. Qed.

(** ** Cancel callback *)

Example split_on_cancel_token : split_on "|" "cnl|3f9a" = ["cnl"; "3f9a"].
Proof. reflexivity. Qed.

Example split_on_choice_token : split_on "|" "dl|audio|77ab" = ["dl"; "audio"; "77ab"].
Proof. reflexivity. Qed.

(** C10. A cancel callback that names an active job and comes from a user
    other than the one recorded for the job, and a cancel callback that
    names a job with no active entry, change nothing but the outbox, to
    which they add a single answer to the callback: every cancellation
    flag keeps its value and no status message is deleted. *)
Theorem cancel_rejected_leaves_job (tg : platform) (call : callback) (st : bot_state) :
  (forall (pre job_id : string) (info : job_info),
      split_on "|" (call_data call) = [pre; job_id] ->
      active_jobs st !! job_id = Some info ->
      call_from_user_id call <> ji_user_id info ->
      on_cancel tg call st =
      with_outbox
        (outbox st ++ [answer_callback_query (call_id call) "This is not your request."])
        st /\
      cancel_events (on_cancel tg call st) = cancel_events st) /\
  (forall pre job_id : string,
      split_on "|" (call_data call) = [pre; job_id] ->
      active_jobs st !! job_id = None ->
      on_cancel tg call st =
      with_outbox
        (outbox st ++ [answer_callback_query (call_id call) "Nothing to cancel."])
        st /\
      cancel_events (on_cancel tg call st) = cancel_events st).
Proof.
  split.
  - intros pre job_id info Hsplit Hjob Huser. unfold on_cancel.
    rewrite Hsplit, Hjob.
    destruct (call_from_user_id call =? ji_user_id info) eqn:Heq;
      [apply Z.eqb_eq in Heq; contradiction|].
    cbn [negb]. split; reflexivity.
  - intros pre job_id Hsplit Hjob. unfold on_cancel.
    rewrite Hsplit, Hjob. split; reflexivity.
Qed.

(** User 8 presses the cancel button of a job that belongs to user 7. *)
Lemma cancel_rejected_leaves_job_witness :
  let st :=
    with_active_jobs
      {[ "3f9a" := {| ji_user_id := 7; ji_chat_id := 7; ji_status_message_id := 41 |} ]}
      (with_cancel_events {[ "3f9a" := false ]} empty_state) in
  let call := {| call_id := "q1"; call_from_user_id := 8;
                 call_data := "cnl|3f9a"; call_message_id := 41 |} in
  let st' := on_cancel (fun _ _ => Some 0) call st in
  st' = with_outbox [answer_callback_query "q1" "This is not your request."] st /\
  cancel_events st' = cancel_events st.
Proof.
  cbv zeta.
  match goal with |- on_cancel ?tg ?call ?st = _ /\ _ =>
    refine (proj1 (cancel_rejected_leaves_job tg call st) "cnl" "3f9a" _ eq_refl eq_refl _)
  end.
  cbn. discriminate.
Defined.

(** The owner's callback does set the flag and delete the message. *)
Example on_cancel_owner :
  let st :=
    with_active_jobs
      {[ "3f9a" := {| ji_user_id := 7; ji_chat_id := 70; ji_status_message_id := 41 |} ]}
      (with_cancel_events {[ "3f9a" := false ]} empty_state) in
  let call := {| call_id := "q1"; call_from_user_id := 7;
                 call_data := "cnl|3f9a"; call_message_id := 41 |} in
  let st' := on_cancel (fun _ _ => Some 0) call st in
  _is_cancelled "3f9a" st' = true /\
  outbox st' = [delete_message 70 41; answer_callback_query "q1" "Cancelled."].
Proof. vm_compute. auto. Qed.

(** ** Pending choices *)

Lemma elem_of_expired_ids (now : Q) (pr : gmap string pending) (rid : string) :
  rid ∈ expired_ids now pr <->
  exists data, pr !! rid = Some data /\
               Py.Qlt_bool PENDING_TTL_SEC (now - created_at data) = true.
Proof.
  unfold expired_ids. rewrite list_elem_of_fmap. split.
  - intros ([rid' data] & -> & Hin). apply list_elem_of_filter in Hin as [Hold Hin].
    apply elem_of_map_to_list in Hin. eauto.
  - intros (data & Hin & Hold). exists (rid, data). split; [reflexivity|].
    apply list_elem_of_filter. split; [exact Hold|]. now apply elem_of_map_to_list.
Qed.

Lemma _cleanup_pending_removes (now : Q) (st : bot_state) (rid : string) (data : pending) :
  pending_requests st !! rid = Some data ->
  (PENDING_TTL_SEC < now - created_at data)%Q ->
  pending_requests (_cleanup_pending now st) !! rid = None.
Proof.
  intros Hin Hold. unfold _cleanup_pending. cbn.
  apply lookup_foldr_delete, elem_of_expired_ids.
  exists data. split; [exact Hin | now apply Qlt_bool_true].
Qed.

Lemma _cleanup_pending_keeps (now : Q) (st : bot_state) (rid : string) (data : pending) :
  pending_requests st !! rid = Some data ->
  ~ (PENDING_TTL_SEC < now - created_at data)%Q ->
  pending_requests (_cleanup_pending now st) !! rid = Some data.
Proof.
  intros Hin Hyoung. unfold _cleanup_pending. cbn.
  rewrite lookup_foldr_delete_not_elem_of; [exact Hin|].
  rewrite elem_of_expired_ids. intros (data' & Hin' & Hold).
  assert (data' = data) as -> by congruence.
  apply Hyoung. unfold Py.Qlt_bool in Hold. apply negb_true_iff in Hold.
  apply Qnot_le_lt. intros Hle. apply Qle_bool_iff in Hle. congruence.
Qed.

Lemma on_download_choice_absent (tg : platform) (now : Q) (new_job_id : string)
  (call : callback) (st : bot_state) (pre choice rid : string) :
  split_on "|" (call_data call) = [pre; choice; rid] ->
  pending_requests st !! rid = None ->
  on_download_choice tg now new_job_id call st =
  with_outbox
    (outbox st ++
     [answer_callback_query (call_id call) "Request expired. Send the link again."])
    st.
Proof.
  intros Hsplit Habsent. unfold on_download_choice. now rewrite Hsplit, Habsent.
Qed.

(** C5 (as amended).  A selection callback against an id that has no entry
    in the pending store gets the expired answer and changes nothing else:
    no job is enqueued and no plan is consumed.  The sweep made at the
    start of each new request removes every entry whose age exceeds the
    time-to-live and keeps the others; so once a sweep has run, a
    selection against the id of an entry that was over age gets the
    expired answer. *)
Theorem pending_expiry_by_sweep (tg : platform) (st : bot_state) :
  (forall (now : Q) (new_job_id : string) (call : callback) (pre choice rid : string),
      split_on "|" (call_data call) = [pre; choice; rid] ->
      pending_requests st !! rid = None ->
      on_download_choice tg now new_job_id call st =
      with_outbox
        (outbox st ++
         [answer_callback_query (call_id call) "Request expired. Send the link again."])
        st) /\
  (forall (sweep : Q) (rid : string) (data : pending),
      pending_requests st !! rid = Some data ->
      ((PENDING_TTL_SEC < sweep - created_at data)%Q ->
       pending_requests (_cleanup_pending sweep st) !! rid = None) /\
      (~ (PENDING_TTL_SEC < sweep - created_at data)%Q ->
       pending_requests (_cleanup_pending sweep st) !! rid = Some data)) /\
  (forall (sweep now : Q) (new_job_id : string) (call : callback)
          (pre choice rid : string) (data : pending),
      split_on "|" (call_data call) = [pre; choice; rid] ->
      pending_requests st !! rid = Some data ->
      (PENDING_TTL_SEC < sweep - created_at data)%Q ->
      let swept := _cleanup_pending sweep st in
      on_download_choice tg now new_job_id call swept =
      with_outbox
        (outbox swept ++
         [answer_callback_query (call_id call) "Request expired. Send the link again."])
        swept).
Proof.
  split; [|split].
  - intros. now apply on_download_choice_absent with (pre := pre) (choice := choice) (rid := rid).
  - intros sweep rid data Hin. split.
    + now apply _cleanup_pending_removes.
    + now apply _cleanup_pending_keeps.
  - intros sweep now new_job_id call pre choice rid data Hsplit Hin Hold swept.
    apply on_download_choice_absent with (pre := pre) (choice := choice) (rid := rid);
      [exact Hsplit|].
    subst swept. now apply _cleanup_pending_removes with (data := data).
Qed.

(** An entry created at time 0, a sweep at time 1000, then a selection. *)
Lemma pending_expiry_by_sweep_witness :
  let entry :=
    {| created_at := inject_Z 0; pr_user_id := 7; pr_chat_id := 7;
       pr_reply_to_message_id := 40; pr_url := "https://v/1"; pr_title := "Clip";
       video_plan := None; audio_plan := Some (audio_plan_of 192 14400000) |} in
  let st := with_pending {[ "77ab" := entry ]} empty_state in
  let call := {| call_id := "q2"; call_from_user_id := 7;
                 call_data := "dl|audio|77ab"; call_message_id := 41 |} in
  let swept := _cleanup_pending (inject_Z 1000) st in
  on_download_choice (fun _ _ => Some 0) (inject_Z 1001) "3f9a" call swept =
  with_outbox
    (outbox swept ++ [answer_callback_query "q2" "Request expired. Send the link again."])
    swept.
Proof.
  cbv zeta.
  match goal with |- on_download_choice ?tg ?now ?jid ?call (_cleanup_pending ?sweep ?st) = _ =>
    refine (proj2 (proj2 (pending_expiry_by_sweep tg st))
              sweep now jid call "dl" "audio" "77ab" _ eq_refl eq_refl _)
  end.
  reflexivity.
Defined.

(** C5, the claim as written, fails: [on_download_choice] looks the id up
    and never reads the age of the entry.  An entry created at time 0 and
    selected at time 100,000 with no sweep in between, far beyond the
    600 s of the time-to-live, is consumed and a job is enqueued for it. *)
Lemma overage_entry_is_still_consumed :
  let entry :=
    {| created_at := inject_Z 0; pr_user_id := 7; pr_chat_id := 7;
       pr_reply_to_message_id := 40; pr_url := "https://v/1"; pr_title := "Clip";
       video_plan := None; audio_plan := Some (audio_plan_of 192 14400000) |} in
  let st := with_pending {[ "77ab" := entry ]} empty_state in
  let call := {| call_id := "q2"; call_from_user_id := 7;
                 call_data := "dl|audio|77ab"; call_message_id := 41 |} in
  let now := inject_Z 100000 in
  let st' := on_download_choice (fun _ _ => Some 0) now "3f9a" call st in
  (PENDING_TTL_SEC < now - created_at entry)%Q /\
  jobs_q st' =
  [ {| job_id := "3f9a"; j_chat_id := 7; j_reply_to_message_id := 40;
       j_status_message_id := 41; j_url := "https://v/1"; j_title := "Clip";
       mode := "audio"; j_plan := audio_plan_of 192 14400000 |} ] /\
  pending_requests st' !! "77ab" = None /\
  outbox st' !! 0%nat = Some (answer_callback_query "q2" "OK").
Proof. vm_compute. repeat split. Qed.

(** ** Decision gate *)

Section Gate.

Variable MAX_SEND_BYTES : Z.
Variable tg : platform.

Lemma video_ok_proven (p : plan) :
  video_ok MAX_SEND_BYTES p = true <-> proven_to_fit MAX_SEND_BYTES p.
Proof.
  unfold video_ok, video_conf, proven_to_fit. split.
  - intros H. apply andb_true_iff in H as [H1 H2].
    apply andb_true_iff in H1 as [Hc Hpos].
    destruct (estimated_size p) as [s|]; [|discriminate].
    apply Z.ltb_lt in Hpos. apply Z.leb_le in H2. eauto.
  - intros (Hc & s & Hs & Hpos & Hle). rewrite Hc, Hs. cbn.
    apply andb_true_iff. split; [now apply Z.ltb_lt | now apply Z.leb_le].
Qed.

Lemma decision_gate_accept (now : Q) (request_id : string) (msg : message)
  (url title : string) (vp : plan) (ap : option plan) (reason : option string)
  (st : bot_state) :
  video_ok MAX_SEND_BYTES vp = true ->
  decision_gate MAX_SEND_BYTES tg now request_id msg url title vp ap reason st =
  with_outbox (outbox st ++ [accept_call MAX_SEND_BYTES request_id msg title vp ap])
    (with_pending
       (<[request_id := pending_entry now msg url title (Some vp) ap]>
          (pending_requests st)) st).
Proof.
  intros Hok. unfold decision_gate. rewrite Hok. cbn [negb].
  unfold video_ok in Hok. apply andb_true_iff in Hok as [Hconf Hle].
  rewrite Hconf. unfold accept_call.
  destruct (estimated_size vp) as [s|]; [|discriminate].
  apply Z.leb_le in Hle.
  destruct (MAX_SEND_BYTES <? s) eqn:Hgt; [apply Z.ltb_lt in Hgt; lia|].
  reflexivity.
Qed.

Lemma decision_gate_refuse (now : Q) (request_id : string) (msg : message)
  (url title : string) (vp : plan) (ap : option plan) (reason : option string)
  (st : bot_state) :
  video_ok MAX_SEND_BYTES vp = false ->
  exists text : string,
    decision_gate MAX_SEND_BYTES tg now request_id msg url title vp ap reason st =
    refuse_video tg now request_id msg url title text ap reason st.
Proof.
  intros Hok. unfold decision_gate. rewrite Hok. cbn [negb].
  match goal with |- context [if ?c then _ else _] => destruct c end; eauto.
Qed.

Lemma refuse_video_audio (now : Q) (request_id : string) (msg : message)
  (url title text : string) (a : plan) (reason : option string) (st : bot_state) :
  refuse_video tg now request_id msg url title text (Some a) reason st =
  with_outbox
    (outbox st ++
     [send_message (msg_chat_id msg)
        (text +:+ nl +:+ "Audio option available: " +:+ quality_label a)
        (Some (msg_message_id msg)) (Some [[audio_button request_id]])])
    (with_pending
       (<[request_id := pending_entry now msg url title None (Some a)]>
          (pending_requests st)) st).
Proof. reflexivity. Qed.

Lemma refuse_video_nothing (now : Q) (request_id : string) (msg : message)
  (url title text : string) (reason : option string) (st : bot_state) :
  exists text' : string,
    refuse_video tg now request_id msg url title text None reason st =
    with_outbox
      (outbox st ++
       [send_message (msg_chat_id msg) text' (Some (msg_message_id msg)) None])
      st.
Proof. unfold refuse_video. eexists. reflexivity. Qed.

End Gate.

(** The tokens of the buttons sent by the gate: video and document when
    the video plan passes, audio when an audio plan exists. *)
Lemma decision_gate_tokens (MAX_SEND_BYTES : Z) (tg : platform) (now : Q)
  (request_id : string) (msg : message) (url title : string) (vp : plan)
  (ap : option plan) (reason : option string) (st : bot_state) :
  callback_data <$>
    last_buttons
      (decision_gate MAX_SEND_BYTES tg now request_id msg url title vp ap reason st)
  = (if video_ok MAX_SEND_BYTES vp
     then [choice_token "video" request_id; choice_token "doc" request_id]
     else [])
    ++ match ap with
       | Some _ => [choice_token "audio" request_id]
       | None => []
       end.
Proof.
  destruct (video_ok MAX_SEND_BYTES vp) eqn:Hok.
  - rewrite (decision_gate_accept MAX_SEND_BYTES tg _ _ _ _ _ _ _ _ _ Hok).
    unfold last_buttons. cbn [outbox with_outbox]. rewrite last_snoc.
    destruct ap; reflexivity.
  - destruct (decision_gate_refuse MAX_SEND_BYTES tg now request_id msg url title
                vp ap reason st Hok) as [text ->].
    destruct ap as [a|].
    + rewrite refuse_video_audio. unfold last_buttons.
      cbn [outbox with_outbox]. rewrite last_snoc. reflexivity.
    + destruct (refuse_video_nothing tg now request_id msg url title text reason st)
        as [text' ->].
      unfold last_buttons. cbn [outbox with_outbox]. rewrite last_snoc. reflexivity.
Qed.

(** The entry the gate leaves under a fresh id. *)
Lemma decision_gate_entry (MAX_SEND_BYTES : Z) (tg : platform) (now : Q)
  (request_id : string) (msg : message) (url title : string) (vp : plan)
  (ap : option plan) (reason : option string) (st : bot_state) :
  pending_requests st !! request_id = None ->
  pending_requests
    (decision_gate MAX_SEND_BYTES tg now request_id msg url title vp ap reason st)
  !! request_id
  = if video_ok MAX_SEND_BYTES vp
    then Some (pending_entry now msg url title (Some vp) ap)
    else match ap with
         | Some a => Some (pending_entry now msg url title None (Some a))
         | None => None
         end.
Proof.
  intros Hfresh. destruct (video_ok MAX_SEND_BYTES vp) eqn:Hok.
  - rewrite (decision_gate_accept MAX_SEND_BYTES tg _ _ _ _ _ _ _ _ _ Hok).
    cbn. apply lookup_insert_eq.
  - destruct (decision_gate_refuse MAX_SEND_BYTES tg now request_id msg url title
                vp ap reason st Hok) as [text ->].
    destruct ap as [a|].
    + rewrite refuse_video_audio. cbn. apply lookup_insert_eq.
    + destruct (refuse_video_nothing tg now request_id msg url title text reason st)
        as [text' ->].
      exact Hfresh.
Qed.

Lemma jobs_q_safe_edit (tg : platform) (now : Q) (chat_id message_id : Z)
  (text : string) (markup : option keyboard) (force : bool) (st : bot_state) :
  jobs_q (_safe_edit tg now chat_id message_id text markup force st) = jobs_q st.
Proof.
  unfold _safe_edit.
  destruct (negb force && edit_suppressed now (edit_key chat_id message_id) text st);
    [reflexivity|].
  unfold _bot_call. destruct (tg (length (outbox st)) _); reflexivity.
Qed.

Lemma snoc_not_self {X : Type} (l : list X) (x : X) : l ++ [x] <> l.
Proof.
  intros H. apply (f_equal (@length X)) in H. rewrite length_app in H. cbn in H. lia.
Qed.

(** A job is enqueued only from a pending entry, with the plan the entry
    holds for the mode. *)
Lemma on_download_choice_enqueues (tg : platform) (now : Q) (new_job_id : string)
  (call : callback) (st : bot_state) (j : job) :
  jobs_q (on_download_choice tg now new_job_id call st) = jobs_q st ++ [j] ->
  exists (pre choice rid : string) (req : pending),
    split_on "|" (call_data call) = [pre; choice; rid] /\
    pending_requests st !! rid = Some req /\
    (choose_plan choice req).1.1 = Some (j_plan j) /\
    mode j = (choose_plan choice req).1.2.
Proof.
  unfold on_download_choice. intros H.
  destruct (split_on "|" (call_data call)) as [|pre [|choice [|rid [|? ?]]]];
    try (symmetry in H; now apply snoc_not_self in H).
  destruct (pending_requests st !! rid) as [req|] eqn:Hreq;
    [|symmetry in H; now apply snoc_not_self in H].
  destruct (negb (call_from_user_id call =? pr_user_id req));
    [symmetry in H; now apply snoc_not_self in H|].
  destruct (choose_plan choice req) as [[[p|] job_mode] answer] eqn:Hchoose;
    [|symmetry in H; now apply snoc_not_self in H].
  cbn [jobs_q with_jobs_q] in H. rewrite jobs_q_safe_edit in H. cbn [jobs_q] in H.
  apply app_inj_tail in H as [_ <-].
  exists pre, choice, rid, req. rewrite Hchoose. auto.
Qed.

Lemma choose_plan_video (choice : string) (req : pending) :
  (choose_plan choice req).1.2 <> "audio" ->
  (choose_plan choice req).1.1 = video_plan req.
Proof.
  unfold choose_plan.
  destruct (String.eqb choice "audio"); [cbn; congruence|].
  destruct (String.eqb choice "doc"); reflexivity.
Qed.

Lemma choice_tokens_distinct (request_id : string) :
  choice_token "video" request_id <> choice_token "doc" request_id /\
  choice_token "video" request_id <> choice_token "audio" request_id /\
  choice_token "doc" request_id <> choice_token "audio" request_id.
Proof. unfold choice_token. cbn. repeat split; discriminate. Qed.

(** C1. For every video plan and optional audio plan that reach the gate:
    video is offered exactly when the video plan is proven to fit the
    ceiling, and so is document; audio is offered exactly when an audio
    plan exists, so that when video and document are refused audio is
    offered alone or nothing is.  The entry stored under the fresh request
    id holds the video plan only when it is proven to fit, and a job that
    a selection enqueues from that entry in a mode other than audio carries
    that proven plan. *)
Theorem decision_gate_offers (MAX_SEND_BYTES : Z) (tg : platform) (now : Q)
  (request_id : string) (msg : message) (url title : string) (vp : plan)
  (ap : option plan) (reason : option string) (st : bot_state) :
  let st' :=
    decision_gate MAX_SEND_BYTES tg now request_id msg url title vp ap reason st in
  (offered "video" request_id st' <-> proven_to_fit MAX_SEND_BYTES vp) /\
  (offered "doc" request_id st' <-> proven_to_fit MAX_SEND_BYTES vp) /\
  (offered "audio" request_id st' <-> is_Some ap) /\
  (pending_requests st !! request_id = None ->
   (forall e : pending,
       pending_requests st' !! request_id = Some e ->
       audio_plan e = ap /\
       (video_plan e = None \/
        video_plan e = Some vp /\ proven_to_fit MAX_SEND_BYTES vp)) /\
   (forall (tg' : platform) (now' : Q) (new_job_id : string) (call : callback)
           (pre choice : string) (j : job),
       split_on "|" (call_data call) = [pre; choice; request_id] ->
       jobs_q (on_download_choice tg' now' new_job_id call st') = jobs_q st' ++ [j] ->
       mode j <> "audio" ->
       j_plan j = vp /\ proven_to_fit MAX_SEND_BYTES vp)).
Proof.
  cbv zeta.
  pose proof (decision_gate_tokens MAX_SEND_BYTES tg now request_id msg url title
                vp ap reason st) as Htok.
  pose proof (video_ok_proven MAX_SEND_BYTES vp) as Hok.
  destruct (choice_tokens_distinct request_id) as (Hvd & Hva & Hda).
  assert (Hentry :
    pending_requests st !! request_id = None ->
    forall e : pending,
      pending_requests
        (decision_gate MAX_SEND_BYTES tg now request_id msg url title vp ap reason st)
      !! request_id = Some e ->
      audio_plan e = ap /\
      (video_plan e = None \/ video_plan e = Some vp /\ proven_to_fit MAX_SEND_BYTES vp)).
  { intros Hfresh e He.
    rewrite (decision_gate_entry MAX_SEND_BYTES tg now request_id msg url title
               vp ap reason st Hfresh) in He.
    destruct (video_ok MAX_SEND_BYTES vp).
    - injection He as <-. cbn. split; [reflexivity|]. right. split; [reflexivity|].
      now apply Hok.
    - destruct ap as [a|]; [|discriminate]. injection He as <-. cbn. auto. }
  unfold offered. rewrite Htok.
  split; [|split; [|split; [|split]]].
  - rewrite <- Hok. destruct (video_ok MAX_SEND_BYTES vp), ap; cbn; split;
      intros H; auto; try discriminate; intuition congruence.
  - rewrite <- Hok. destruct (video_ok MAX_SEND_BYTES vp), ap; cbn; split;
      intros H; auto; try discriminate; intuition congruence.
  - destruct (video_ok MAX_SEND_BYTES vp), ap; cbn; split;
      intros H; eauto; try (destruct H as [? [=]]); intuition congruence.
  - exact (Hentry H).
  - intros tg' now' new_job_id call pre choice j Hsplit Hq Hmode.
    apply on_download_choice_enqueues in Hq
      as (pre' & choice' & rid' & req & Hsplit' & Hreq & Hplan & Hm).
    rewrite Hsplit in Hsplit'. injection Hsplit' as <- <- <-.
    rewrite Hm in Hmode. rewrite (choose_plan_video choice req Hmode) in Hplan.
    destruct (Hentry H req Hreq) as [_ [Hnone|[Hsome Hfit]]]; [congruence|].
    split; [congruence | exact Hfit].
Qed.

(** The three outcomes of the gate on concrete plans: a proven plan, a
    plan over the ceiling with an audio plan, an unconfident plan with no
    audio plan. *)
Example decision_gate_three_cases :
  let tg : platform := fun _ _ => Some 0 in
  let msg := {| msg_chat_id := 7; msg_from_user_id := 7; msg_message_id := 40 |} in
  let vp size conf :=
    {| kind := Some "progressive"; format_spec := "22"; merge_output_format := None;
       mp3_kbps := None; estimated_size := size; estimated_confident := conf;
       probe_urls := []; quality_label := "720p" |} in
  let ap := audio_plan_of 192 14400000 in
  let gate p a r :=
    decision_gate 50000000 tg (inject_Z 5) "77ab" msg "https://v/1" "Clip" p a r
      empty_state in
  callback_data <$> last_buttons (gate (vp (Some 30000000) true) (Some ap) None)
  = ["dl|video|77ab"; "dl|doc|77ab"; "dl|audio|77ab"] /\
  callback_data <$> last_buttons (gate (vp (Some 60000000) true) (Some ap) None)
  = ["dl|audio|77ab"] /\
  callback_data <$> last_buttons (gate (vp (Some 30000000) false) None (Some "x"))
  = [] /\
  (video_plan <$> pending_requests (gate (vp (Some 60000000) true) (Some ap) None)
                  !! "77ab") = Some None.
Proof. vm_compute. auto. Qed.

(** The theorem on a plan of 60,000,000 confident bytes under a ceiling of
    50,000,000, with an audio plan: video is not offered, audio is. *)
Lemma decision_gate_offers_witness :
  let tg : platform := fun _ _ => Some 0 in
  let msg := {| msg_chat_id := 7; msg_from_user_id := 7; msg_message_id := 40 |} in
  let vp :=
    {| kind := Some "progressive"; format_spec := "22"; merge_output_format := None;
       mp3_kbps := None; estimated_size := Some 60000000; estimated_confident := true;
       probe_urls := []; quality_label := "720p" |} in
  let ap := audio_plan_of 192 14400000 in
  let st' :=
    decision_gate 50000000 tg (inject_Z 5) "77ab" msg "https://v/1" "Clip"
      vp (Some ap) None empty_state in
  ~ offered "video" "77ab" st' /\ ~ offered "doc" "77ab" st' /\ offered "audio" "77ab" st'.
Proof.
  cbv zeta.
  match goal with
  | |- context [decision_gate ?M ?tg ?now ?rid ?msg ?url ?title ?vp ?ap ?r ?st] =>
      destruct (decision_gate_offers M tg now rid msg url title vp ap r st)
        as (Hv & Hd & Ha & _)
  end.
  assert (Hno : ~ proven_to_fit 50000000
                    {| kind := Some "progressive"; format_spec := "22";
                       merge_output_format := None; mp3_kbps := None;
                       estimated_size := Some 60000000; estimated_confident := true;
                       probe_urls := []; quality_label := "720p" |}).
  { intros (_ & s & Hs & _ & Hle). cbn in Hs. injection Hs as <-. lia. }
  split; [|split].
  - intros H. apply Hno, Hv, H.
  - intros H. apply Hno, Hd, H.
  - apply Ha. eauto.
Defined.

(** ** Worker *)

(** The removal loop only removes files. *)
Lemma remove_listed_incl (raises : string -> bool) (prefix : string)
  (names : list string) (folder : list file) (f : file) :
  In f (remove_listed raises prefix names folder) -> In f folder.
Proof.
  revert folder. induction names as [|fn names IH]; intros folder; cbn [remove_listed];
    [auto|].
  destruct (Py.startswith prefix fn && file_exists fn folder); [|apply IH].
  destruct (raises fn); [auto|].
  intros Hf. apply IH in Hf. unfold remove_file in Hf. now apply filter_In in Hf as [Hf _].
Qed.

(** When no removal of a listed name with the prefix raises, the loop
    removes exactly the files that have the prefix and a listed name. *)
Lemma remove_listed_filter (raises : string -> bool) (prefix : string)
  (names : list string) (folder : list file) :
  (forall fn, In fn names -> Py.startswith prefix fn = true -> raises fn = false) ->
  remove_listed raises prefix names folder
  = List.filter (fun f => negb (Py.startswith prefix (file_name f) &&
                                existsb (String.eqb (file_name f)) names)) folder.
Proof.
  revert folder. induction names as [|fn names IH]; intros folder Hok; cbn [remove_listed].
  - cbn [existsb]. induction folder as [|f folder IHf]; [reflexivity|].
    cbn [List.filter]. rewrite andb_false_r. cbn [negb]. now rewrite <- IHf.
  - assert (Hok' : forall fn', In fn' names -> Py.startswith prefix fn' = true ->
                               raises fn' = false)
      by (intros fn' Hin; apply Hok; now right).
    destruct (Py.startswith prefix fn && file_exists fn folder) eqn:Hfn.
    + apply andb_true_iff in Hfn as [Hpre _].
      rewrite (Hok fn (or_introl eq_refl) Hpre), (IH _ Hok'). unfold remove_file.
      clear IH Hok Hok'. induction folder as [|f folder IHf]; [reflexivity|].
      cbn [List.filter existsb]. destruct (String.eqb_spec (file_name f) fn) as [Heq|Hne].
      * rewrite Heq, Hpre. cbn [negb andb orb]. exact IHf.
      * cbn [negb orb List.filter]. now rewrite IHf.
    + rewrite (IH _ Hok'). clear IH Hok Hok'.
      induction folder as [|f folder IHf]; [reflexivity|].
      cbn [file_exists existsb] in Hfn. cbn [List.filter existsb].
      destruct (String.eqb_spec (file_name f) fn) as [Heq|Hne].
      * rewrite Heq in *. cbn [orb] in Hfn. rewrite andb_true_r in Hfn.
        rewrite Hfn. cbn [andb negb]. f_equal. apply IHf.
        rewrite Hfn. reflexivity.
      * cbn [orb] in *. destruct (negb _); [f_equal|]; apply IHf; exact Hfn.
Qed.

Section Worker.

Variable MAX_SEND_BYTES : Z.
Variable tg : platform.
Variable fs : fs_faults.
Variable env : job_env.
Variable j : job.




(** What the [finally] clause leaves: nothing more is sent, no file is
    added, the two registry entries of the job are gone, and, when the
    listing and the removals of the files with the prefix succeed, no file
    whose name starts with [tmp_id] remains. *)
Lemma finally_clause_cleans (file_path : option string) (st : bot_state) :
  let st' := finally_clause fs env j file_path st in
  outbox st' = outbox st /\
  (forall f, In f (output_folder st') -> In f (output_folder st)) /\
  cancel_events st' !! job_id j = None /\
  active_jobs st' !! job_id j = None /\
  (listdir_raises fs = false ->
   (forall f, In f (output_folder st) ->
              Py.startswith (tmp_id env) (file_name f) = true ->
              remove_listed_raises fs (file_name f) = false) ->
   forall f, In f (output_folder st') ->
             Py.startswith (tmp_id env) (file_name f) = false).
Proof.
  cbv zeta. unfold finally_clause.
  cbn [outbox output_folder cancel_events active_jobs
       with_output_folder with_cancel_events with_active_jobs].
  set (folder1 :=
         match file_path with
         | Some fp =>
             if Py.str_truthy (Some fp) && file_exists fp (output_folder st)
             then if remove_found_raises fs then output_folder st
                  else remove_file fp (output_folder st)
             else output_folder st
         | None => output_folder st
         end).
  assert (H1 : forall f, In f folder1 -> In f (output_folder st)).
  { intros f. subst folder1. destruct file_path as [fp|]; [|auto].
    destruct (Py.str_truthy (Some fp) && file_exists fp (output_folder st)); [|auto].
    destruct (remove_found_raises fs); [auto|].
    unfold remove_file. intros Hf. now apply filter_In in Hf as [Hf _]. }
  split; [reflexivity|]. split; [|split; [|split]].
  - intros f Hf. apply H1. destruct (listdir_raises fs); [exact Hf|].
    now apply remove_listed_incl in Hf.
  - apply lookup_delete_eq.
  - apply lookup_delete_eq.
  - intros -> Hok f Hf. rewrite remove_listed_filter in Hf.
    + apply filter_In in Hf as [Hin Hf]. apply negb_true_iff, andb_false_iff in Hf.
      destruct Hf as [Hf|Hf]; [exact Hf|]. exfalso.
      assert (Hex : existsb (String.eqb (file_name f)) (map file_name folder1) = true).
      { apply existsb_exists. exists (file_name f). split; [now apply in_map|].
        apply String.eqb_refl. }
      congruence.
    + intros fn Hfn Hpre. apply in_map_iff in Hfn as (g & <- & Hg).
      apply Hok; [now apply H1 | exact Hpre].
Qed.

End Worker.




(** The same job when its owner presses the cancel button before the first
    progress signal: the hook raises, the flag is set, and the status
    message is deleted instead of being rewritten. *)
Example _download_and_send_cancelled :
  let tg : platform := fun _ _ => Some 41 in
  let j :=
    {| job_id := "3f9a"; j_chat_id := 70; j_reply_to_message_id := 40;
       j_status_message_id := 41; j_url := "https://v/1"; j_title := "Clip";
       mode := "video"; j_plan := unknown_plan |} in
  let d :=
    {| status := Some "downloading"; filename := Some "out/1700000000000.mp4";
       tmpfilename := None; downloaded_bytes := Some (Py.Int 1000);
       total_bytes := Some (Py.Int 60000000); fragment_count := None;
       fragment_index := None; total_bytes_estimate := None |} in
  let cancel := {| call_id := "q1"; call_from_user_id := 7;
                   call_data := "cnl|3f9a"; call_message_id := 41 |} in
  let env :=
    {| tmp_id := "1700000000000"; now_start := inject_Z 1;
       download :=
         {| dl_events := [ {| he_calls := [cancel]; he_now := inject_Z 2; he_d := d |} ];
            dl_files := [ {| file_name := "1700000000000.mp4.part";
                             file_size := 1000; file_mtime := inject_Z 2 |} ];
            dl_result := download_returns None |};
       calls_after_download := []; now_upload := inject_Z 3;
       upload := {| up_chunks := []; up_result := post_json true None |};
       now_sent := inject_Z 4; calls_before_handler := []; now_handler := inject_Z 5 |} in
  let st :=
    with_active_jobs
      {[ "3f9a" := {| ji_user_id := 7; ji_chat_id := 70; ji_status_message_id := 41 |} ]}
      (with_cancel_events {[ "3f9a" := false ]} empty_state) in
  let final := (_download_and_send 50000000 tg no_faults env j st).1 in
  (try_body 50000000 tg env j st).2 = Raised "Cancelled by user" /\
  (exists first,
      outbox final =
      [ first; delete_message 70 41; answer_callback_query "q1" "Cancelled.";
        delete_message 70 41 ]) /\
  output_folder final = [] /\
  cancel_events final = ∅ /\
  active_jobs final = ∅.
Proof. vm_compute. split; [reflexivity|]. split; [eexists; reflexivity|]. auto. Qed.

(** A job that runs to the end: the download returns, the file is found,
    the upload is acknowledged, the status message is deleted and the
    file is removed. *)
Example _download_and_send_delivered :
  let tg : platform := fun _ _ => Some 41 in
  let j :=
    {| job_id := "3f9a"; j_chat_id := 70; j_reply_to_message_id := 40;
       j_status_message_id := 41; j_url := "https://v/1"; j_title := "Clip";
       mode := "audio"; j_plan := audio_plan_of 192 14400000 |} in
  let env :=
    {| tmp_id := "1700000000000"; now_start := inject_Z 1;
       download :=
         {| dl_events := [];
            dl_files := [ {| file_name := "1700000000000.mp3";
                             file_size := 14000000; file_mtime := inject_Z 2 |} ];
            dl_result := download_returns None |};
       calls_after_download := []; now_upload := inject_Z 3;
       upload := {| up_chunks := []; up_result := post_json true None |};
       now_sent := inject_Z 4; calls_before_handler := []; now_handler := inject_Z 5 |} in
  let st :=
    with_output_folder
      [ {| file_name := "1699999999999.mp4"; file_size := 5; file_mtime := inject_Z 0 |} ]
      (with_cancel_events {[ "3f9a" := false ]} empty_state) in
  let final := (_download_and_send 50000000 tg no_faults env j st).1 in
  (try_body 50000000 tg env j st).2 = Normal /\
  last (outbox final) = Some (delete_message 70 41) /\
  file_name <$> output_folder final = ["1699999999999.mp4"] /\
  cancel_events final = ∅.
Proof. vm_compute. auto. Qed.

(** Two later stages that raise: the file is not found after the download,
    and the platform rejects the upload.  Nobody has cancelled, so the
    last call rewrites the status message with the reason. *)
Example _download_and_send_errors :
  let tg : platform := fun _ _ => Some 41 in
  let j :=
    {| job_id := "3f9a"; j_chat_id := 70; j_reply_to_message_id := 40;
       j_status_message_id := 41; j_url := "https://v/1"; j_title := "Clip";
       mode := "doc"; j_plan := unknown_plan |} in
  let env files post :=
    {| tmp_id := "1700000000000"; now_start := inject_Z 1;
       download :=
         {| dl_events := []; dl_files := files; dl_result := download_returns None |};
       calls_after_download := []; now_upload := inject_Z 3;
       upload := {| up_chunks := []; up_result := post |};
       now_sent := inject_Z 4; calls_before_handler := []; now_handler := inject_Z 5 |} in
  let st := with_cancel_events {[ "3f9a" := false ]} empty_state in
  let produced :=
    [ {| file_name := "1700000000000.mp4"; file_size := 3000; file_mtime := inject_Z 2 |} ] in
  last (outbox (_download_and_send 50000000 tg no_faults
                  (env [] (post_json true None)) j st).1)
  = Some (edit_message_text 70 41
            ("Clip" +:+ nl +:+ nl +:+ "Status: ❌ Downloaded file not found") None) /\
  last (outbox (_download_and_send 50000000 tg no_faults
                  (env produced (post_json false (Some "Bad Request"))) j st).1)
  = Some (edit_message_text 70 41
            ("Clip" +:+ nl +:+ nl +:+ "Status: ❌ Telegram API error: Bad Request") None) /\
  output_folder (_download_and_send 50000000 tg no_faults
                   (env produced (post_json false (Some "Bad Request"))) j st).1 = [].
Proof. vm_compute. auto. Qed.

(** * Further properties of the code *)

(** ** Size of a format *)

Lemma positive_int_spec (x : option Py.num) (z : Z) :
  positive_int x = Some z <-> x = Some (Py.Int z) /\ 0 < z.
Proof.
  unfold positive_int, Py.as_int. split.
  - destruct x as [[i|q]|]; try discriminate.
    destruct (0 <? i) eqn:Hpos; [|discriminate].
    intros [= <-]. apply Z.ltb_lt in Hpos. auto.
  - intros [-> Hpos]. apply Z.ltb_lt in Hpos. now rewrite Hpos.
Qed.

(** The cases of [_format_size_bytes], read off its result. *)
Lemma _format_size_bytes_cases (fmt : format) (dur : option Z) :
  let '(size, conf) := _format_size_bytes fmt dur in
  (forall s, size = Some s -> 0 < s) /\
  (conf = true ->
   exists s, size = Some s /\
             (positive_int (filesize fmt) = Some s \/
              positive_int (filesize fmt) = None /\
              positive_int (filesize_approx fmt) = Some s)) /\
  (conf = false ->
   positive_int (filesize fmt) = None /\ positive_int (filesize_approx fmt) = None).
Proof.
  unfold _format_size_bytes.
  destruct (positive_int (filesize fmt)) as [fs|] eqn:Hfs.
  - apply positive_int_spec in Hfs as [_ Hpos].
    split; [intros s [= <-]; exact Hpos|]. split; [eauto | discriminate].
  - destruct (positive_int (filesize_approx fmt)) as [fsa|] eqn:Hfsa.
    + apply positive_int_spec in Hfsa as [_ Hpos].
      split; [intros s [= <-]; exact Hpos|]. split; [eauto | discriminate].
    + assert (Hnone : (forall s : Z, @None Z = Some s -> 0 < s) /\
                      (false = true ->
                       exists s : Z, @None Z = Some s /\
                         (@None Z = Some s \/ @None Z = None /\ @None Z = Some s)) /\
                      (false = false -> @None Z = None /\ @None Z = None)).
      { split; [discriminate|]. split; [discriminate | auto]. }
      destruct (dur_truthy dur) as [d|]; [|exact Hnone].
      destruct (tbr fmt) as [t|]; [|exact Hnone].
      destruct (Py.positive t); [|exact Hnone].
      match goal with |- context [0 <? ?e] => destruct (0 <? e) eqn:Hpos end;
        [|exact Hnone].
      apply Z.ltb_lt in Hpos.
      split; [intros s [= <-]; exact Hpos|]. split; [discriminate | auto].
Qed.

(** X1. [_format_size_bytes] never returns a size that is not positive; it
    is confident exactly when [filesize], or failing that
    [filesize_approx], is a positive integer, and the size is then that
    integer; a size derived from the bitrate and the duration is never
    confident. *)
Theorem format_size_confidence (fmt : format) (dur : option Z) :
  let r := _format_size_bytes fmt dur in
  (forall s, r.1 = Some s -> 0 < s) /\
  (r.2 = true <->
   (exists s, filesize fmt = Some (Py.Int s) /\ 0 < s) \/
   (exists s, filesize_approx fmt = Some (Py.Int s) /\ 0 < s)) /\
  (forall s, filesize fmt = Some (Py.Int s) -> 0 < s -> r = (Some s, true)) /\
  (forall s, positive_int (filesize fmt) = None ->
             filesize_approx fmt = Some (Py.Int s) -> 0 < s -> r = (Some s, true)).
Proof.
  cbv zeta. pose proof (_format_size_bytes_cases fmt dur) as H.
  destruct (_format_size_bytes fmt dur) as [size conf] eqn:Hr.
  destruct H as (Hpos & Htrue & Hfalse). cbn [fst snd].
  split; [exact Hpos|]. split; [split|split].
  - intros Hc. destruct (Htrue Hc) as (s & _ & [Hfs|[_ Hfsa]]).
    + left. exists s. now apply positive_int_spec.
    + right. exists s. now apply positive_int_spec.
  - intros Hsome. destruct conf; [reflexivity|].
    destruct (Hfalse eq_refl) as [Hn1 Hn2].
    destruct Hsome as [(s & Hs & Hp)|(s & Hs & Hp)].
    + assert (positive_int (filesize fmt) = Some s) by now apply positive_int_spec.
      congruence.
    + assert (positive_int (filesize_approx fmt) = Some s) by now apply positive_int_spec.
      congruence.
  - intros s Hs Hp. unfold _format_size_bytes in Hr.
    rewrite (proj2 (positive_int_spec _ s) (conj Hs Hp)) in Hr. now symmetry.
  - intros s Hn Hs Hp. unfold _format_size_bytes in Hr. rewrite Hn in Hr.
    rewrite (proj2 (positive_int_spec _ s) (conj Hs Hp)) in Hr. now symmetry.
Qed.

(** A format whose exact size is a float and whose approximate size is an
    integer: the approximate size is taken, with confidence. *)
Lemma format_size_confidence_witness :
  _format_size_bytes
    {| ext := Some "mp4"; vcodec := Some "avc1"; acodec := Some "mp4a";
       height := Some 720; fps := None; tbr := Some (Py.Int 900); abr := None;
       filesize := Some (Py.Float (5 # 2)); filesize_approx := Some (Py.Int 4000);
       format_url := None; format_id := Some "22" |} (Some 60)
  = (Some 4000, true).
Proof.
  refine (proj2 (proj2 (proj2 (format_size_confidence _ (Some 60)))) 4000 _ _ _);
    [reflexivity | reflexivity | lia].
Defined.

(** ** Selection returns a greatest candidate *)

(** The order read by [key > best_key] on video keys. *)
Lemma video_key_gt_spec (k k' : Z * Z * Q) :
  video_key_gt k k' = true <->
  k'.1.1 < k.1.1 \/
  k'.1.1 = k.1.1 /\ (k'.1.2 < k.1.2 \/ k'.1.2 = k.1.2 /\ (k'.2 < k.2)%Q).
Proof.
  destruct k as [[h f] t], k' as [[h' f'] t']. cbn.
  destruct (h =? h') eqn:Hh; cbn;
    [apply Z.eqb_eq in Hh | apply Z.eqb_neq in Hh].
  - destruct (f =? f') eqn:Hf; cbn;
      [apply Z.eqb_eq in Hf | apply Z.eqb_neq in Hf].
    + split.
      * intros Ht. right. split; [lia|]. right. split; [lia|].
        unfold Py.Qlt_bool in Ht. apply negb_true_iff in Ht.
        apply Qnot_le_lt. intros Hle. apply Qle_bool_iff in Hle. congruence.
      * intros [Hlt|[_ [Hlt|[_ Hlt]]]]; try lia. now apply Qlt_bool_true.
    + rewrite Z.ltb_lt. split; [intros; right; split; [lia|]; left; lia|].
      intros [Hlt|[_ [Hlt|[Heq _]]]]; lia.
  - rewrite Z.ltb_lt. split; [auto|]. intros [Hlt|[Heq _]]; lia.
Qed.

Lemma video_key_gt_irrefl (k : Z * Z * Q) : video_key_gt k k = false.
Proof.
  destruct (video_key_gt k k) eqn:H; [|reflexivity].
  pose proof (video_key_gt_asym k k H). congruence.
Qed.

(** [a <= b] and [b < c] leave no room for [a > c]. *)
Lemma video_key_gt_chain (a b c : Z * Z * Q) :
  video_key_gt a b = false -> video_key_gt c b = true -> video_key_gt a c = false.
Proof.
  intros Hab Hcb. destruct (video_key_gt a c) eqn:Hac; [|reflexivity].
  exfalso. apply not_true_iff_false in Hab. apply Hab.
  apply video_key_gt_spec in Hcb, Hac. apply video_key_gt_spec.
  destruct a as [[ha fa] ta], b as [[hb fb] tb], c as [[hc fc] tc]. cbn in *.
  destruct Hcb as [H1|[H1 [H2|[H2 H3]]]], Hac as [G1|[G1 [G2|[G2 G3]]]];
    try (left; lia); try (right; split; [lia|]; left; lia).
  right. split; [lia|]. right. split; [lia|]. now apply Qlt_trans with tc.
Qed.

Lemma audio_key_gt_irrefl (k : Q) : Py.Qlt_bool k k = false.
Proof. apply Qlt_bool_false, Qle_refl. Qed.

Lemma audio_key_gt_chain (a b c : Q) :
  Py.Qlt_bool b a = false -> Py.Qlt_bool b c = true -> Py.Qlt_bool c a = false.
Proof.
  unfold Py.Qlt_bool. intros Hab Hbc.
  apply negb_false_iff, Qle_bool_iff in Hab.
  apply negb_true_iff in Hbc.
  apply negb_false_iff, Qle_bool_iff.
  apply Qle_trans with b; [exact Hab|].
  apply Qlt_le_weak, Qnot_le_lt. intros Hle. apply Qle_bool_iff in Hle. congruence.
Qed.

Section SelectionMax.

Context {A K : Type}.
Variable eligible : format -> bool.
Variable key : format -> K.
Variable gt : K -> K -> bool.
Variable build : format -> A.
Hypothesis gt_irrefl : forall k, gt k k = false.
Hypothesis gt_chain : forall a b c, gt a b = false -> gt c b = true -> gt a c = false.

Local Abbreviation step := (select_step eligible key gt build).

(** The loop ends empty exactly when no candidate is eligible; otherwise it
    holds an eligible candidate whose key no eligible candidate exceeds. *)
Lemma select_greatest (l : list format) :
  (fold_left step l None = None /\ forall g, In g l -> eligible g = false) \/
  exists f, In f l /\ eligible f = true /\
            fold_left step l None = Some (build f, key f) /\
            forall g, In g l -> eligible g = true -> gt (key g) (key f) = false.
Proof.
  induction l as [|x l IH] using rev_ind.
  - left. split; [reflexivity | intros g []].
  - rewrite fold_left_app. cbn [fold_left].
    destruct IH as [[-> Hnone]|(f & Hin & Hel & -> & Hmax)];
      unfold select_step; destruct (eligible x) eqn:Hx.
    + right. exists x. split; [apply in_or_app; right; now left|].
      split; [exact Hx|]. split; [reflexivity|].
      intros g Hg Hge. apply in_app_or in Hg as [Hg|[<-|[]]].
      * rewrite (Hnone g Hg) in Hge. discriminate.
      * apply gt_irrefl.
    + left. split; [reflexivity|].
      intros g Hg. apply in_app_or in Hg as [Hg|[<-|[]]]; auto.
    + right. destruct (gt (key x) (key f)) eqn:Hgt.
      * exists x. split; [apply in_or_app; right; now left|].
        split; [exact Hx|]. split; [reflexivity|].
        intros g Hg Hge. apply in_app_or in Hg as [Hg|[<-|[]]].
        -- apply gt_chain with (key f); [now apply Hmax | exact Hgt].
        -- apply gt_irrefl.
      * exists f. split; [apply in_or_app; now left|].
        split; [exact Hel|]. split; [reflexivity|].
        intros g Hg Hge. apply in_app_or in Hg as [Hg|[<-|[]]];
          [now apply Hmax | exact Hgt].
    + right. exists f. split; [apply in_or_app; now left|].
      split; [exact Hel|]. split; [reflexivity|].
      intros g Hg Hge. apply in_app_or in Hg as [Hg|[<-|[]]];
        [now apply Hmax | congruence].
Qed.

End SelectionMax.

Lemma progressive_fold_greatest (dur : option Z) (l : list format) :
  (fold_left (progressive_step dur) l None = None /\
   forall g, In g l -> progressive_eligible g = false) \/
  exists f, In f l /\ progressive_eligible f = true /\
            fold_left (progressive_step dur) l None
            = Some (progressive_plan dur f, video_key f) /\
            forall g, In g l -> progressive_eligible g = true ->
                      video_key_gt (video_key g) (video_key f) = false.
Proof.
  rewrite (fold_left_ext _ _ _ _ (progressive_step_select dur)).
  apply select_greatest; [apply video_key_gt_irrefl | apply video_key_gt_chain].
Qed.

Lemma video_only_fold_greatest (dur : option Z) (l : list format) :
  (fold_left (video_only_step dur) l None = None /\
   forall g, In g l -> video_only_eligible g = false) \/
  exists f, In f l /\ video_only_eligible f = true /\
            fold_left (video_only_step dur) l None
            = Some (best_entry_of dur f, video_key f) /\
            forall g, In g l -> video_only_eligible g = true ->
                      video_key_gt (video_key g) (video_key f) = false.
Proof.
  rewrite (fold_left_ext _ _ _ _ (video_only_step_select dur)).
  apply select_greatest; [apply video_key_gt_irrefl | apply video_key_gt_chain].
Qed.

Lemma audio_only_fold_greatest (dur : option Z) (l : list format) :
  (fold_left (audio_only_step dur) l None = None /\
   forall g, In g l -> audio_only_eligible g = false) \/
  exists f, In f l /\ audio_only_eligible f = true /\
            fold_left (audio_only_step dur) l None
            = Some (best_entry_of dur f, audio_key f) /\
            forall g, In g l -> audio_only_eligible g = true ->
                      Py.Qlt_bool (audio_key f) (audio_key g) = false.
Proof.
  rewrite (fold_left_ext _ _ _ _ (audio_only_step_select dur)).
  apply (select_greatest audio_only_eligible audio_key
           (fun k best => Py.Qlt_bool best k) (best_entry_of dur)).
  - intros k. apply audio_key_gt_irrefl.
  - intros a b c Hab Hcb. cbn in *. now apply audio_key_gt_chain with b.
Qed.

(** X2. [_best_progressive_mp4] returns nothing exactly when no format is an
    mp4 with both codecs; otherwise the plan it returns is built from such
    a format of the list whose key [(height, fps, tbr)] no other such
    format exceeds. *)
Theorem progressive_selection_greatest (m : meta) :
  (_best_progressive_mp4 m = None <->
   forall g, In g (formats m) -> progressive_eligible g = false) /\
  (forall p : plan,
      _best_progressive_mp4 m = Some p ->
      exists f : format,
        In f (formats m) /\ progressive_eligible f = true /\
        p = progressive_plan (_duration_sec m) f /\
        forall g, In g (formats m) -> progressive_eligible g = true ->
                  video_key_gt (video_key g) (video_key f) = false).
Proof.
  unfold _best_progressive_mp4.
  destruct (progressive_fold_greatest (_duration_sec m) (formats m))
    as [[-> Hnone]|(f & Hin & Hel & -> & Hmax)]; cbn.
  - split; [split; auto | discriminate].
  - split.
    + split; [discriminate|]. intros Hnone. rewrite (Hnone f Hin) in Hel. discriminate.
    + intros p [= <-]. eauto.
Qed.

(** X3. [_best_separate_mp4_m4a] returns nothing exactly when the list has
    no video-only mp4 or no audio-only m4a/mp4; otherwise its plan pairs a
    video-only format whose key no other exceeds with an audio-only format
    whose bitrate no other exceeds. *)
Theorem separate_selection_greatest (m : meta) :
  (_best_separate_mp4_m4a m = None <->
   (forall g, In g (formats m) -> video_only_eligible g = false) \/
   (forall g, In g (formats m) -> audio_only_eligible g = false)) /\
  (forall p : plan,
      _best_separate_mp4_m4a m = Some p ->
      exists vf af : format,
        In vf (formats m) /\ video_only_eligible vf = true /\
        In af (formats m) /\ audio_only_eligible af = true /\
        p = separate_plan (best_entry_of (_duration_sec m) vf)
                          (best_entry_of (_duration_sec m) af) /\
        (forall g, In g (formats m) -> video_only_eligible g = true ->
                   video_key_gt (video_key g) (video_key vf) = false) /\
        (forall g, In g (formats m) -> audio_only_eligible g = true ->
                   (audio_key g <= audio_key af)%Q)).
Proof.
  unfold _best_separate_mp4_m4a. rewrite separate_fold.
  destruct (video_only_fold_greatest (_duration_sec m) (formats m))
    as [[-> Hvn]|(vf & Hvin & Hvel & -> & Hvmax)].
  { split; [split; auto | discriminate]. }
  destruct (audio_only_fold_greatest (_duration_sec m) (formats m))
    as [[-> Han]|(af & Hain & Hael & -> & Hamax)].
  { split; [split; auto | discriminate]. }
  split.
  - split; [discriminate|]. intros [Hn|Hn].
    + rewrite (Hn vf Hvin) in Hvel. discriminate.
    + rewrite (Hn af Hain) in Hael. discriminate.
  - intros p [= <-]. exists vf, af. repeat (split; [assumption || reflexivity|]).
    intros g Hg Hge. specialize (Hamax g Hg Hge).
    unfold Py.Qlt_bool in Hamax. now apply negb_false_iff, Qle_bool_iff in Hamax.
Qed.

(** ** The video plan *)





(** ** The probing step on any plan *)

Section ProbeAny.

Variable net : network.

Local Abbreviation http_urls p :=
  (filter (fun u : string => Py.startswith "http" u = true) (probe_urls p)).
Local Abbreviation probed_total p :=
  (sum_sizes (map (fun u => default 0 (_probe_url_size_bytes net u)) (http_urls p))).

(** The two ways the probing step can end. *)
Lemma _apply_probe_if_needed_cases (h : heap) (l : nat) (p : plan) :
  h !! l = Some p ->
  let r := _apply_probe_if_needed net h l in
  r.1 = (l, h) \/
  (~ (estimated_confident p = true /\ is_Some (estimated_size p)) /\
   http_urls p <> [] /\
   (forall u, In u (http_urls p) -> is_Some (_probe_url_size_bytes net u)) /\
   r = (l,
        <[l := set_estimated_confident true
                 (set_estimated_size (Some (probed_total p)) p)]> h,
        http_urls p)).
Proof.
  intros Hl r. subst r.
  destruct (decide (estimated_confident p = true /\ is_Some (estimated_size p)))
    as [[Hc Hs]|Hn].
  { left. now rewrite (_apply_probe_if_needed_confident net h l p Hl Hc Hs). }
  destruct (decide (http_urls p = [])) as [Hempty|Hne].
  { left. now rewrite (_apply_probe_if_needed_no_url net h l p Hl Hempty). }
  destruct (probes_all_or_one_fails net (http_urls p)) as [Hall|(u & Hin & Hfail)].
  - right. repeat (split; [assumption|]).
    apply (_apply_probe_if_needed_success net h l p Hl Hn Hne Hall).
  - left.
    destruct (_apply_probe_if_needed_failure net h l p u Hl Hin Hfail) as [asked ->].
    reflexivity.
Qed.

Lemma sum_sizes_positive (urls : list string) :
  urls <> [] ->
  (forall u, In u urls -> is_Some (_probe_url_size_bytes net u)) ->
  0 < sum_sizes (map (fun u => default 0 (_probe_url_size_bytes net u)) urls).
Proof.
  intros Hne Hall.
  assert (Hge : forall us,
             (forall u, In u us -> is_Some (_probe_url_size_bytes net u)) ->
             0 <= sum_sizes (map (fun u => default 0 (_probe_url_size_bytes net u)) us)).
  { induction us as [|u us IH]; intros Hus; cbn; [lia|].
    destruct (Hus u (or_introl eq_refl)) as [sz Hsz]. rewrite Hsz. cbn.
    pose proof (_probe_url_size_bytes_positive net u sz Hsz).
    specialize (IH (fun u' Hu' => Hus u' (or_intror Hu'))).
    unfold sum_sizes in IH. lia. }
  destruct urls as [|u us]; [congruence|]. cbn.
  destruct (Hall u (or_introl eq_refl)) as [sz Hsz]. rewrite Hsz. cbn.
  pose proof (_probe_url_size_bytes_positive net u sz Hsz).
  specialize (Hge us (fun u' Hu' => Hall u' (or_intror Hu'))).
  unfold sum_sizes in Hge. lia.
Qed.

End ProbeAny.

(** X5. On a plan object whose sizes are positive and which is confident
    only when it carries a size, the probing step keeps what the fetch
    uses (kind, format selector, merge hint, bitrate, probe URLs, label),
    and the plan it leaves still has positive sizes and is confident only
    with a size.  Once the plan has come out confident, probing it again
    requests no URL and changes nothing, whatever the network answers
    then. *)
Theorem probe_keeps_plan_wellformed (net : network) (h : heap) (l : nat) (p : plan) :
  h !! l = Some p ->
  (forall s, estimated_size p = Some s -> 0 < s) ->
  (estimated_confident p = true -> is_Some (estimated_size p)) ->
  let r := _apply_probe_if_needed net h l in
  exists p' : plan,
    r.1.1 = l /\ r.1.2 !! l = Some p' /\
    kind p' = kind p /\ format_spec p' = format_spec p /\
    merge_output_format p' = merge_output_format p /\
    mp3_kbps p' = mp3_kbps p /\ probe_urls p' = probe_urls p /\
    quality_label p' = quality_label p /\
    (forall s, estimated_size p' = Some s -> 0 < s) /\
    (estimated_confident p' = true -> is_Some (estimated_size p')) /\
    (estimated_confident p' = true ->
     forall net2 : network, _apply_probe_if_needed net2 r.1.2 r.1.1 = (r.1, [])).
Proof.
  intros Hl Hpos Hconf r.
  destruct (_apply_probe_if_needed_cases net h l p Hl)
    as [Hsame|(Hn & Hne & Hall & Hr)]; fold r in Hsame || fold r in Hr.
  - exists p. rewrite Hsame. cbn [fst snd].
    split; [reflexivity|]. split; [exact Hl|].
    do 6 (split; [reflexivity|]).
    split; [exact Hpos|]. split; [exact Hconf|].
    intros Hc net2.
    apply (_apply_probe_if_needed_confident net2 h l p Hl Hc (Hconf Hc)).
  - rewrite Hr. cbn [fst snd]. rewrite lookup_insert_eq.
    eexists. split; [reflexivity|]. split; [reflexivity|]. cbn.
    do 6 (split; [reflexivity|]).
    split; [intros s [= <-]; now apply sum_sizes_positive|].
    split; [eauto|].
    intros _ net2.
    match goal with |- context [<[l := ?q]> h] =>
      apply (_apply_probe_if_needed_confident net2 (<[l := q]> h) l q)
    end.
    + apply lookup_insert_eq.
    + reflexivity.
    + cbn. eauto.
Qed.

(** A single-file plan with an unconfident estimate and one http URL; the
    second probe meets a network that no longer answers. *)
Lemma probe_keeps_plan_wellformed_witness :
  let net : network := fun _ =>
    Some {| content_range := Some "bytes 0-0/123456"; content_length := None |} in
  let down : network := fun _ => None in
  let p := {| kind := Some "progressive"; format_spec := "22";
              merge_output_format := None; mp3_kbps := None;
              estimated_size := Some 777; estimated_confident := false;
              probe_urls := ["https://cdn/v"]; quality_label := "720p" |} in
  let r := _apply_probe_if_needed net {[ 3%nat := p ]} 3%nat in
  r.1.2 !! 3%nat
  = Some {| kind := Some "progressive"; format_spec := "22";
            merge_output_format := None; mp3_kbps := None;
            estimated_size := Some 123456; estimated_confident := true;
            probe_urls := ["https://cdn/v"]; quality_label := "720p" |} /\
  _apply_probe_if_needed down r.1.2 r.1.1 = (r.1, []).
Proof.
  cbv zeta.
  match goal with |- context [_apply_probe_if_needed ?net ?h ?l] =>
    match net with
    | (fun _ => Some _) =>
        destruct (probe_keeps_plan_wellformed net h l _ eq_refl
                    ltac:(intros s [= <-]; lia) ltac:(discriminate))
          as (p' & _ & Hp' & _ & _ & _ & _ & _ & _ & _ & _ & Hagain)
    end
  end.
  split; [vm_compute; reflexivity|].
  apply Hagain. vm_compute in Hp'. injection Hp' as <-. reflexivity.
Defined.

(** ** The whole of [_send_choice_ui] *)

(** What the gate leaves alone, and what it stores. *)
Lemma decision_gate_frame (MAX_SEND_BYTES : Z) (tg : platform) (now : Q)
  (request_id : string) (msg : message) (url title : string) (vp : plan)
  (ap : option plan) (reason : option string) (st : bot_state) :
  let st' :=
    decision_gate MAX_SEND_BYTES tg now request_id msg url title vp ap reason st in
  jobs_q st' = jobs_q st /\ cancel_events st' = cancel_events st /\
  active_jobs st' = active_jobs st /\ output_folder st' = output_folder st /\
  last_edited st' = last_edited st /\ last_text st' = last_text st /\
  (forall rid, rid <> request_id ->
               pending_requests st' !! rid = pending_requests st !! rid) /\
  (forall e, pending_requests st !! request_id = None ->
             pending_requests st' !! request_id = Some e ->
             e = pending_entry now msg url title (video_plan e) (audio_plan e) /\
             audio_plan e = ap /\
             (video_plan e = None \/
              video_plan e = Some vp /\ proven_to_fit MAX_SEND_BYTES vp)).
Proof.
  cbv zeta.
  assert (Hentry : forall e, pending_requests st !! request_id = None ->
    pending_requests
      (decision_gate MAX_SEND_BYTES tg now request_id msg url title vp ap reason st)
    !! request_id = Some e ->
    e = pending_entry now msg url title (video_plan e) (audio_plan e) /\
    audio_plan e = ap /\
    (video_plan e = None \/ video_plan e = Some vp /\ proven_to_fit MAX_SEND_BYTES vp)).
  { intros e Hfresh He.
    rewrite (decision_gate_entry MAX_SEND_BYTES tg now request_id msg url title
               vp ap reason st Hfresh) in He.
    destruct (video_ok MAX_SEND_BYTES vp) eqn:Hok.
    - injection He as <-. cbn. repeat split. right. split; [reflexivity|].
      now apply video_ok_proven.
    - destruct ap as [a|]; [|discriminate]. injection He as <-. cbn. auto. }
  destruct (video_ok MAX_SEND_BYTES vp) eqn:Hok.
  - rewrite (decision_gate_accept MAX_SEND_BYTES tg now request_id msg url title
               vp ap reason st Hok) in *.
    cbn. do 6 (split; [reflexivity|]). split; [|exact Hentry].
    intros rid Hne. now rewrite lookup_insert_ne by congruence.
  - destruct (decision_gate_refuse MAX_SEND_BYTES tg now request_id msg url title
                vp ap reason st Hok) as [text Hgate].
    rewrite Hgate in *. destruct ap as [a|].
    + rewrite refuse_video_audio in *. cbn.
      do 6 (split; [reflexivity|]). split; [|exact Hentry].
      intros rid Hne. now rewrite lookup_insert_ne by congruence.
    + destruct (refuse_video_nothing tg now request_id msg url title text reason st)
        as [text' Hrefuse].
      rewrite Hrefuse in *. cbn.
      do 6 (split; [reflexivity|]). split; [reflexivity | exact Hentry].
Qed.

Lemma _cleanup_pending_absent (now : Q) (st : bot_state) (rid : string) :
  pending_requests st !! rid = None ->
  pending_requests (_cleanup_pending now st) !! rid = None.
Proof.
  intros Habsent. unfold _cleanup_pending. cbn.
  destruct (foldr delete (pending_requests st) (expired_ids now (pending_requests st))
            !! rid) as [e|] eqn:He; [|reflexivity].
  apply lookup_foldr_delete_Some in He as [_ He]. congruence.
Qed.

(** X6. [_send_choice_ui] never enqueues a job and never touches the
    cancellation registry.  Under a request id that was free, the entry it
    may store belongs to the sender of the message and holds a video plan
    only when that plan is proven to fit the ceiling; the other entries are
    those the sweep has left.  When the metadata cannot be fetched nothing
    is stored. *)
Theorem send_choice_ui_stores_only_proven (MAX_SEND_BYTES : Z) (tg : platform)
  (net : network) (get_meta : string -> option meta)
  (strip_hashtags : string -> string) (now now' : Q) (request_id : string)
  (msg : message) (url : string) (st : bot_state) :
  pending_requests st !! request_id = None ->
  let st' :=
    _send_choice_ui MAX_SEND_BYTES tg net get_meta strip_hashtags now now'
      request_id msg url st in
  jobs_q st' = jobs_q st /\ cancel_events st' = cancel_events st /\
  active_jobs st' = active_jobs st /\
  (forall rid, rid <> request_id ->
     pending_requests st' !! rid = pending_requests (_cleanup_pending now st) !! rid) /\
  (forall e, pending_requests st' !! request_id = Some e ->
     pr_user_id e = msg_from_user_id msg /\ pr_chat_id e = msg_chat_id msg /\
     pr_url e = url /\ created_at e = now' /\
     forall p, video_plan e = Some p -> proven_to_fit MAX_SEND_BYTES p) /\
  (get_meta url = None ->
   pending_requests st' = pending_requests (_cleanup_pending now st)).
Proof.
  intros Hfresh. cbv zeta. unfold _send_choice_ui.
  pose proof (_cleanup_pending_absent now st request_id Hfresh) as Hfresh'.
  assert (Hsweep : jobs_q (_cleanup_pending now st) = jobs_q st /\
                   cancel_events (_cleanup_pending now st) = cancel_events st /\
                   active_jobs (_cleanup_pending now st) = active_jobs st)
    by (repeat split).
  destruct Hsweep as (Hq & Hce & Haj).
  remember (_cleanup_pending now st) as swept eqn:Hswept. clear Hswept.
  unfold _bot_call.
  destruct (tg (length (outbox swept)) _) as [processing_msg|].
  2:{ cbn. do 3 (split; [assumption|]). split; [reflexivity|].
      split; [|reflexivity]. intros e He. cbn in He. congruence. }
  destruct (get_meta url) as [m|].
  2:{ cbn. do 3 (split; [assumption|]). split; [reflexivity|].
      split; [|reflexivity]. intros e He. cbn in He. congruence. }
  destruct (_apply_probe_if_needed net _ 0%nat) as [[l h] asked].
  destruct (_build_audio_plan_mp3 m MAX_SEND_BYTES) as [ap reason].
  destruct (h !! l) as [vp|].
  2:{ cbn. do 3 (split; [assumption|]). split; [reflexivity|].
      split; [|discriminate]. intros e He. cbn in He. congruence. }
  match goal with |- context [decision_gate ?M ?tg ?t ?rid ?msg ?url ?title ?vp ?ap ?r ?s] =>
    destruct (decision_gate_frame M tg t rid msg url title vp ap r s)
      as (Gq & Gce & Gaj & _ & _ & _ & Gother & Gentry)
  end.
  split; [rewrite Gq; exact Hq|]. split; [rewrite Gce; exact Hce|].
  split; [rewrite Gaj; exact Haj|].
  split; [intros rid Hne; rewrite (Gother rid Hne); reflexivity|].
  split; [|discriminate].
  intros e He. destruct (Gentry e Hfresh' He) as (Heq & _ & Hvp).
  rewrite Heq. cbn. do 4 (split; [reflexivity|]).
  intros p Hp. destruct Hvp as [Hnone|[Hsome Hfit]]; congruence.
Qed.

(** A link whose metadata has one single-file format of 30,000,000 exact
    bytes, under a ceiling of 50,000,000. *)
Lemma send_choice_ui_stores_only_proven_witness :
  let fmt :=
    {| ext := Some "mp4"; vcodec := Some "avc1"; acodec := Some "mp4a";
       height := Some 720; fps := Some (Py.Int 30); tbr := Some (Py.Int 2500);
       abr := None; filesize := Some (Py.Int 30000000); filesize_approx := None;
       format_url := Some "https://cdn/v"; format_id := Some "22" |} in
  let get_meta : string -> option meta := fun _ =>
    Some {| duration := Some (Py.Int 600); formats := [fmt];
            meta_title := Some "Clip" |} in
  let msg := {| msg_chat_id := 7; msg_from_user_id := 7; msg_message_id := 40 |} in
  let st' :=
    _send_choice_ui 50000000 (fun _ _ => Some 41) (fun _ => None) get_meta
      (fun s => s) (inject_Z 5) (inject_Z 6) "77ab" msg "https://v/1" empty_state in
  jobs_q st' = [] /\
  exists e : pending,
    pending_requests st' !! "77ab" = Some e /\
    pr_user_id e = 7 /\
    forall p, video_plan e = Some p -> proven_to_fit 50000000 p.
Proof.
  cbv zeta.
  match goal with
  | |- jobs_q (_send_choice_ui ?M ?tg ?net ?gm ?sh ?t ?t' ?rid ?msg ?url ?st) = _ /\ _ =>
      destruct (send_choice_ui_stores_only_proven M tg net gm sh t t' rid msg url st
                  eq_refl) as (Hq & _ & _ & _ & Hentry & _)
  end.
  split; [exact Hq|].
  eexists. split; [vm_compute; reflexivity|].
  match goal with |- pr_user_id ?e = _ /\ _ =>
    destruct (Hentry e) as (Hu & _ & _ & _ & Hp); [vm_compute; reflexivity|]
  end.
  split; [exact Hu | exact Hp].
Defined.

(** ** The audio fitter on any input *)

Lemma trunc_nonneg (q : Q) : Py.Qlt_bool 0 q = true -> 0 <= Py.trunc q.
Proof.
  unfold Py.Qlt_bool, Py.trunc. intros H. apply negb_true_iff in H.
  assert (Hpos : (0 < q)%Q).
  { apply Qnot_le_lt. intros Hle. apply Qle_bool_iff in Hle. congruence. }
  unfold Qlt in Hpos. cbn in Hpos.
  apply Z.quot_pos; lia.
Qed.

Lemma _duration_sec_nonneg (m : meta) (d : Z) : _duration_sec m = Some d -> 0 <= d.
Proof.
  unfold _duration_sec. destruct (duration m) as [[z|q]|]; cbn; try discriminate.
  - destruct (0 <? z) eqn:Hz; [|discriminate]. intros [= <-].
    apply Z.ltb_lt in Hz. lia.
  - destruct (Py.Qlt_bool 0 q) eqn:Hq; [|discriminate]. intros [= <-].
    now apply trunc_nonneg.
Qed.

Lemma dur_truthy_spec (dur : option Z) (d : Z) :
  dur_truthy dur = Some d <-> dur = Some d /\ d <> 0.
Proof.
  unfold dur_truthy. destruct dur as [x|]; [|split; [discriminate | intros [[=] _]]].
  destruct (x =? 0) eqn:Hx; [apply Z.eqb_eq in Hx | apply Z.eqb_neq in Hx].
  - split; [discriminate | intros [[= ->] Hne]; contradiction].
  - split; [intros [= <-]; auto | intros [[= ->] _]; reflexivity].
Qed.

(** The rung the loop stops at: it is on the ladder and passes the test. *)
Lemma fit_ladder_sound (d limit_bytes : Z) (brs : list Z) (p : plan) :
  fit_ladder d limit_bytes brs = Some p ->
  exists br, In br brs /\ p = audio_plan_of br (audio_estimate d br) /\
             audio_estimate d br + AUDIO_HEADROOM_BYTES <= limit_bytes.
Proof.
  induction brs as [|a brs IH]; cbn [fit_ladder]; [discriminate|].
  destruct (audio_estimate d a + AUDIO_HEADROOM_BYTES <=? limit_bytes) eqn:Ha.
  - intros [= <-]. apply Z.leb_le in Ha. exists a. split; [now left | auto].
  - intros H. destruct (IH H) as (br & Hin & Hp & Hfit). exists br.
    split; [now right | auto].
Qed.

Lemma fit_ladder_some (d limit_bytes : Z) (brs : list Z) (br : Z) :
  In br brs ->
  audio_estimate d br + AUDIO_HEADROOM_BYTES <= limit_bytes ->
  is_Some (fit_ladder d limit_bytes brs).
Proof.
  intros Hin Hfit. destruct (fit_ladder d limit_bytes brs) eqn:H; [eauto|].
  exfalso. revert H Hin. induction brs as [|a brs IH]; cbn [fit_ladder]; [intros _ []|].
  destruct (audio_estimate d a + AUDIO_HEADROOM_BYTES <=? limit_bytes) eqn:Ha;
    [discriminate|].
  apply Z.leb_gt in Ha. intros H [->|Hin]; [lia | auto].
Qed.

(** Raising the ceiling cannot lower the rung on a descending ladder. *)
Lemma fit_ladder_monotone (d : Z) (brs : list Z) :
  StronglySorted (fun a b => b < a) brs ->
  forall (L L' : Z) (p : plan),
    L <= L' ->
    fit_ladder d L brs = Some p ->
    exists p', fit_ladder d L' brs = Some p' /\
               exists br br', mp3_kbps p = Some br /\ mp3_kbps p' = Some br' /\ br <= br'.
Proof.
  induction brs as [|a brs IH]; intros Hs L L' p HL; cbn [fit_ladder]; [discriminate|].
  apply StronglySorted_inv in Hs as [Hs Ha]. rewrite List.Forall_forall in Ha.
  destruct (audio_estimate d a + AUDIO_HEADROOM_BYTES <=? L') eqn:HaL'.
  - intros Hp. eexists. split; [reflexivity|].
    destruct (audio_estimate d a + AUDIO_HEADROOM_BYTES <=? L) eqn:HaL.
    + injection Hp as <-. exists a, a. cbn. repeat split. lia.
    + apply fit_ladder_sound in Hp as (br & Hin & -> & _).
      exists br, a. cbn. repeat split. specialize (Ha br Hin). lia.
  - apply Z.leb_gt in HaL'.
    destruct (audio_estimate d a + AUDIO_HEADROOM_BYTES <=? L) eqn:HaL;
      [apply Z.leb_le in HaL; lia|].
    intros Hp. exact (IH Hs L L' p HL Hp).
Qed.

(** X7. [_build_audio_plan_mp3] returns either a plan and no reason or a
    reason and no plan.  A plan it returns is confident, has a bitrate of
    the ladder, an estimated size of [d * bitrate * 1000 / 8] for the
    whole seconds [d] of the duration, and that size plus the headroom of
    1,500,000 bytes is within the limit. *)
Theorem audio_plan_sound (m : meta) (L : Z) :
  match _build_audio_plan_mp3 m L with
  | (Some p, None) =>
      exists d br : Z,
        _duration_sec m = Some d /\ 0 < d /\ In br candidates /\
        mp3_kbps p = Some br /\
        estimated_size p = Some (d * br * 1000 / 8) /\
        d * br * 1000 / 8 + 1500000 <= L /\
        estimated_confident p = true /\
        format_spec p = "bestaudio/best"
  | (None, Some reason) =>
      reason = unknown_duration_reason \/ reason = audio_too_large_reason L
  | _ => False
  end.
Proof.
  unfold _build_audio_plan_mp3.
  destruct (dur_truthy (_duration_sec m)) as [d|] eqn:Hd; [|now left].
  apply dur_truthy_spec in Hd as [Hd Hne].
  pose proof (_duration_sec_nonneg m d Hd) as Hge.
  destruct (fit_ladder d L candidates) as [p|] eqn:Hfit; [|now right].
  apply fit_ladder_sound in Hfit as (br & Hin & -> & Hle).
  exists d, br. rewrite <- (audio_estimate_floor d br Hin).
  unfold AUDIO_HEADROOM_BYTES in Hle. cbn.
  repeat (split; [first [assumption | reflexivity | lia]|]). reflexivity.
Qed.

(** X8. An audio plan exists exactly when the duration is known, lasts at
    least one whole second [d], and the lowest rung fits:
    [d * 4000 + 1,500,000 <= L]. *)
Theorem audio_available_iff (m : meta) (L : Z) :
  is_Some (_build_audio_plan_mp3 m L).1 <->
  exists d : Z, _duration_sec m = Some d /\ 0 < d /\ d * 4000 + 1500000 <= L.
Proof.
  unfold _build_audio_plan_mp3. split.
  - destruct (dur_truthy (_duration_sec m)) as [d|] eqn:Hd; [|intros [? [=]]].
    apply dur_truthy_spec in Hd as [Hd Hne].
    pose proof (_duration_sec_nonneg m d Hd) as Hge.
    destruct (fit_ladder d L candidates) as [p|] eqn:Hfit; [|intros [? [=]]].
    intros _. apply fit_ladder_sound in Hfit as (br & Hin & _ & Hle).
    exists d. split; [exact Hd|]. split; [lia|].
    unfold audio_estimate, AUDIO_HEADROOM_BYTES in Hle.
    assert (Hbr : 4000 <= br * 1000 / 8).
    { unfold candidates in Hin. cbn [In] in Hin.
      repeat (destruct Hin as [<-|Hin]; [vm_compute; discriminate|]). contradiction. }
    nia.
  - intros (d & Hd & Hpos & Hle).
    assert (Ht : dur_truthy (_duration_sec m) = Some d)
      by (apply dur_truthy_spec; split; [exact Hd | lia]).
    rewrite Ht.
    destruct (fit_ladder_some d L candidates 32) as [p Hp].
    + unfold candidates. cbn. tauto.
    + unfold audio_estimate, AUDIO_HEADROOM_BYTES.
      change (32 * 1000 / 8) with 4000. lia.
    + rewrite Hp. cbn. eauto.
Qed.

(** X9. Raising the limit never lowers the bitrate the fitter chooses: if
    a plan exists for a limit, one exists for every larger limit, with a
    bitrate at least as high. *)
Theorem audio_bitrate_monotone (m : meta) (L L' : Z) (p : plan) :
  L <= L' ->
  (_build_audio_plan_mp3 m L).1 = Some p ->
  exists (p' : plan) (br br' : Z),
    (_build_audio_plan_mp3 m L').1 = Some p' /\
    mp3_kbps p = Some br /\ mp3_kbps p' = Some br' /\ br <= br'.
Proof.
  intros HL. unfold _build_audio_plan_mp3.
  destruct (dur_truthy (_duration_sec m)) as [d|]; [|discriminate].
  destruct (fit_ladder d L candidates) as [q|] eqn:Hfit; [|discriminate].
  cbn [fst]. intros [= <-].
  destruct (fit_ladder_monotone d candidates candidates_descending L L' q HL Hfit)
    as (p' & Hp' & br & br' & Hb & Hb' & Hle).
  rewrite Hp'. cbn [fst]. eauto 8.
Qed.

(** One hour of audio: 96 kbps under 50,000,000 bytes, and a higher rung
    under 100,000,000. *)
Lemma audio_bitrate_monotone_witness :
  let m := {| duration := Some (Py.Int 3600); formats := []; meta_title := None |} in
  exists (p' : plan) (br br' : Z),
    (_build_audio_plan_mp3 m 100000000).1 = Some p' /\
    mp3_kbps (audio_plan_of 96 43200000) = Some br /\
    mp3_kbps p' = Some br' /\ br <= br'.
Proof.
  cbv zeta.
  refine (audio_bitrate_monotone _ 50000000 100000000 _ _ _);
    [lia | vm_compute; reflexivity].
Defined.

(** ** The records of the status reporter *)



(** ** The cancellation registry *)

Lemma _is_cancelled_insert (job_id j : string) (st : bot_state) :
  _is_cancelled j (with_cancel_events (<[job_id := true]> (cancel_events st)) st)
  = if decide (job_id = j) then true else _is_cancelled j st.
Proof.
  unfold _is_cancelled. cbn. rewrite lookup_insert. now destruct (decide (job_id = j)).
Qed.

(** Everything [on_cancel] can do to the state. *)
Lemma on_cancel_effect (tg : platform) (call : callback) (st : bot_state) :
  let st' := on_cancel tg call st in
  pending_requests st' = pending_requests st /\ jobs_q st' = jobs_q st /\
  active_jobs st' = active_jobs st /\ output_folder st' = output_folder st /\
  last_edited st' = last_edited st /\ last_text st' = last_text st /\
  (cancel_events st' = cancel_events st \/
   exists (pre job_id : string) (info : job_info),
     split_on "|" (call_data call) = [pre; job_id] /\
     active_jobs st !! job_id = Some info /\
     call_from_user_id call = ji_user_id info /\
     is_Some (cancel_events st !! job_id) /\
     cancel_events st' = <[job_id := true]> (cancel_events st)).
Proof.
  cbv zeta. unfold on_cancel.
  destruct (split_on "|" (call_data call)) as [|pre [|job_id [|? ?]]];
    try (cbn; repeat split; now left).
  destruct (active_jobs st !! job_id) as [info|] eqn:Hinfo;
    [|cbn; repeat split; now left].
  destruct (call_from_user_id call =? ji_user_id info) eqn:Huser; cbn [negb];
    [|cbn; repeat split; now left].
  apply Z.eqb_eq in Huser.
  destruct (cancel_events st !! job_id) as [flag|] eqn:Hflag;
    [|cbn; repeat split; now left].
  cbn. do 6 (split; [reflexivity|]). right.
  exists pre, job_id, info. rewrite Hflag. eauto 8.
Qed.

(** X11. A cancel callback changes neither the pending store, the queue,
    the active-job registry nor the output folder.  It never clears a
    flag that is set and never registers a flag for an unknown job; a flag
    it sets belongs to an active job whose recorded user is the sender. *)
Theorem on_cancel_only_owner_sets (tg : platform) (call : callback) (st : bot_state) :
  let st' := on_cancel tg call st in
  pending_requests st' = pending_requests st /\ jobs_q st' = jobs_q st /\
  active_jobs st' = active_jobs st /\ output_folder st' = output_folder st /\
  (forall j, _is_cancelled j st = true -> _is_cancelled j st' = true) /\
  (forall j, cancel_events st !! j = None -> cancel_events st' !! j = None) /\
  (forall j, _is_cancelled j st = false -> _is_cancelled j st' = true ->
             exists info, active_jobs st !! j = Some info /\
                          call_from_user_id call = ji_user_id info).
Proof.
  cbv zeta.
  destruct (on_cancel_effect tg call st)
    as (Hp & Hq & Ha & Hf & _ & _ & [Hsame|(pre & jid & info & _ & Hinfo & Hu & Hsome & Hset)]).
  - do 4 (split; [assumption|]). unfold _is_cancelled. rewrite Hsame.
    split; [auto|]. split; [auto|]. intros j H1 H2. congruence.
  - do 4 (split; [assumption|]). unfold _is_cancelled. rewrite Hset.
    split; [|split].
    + intros j Hj. rewrite lookup_insert. now destruct (decide (jid = j)).
    + intros j Hj. rewrite lookup_insert. destruct (decide (jid = j)) as [<-|]; [|exact Hj].
      destruct Hsome as [? Hsome]. congruence.
    + intros j H1 H2. rewrite lookup_insert in H2.
      destruct (decide (jid = j)) as [<-|]; [eauto | congruence].
Qed.

(** ** Selections against the pending store *)

Lemma jobs_q_answer (tg : platform) (id text : string) (st : bot_state) :
  jobs_q (_safe_answer_callback tg id text st) = jobs_q st.
Proof. reflexivity. Qed.

(** A selection against an id with no entry enqueues nothing. *)
Lemma on_download_choice_absent_queue (tg : platform) (now : Q) (new_job_id : string)
  (call : callback) (st : bot_state) (pre choice rid : string) :
  split_on "|" (call_data call) = [pre; choice; rid] ->
  pending_requests st !! rid = None ->
  jobs_q (on_download_choice tg now new_job_id call st) = jobs_q st.
Proof.
  intros Hsplit Habsent.
  now rewrite (on_download_choice_absent tg now new_job_id call st pre choice rid
                 Hsplit Habsent).
Qed.

(** [_safe_edit] changes the outbox and the two edit records only. *)
Lemma safe_edit_frame (tg : platform) (now : Q) (chat_id message_id : Z)
  (text : string) (markup : option keyboard) (force : bool) (st : bot_state) :
  let st' := _safe_edit tg now chat_id message_id text markup force st in
  pending_requests st' = pending_requests st /\ jobs_q st' = jobs_q st /\
  cancel_events st' = cancel_events st /\ active_jobs st' = active_jobs st /\
  output_folder st' = output_folder st.
Proof.
  cbv zeta. unfold _safe_edit.
  destruct (negb force && edit_suppressed now (edit_key chat_id message_id) text st);
    [repeat split|].
  unfold _bot_call. destruct (tg (length (outbox st)) _); repeat split.
Qed.

(** X12. A selection against an existing entry by a user other than its
    owner is rejected and leaves the entry in place.  A selection by the
    owner removes the entry whether or not the chosen mode has a plan:
    with a plan one job is appended to the queue, without one the queue is
    unchanged; in both cases any later selection against the same id
    enqueues nothing. *)
Theorem choice_consumes_entry_once (tg : platform) (now : Q) (new_job_id : string)
  (call : callback) (st : bot_state) (pre choice rid : string) (req : pending) :
  split_on "|" (call_data call) = [pre; choice; rid] ->
  pending_requests st !! rid = Some req ->
  let st' := on_download_choice tg now new_job_id call st in
  (call_from_user_id call <> pr_user_id req ->
   st' = with_outbox
           (outbox st ++ [answer_callback_query (call_id call) "This is not your request."])
           st) /\
  (call_from_user_id call = pr_user_id req ->
   pending_requests st' = delete rid (pending_requests st) /\
   ((choose_plan choice req).1.1 = None -> jobs_q st' = jobs_q st) /\
   (forall p, (choose_plan choice req).1.1 = Some p ->
              exists j, jobs_q st' = jobs_q st ++ [j] /\ j_plan j = p /\
                        job_id j = new_job_id /\
                        mode j = (choose_plan choice req).1.2) /\
   forall (tg2 : platform) (now2 : Q) (id2 : string) (call2 : callback)
          (pre2 choice2 : string),
     split_on "|" (call_data call2) = [pre2; choice2; rid] ->
     jobs_q (on_download_choice tg2 now2 id2 call2 st') = jobs_q st').
Proof.
  intros Hsplit Hreq. cbv zeta.
  assert (Hgone : forall st2, pending_requests st2 = delete rid (pending_requests st) ->
            forall (tg2 : platform) (now2 : Q) (id2 : string) (call2 : callback)
                   (pre2 choice2 : string),
              split_on "|" (call_data call2) = [pre2; choice2; rid] ->
              jobs_q (on_download_choice tg2 now2 id2 call2 st2) = jobs_q st2).
  { intros st2 Hst2 tg2 now2 id2 call2 pre2 choice2 Hsplit2.
    apply on_download_choice_absent_queue with (pre := pre2) (choice := choice2)
                                                (rid := rid); [exact Hsplit2|].
    rewrite Hst2. apply lookup_delete_eq. }
  remember (on_download_choice tg now new_job_id call st) as st' eqn:Hst'.
  unfold on_download_choice in Hst'. rewrite Hsplit, Hreq in Hst'.
  split.
  - intros Hne. destruct (call_from_user_id call =? pr_user_id req) eqn:Hu;
      [apply Z.eqb_eq in Hu; contradiction | exact Hst'].
  - intros Hu. apply Z.eqb_eq in Hu. rewrite Hu in Hst'. cbn [negb] in Hst'.
    destruct (choose_plan choice req) as [[[p|] job_mode] answer];
      cbn [fst snd]; subst st'.
    + unfold with_jobs_q at 1 2 3. cbn [pending_requests jobs_q].
      match goal with |- context [_safe_edit ?tg ?t ?c ?m ?x ?mk ?f ?S] =>
        destruct (safe_edit_frame tg t c m x mk f S) as (Hp & Hq & _)
      end.
      rewrite Hp, Hq.
      split; [reflexivity|]. split; [discriminate|]. split.
      * intros p' [= <-]. eexists. split; [reflexivity|]. cbn. auto.
      * apply Hgone. unfold with_jobs_q. cbn [pending_requests]. now rewrite Hp.
    + split; [reflexivity|]. split; [reflexivity|]. split; [discriminate|].
      apply Hgone. reflexivity.
Qed.

(** The owner selects audio from an entry that has an audio plan only; a
    second press of any button of the same message enqueues nothing. *)
Lemma choice_consumes_entry_once_witness :
  let entry :=
    {| created_at := inject_Z 0; pr_user_id := 7; pr_chat_id := 7;
       pr_reply_to_message_id := 40; pr_url := "https://v/1"; pr_title := "Clip";
       video_plan := None; audio_plan := Some (audio_plan_of 192 14400000) |} in
  let st := with_pending {[ "77ab" := entry ]} empty_state in
  let call := {| call_id := "q2"; call_from_user_id := 7;
                 call_data := "dl|audio|77ab"; call_message_id := 41 |} in
  let st' := on_download_choice (fun _ _ => Some 0) (inject_Z 5) "3f9a" call st in
  pending_requests st' = delete "77ab" (pending_requests st) /\
  jobs_q (on_download_choice (fun _ _ => Some 0) (inject_Z 6) "4e0b" call st') = jobs_q st'.
Proof.
  cbv zeta.
  match goal with
  | |- pending_requests (on_download_choice ?tg ?t ?id ?call ?st) = _ /\ _ =>
      destruct (proj2 (choice_consumes_entry_once tg t id call st "dl" "audio" "77ab" _
                         eq_refl eq_refl) eq_refl) as (Hdel & _ & _ & Hagain)
  end.
  split; [exact Hdel|].
  apply (Hagain _ _ _ _ "dl" "audio"). reflexivity.
Defined.

(** ** From the buttons to the queue *)

(** An id without the separator splits into itself; a token built from
    such parts splits back into them. *)
Lemma split_on_nonempty (sep : ascii) (s : string) : split_on sep s <> [].
Proof.
  destruct s as [|c s]; cbn [split_on]; [discriminate|].
  destruct (Ascii.eqb c sep); [discriminate|].
  destruct (split_on sep s); discriminate.
Qed.

Lemma split_on_cons (sep : ascii) (a b : string) :
  split_on sep a = [a] ->
  split_on sep (a +:+ String sep b) = a :: split_on sep b.
Proof.
  revert b. induction a as [|c a IH]; intros b Ha.
  - change (split_on sep (String sep b) = "" :: split_on sep b).
    cbn [split_on]. now rewrite Ascii.eqb_refl.
  - change (split_on sep (String c (a +:+ String sep b)) = String c a :: split_on sep b).
    cbn [split_on] in Ha |- *. destruct (Ascii.eqb c sep); [discriminate|].
    destruct (split_on sep a) as [|w ws] eqn:Hsplit;
      [now apply split_on_nonempty in Hsplit|].
    injection Ha as -> ->. now rewrite (IH b eq_refl).
Qed.

Lemma choice_token_splits (choice request_id : string) :
  split_on "|" choice = [choice] ->
  split_on "|" request_id = [request_id] ->
  split_on "|" (choice_token choice request_id) = ["dl"; choice; request_id].
Proof.
  intros Hc Hr. unfold choice_token.
  change (split_on "|" ("dl" +:+ String "|" (choice +:+ String "|" request_id))
          = ["dl"; choice; request_id]).
  rewrite (split_on_cons "|" "dl" _ eq_refl).
  now rewrite (split_on_cons "|" choice _ Hc), Hr.
Qed.

Lemma cancel_markup_splits (job_id : string) :
  split_on "|" job_id = [job_id] ->
  (fun kb => (fun b => split_on "|" (callback_data b)) <$> concat kb)
    (_cancel_markup job_id) = [["cnl"; job_id]].
Proof.
  intros Hj.
  change ([split_on "|" ("cnl" +:+ String "|" job_id)] = [["cnl"; job_id]]).
  now rewrite (split_on_cons "|" "cnl" _ eq_refl), Hj.
Qed.

(** The state after a selection that finds its entry, its owner and a plan. *)
Lemma on_download_choice_success (tg : platform) (now : Q) (new_job_id : string)
  (call : callback) (st : bot_state) (pre choice rid : string) (req : pending)
  (p : plan) :
  split_on "|" (call_data call) = [pre; choice; rid] ->
  pending_requests st !! rid = Some req ->
  call_from_user_id call = pr_user_id req ->
  (choose_plan choice req).1.1 = Some p ->
  let st' := on_download_choice tg now new_job_id call st in
  jobs_q st' =
  jobs_q st ++
  [ {| job_id := new_job_id; j_chat_id := pr_chat_id req;
       j_reply_to_message_id := pr_reply_to_message_id req;
       j_status_message_id := call_message_id call; j_url := pr_url req;
       j_title := pr_title req; mode := (choose_plan choice req).1.2;
       j_plan := p |} ] /\
  active_jobs st' =
  <[new_job_id := {| ji_user_id := pr_user_id req; ji_chat_id := pr_chat_id req;
                     ji_status_message_id := call_message_id call |}]> (active_jobs st) /\
  cancel_events st' = <[new_job_id := false]> (cancel_events st) /\
  pending_requests st' = delete rid (pending_requests st).
Proof.
  intros Hsplit Hreq Hu Hplan. cbv zeta. unfold on_download_choice.
  rewrite Hsplit, Hreq. apply Z.eqb_eq in Hu. rewrite Hu. cbn [negb].
  destruct (choose_plan choice req) as [[[q|] job_mode] answer]; [|discriminate].
  cbn [fst snd] in *. injection Hplan as ->.
  unfold with_jobs_q. cbn [jobs_q active_jobs cancel_events pending_requests].
  match goal with |- context [_safe_edit ?tg ?t ?c ?m ?x ?mk ?f ?S] =>
    destruct (safe_edit_frame tg t c m x mk f S) as (Hp & Hq & Hce & Haj & _)
  end.
  rewrite Hp, Hq, Hce, Haj. repeat split.
Qed.

(** X13. The buttons sent by the gate lead back to the plans it stored.
    With a request id that is fresh and contains no ["|"], a press by the
    sender of the link on the video or the document button of an accepted
    plan, or on the audio button, appends to the queue one job for that
    mode with exactly that plan, the link and the title, and registers the
    job as active for that user with its cancellation flag unset. *)
Theorem offered_button_enqueues (MAX_SEND_BYTES : Z) (tg tg2 : platform) (now now2 : Q)
  (request_id new_job_id : string) (msg : message) (url title : string) (vp : plan)
  (ap : option plan) (reason : option string) (st : bot_state) (call : callback) :
  pending_requests st !! request_id = None ->
  split_on "|" request_id = [request_id] ->
  call_from_user_id call = msg_from_user_id msg ->
  let st1 :=
    decision_gate MAX_SEND_BYTES tg now request_id msg url title vp ap reason st in
  let st2 := on_download_choice tg2 now2 new_job_id call st1 in
  let enqueued choice p :=
    jobs_q st2 =
    jobs_q st ++
    [ {| job_id := new_job_id; j_chat_id := msg_chat_id msg;
         j_reply_to_message_id := msg_message_id msg;
         j_status_message_id := call_message_id call; j_url := url;
         j_title := title; mode := choice; j_plan := p |} ] /\
    active_jobs st2 !! new_job_id =
    Some {| ji_user_id := msg_from_user_id msg; ji_chat_id := msg_chat_id msg;
            ji_status_message_id := call_message_id call |} /\
    _is_cancelled new_job_id st2 = false /\
    pending_requests st2 !! request_id = None in
  (proven_to_fit MAX_SEND_BYTES vp ->
   call_data call = choice_token "video" request_id -> enqueued "video" vp) /\
  (proven_to_fit MAX_SEND_BYTES vp ->
   call_data call = choice_token "doc" request_id -> enqueued "doc" vp) /\
  (forall a, ap = Some a ->
   call_data call = choice_token "audio" request_id -> enqueued "audio" a).
Proof.
  intros Hfresh Hrid Huser. cbv zeta.
  pose proof (decision_gate_entry MAX_SEND_BYTES tg now request_id msg url title
                vp ap reason st Hfresh) as Hentry.
  destruct (decision_gate_frame MAX_SEND_BYTES tg now request_id msg url title
              vp ap reason st) as (Gq & _).
  assert (Hgo : forall choice p req,
    split_on "|" choice = [choice] ->
    call_data call = choice_token choice request_id ->
    pending_requests
      (decision_gate MAX_SEND_BYTES tg now request_id msg url title vp ap reason st)
    !! request_id = Some req ->
    req = pending_entry now msg url title (video_plan req) (audio_plan req) ->
    choose_plan choice req = (Some p, choice, (choose_plan choice req).2) ->
    jobs_q (on_download_choice tg2 now2 new_job_id call
              (decision_gate MAX_SEND_BYTES tg now request_id msg url title vp ap reason st)) =
    jobs_q st ++
    [ {| job_id := new_job_id; j_chat_id := msg_chat_id msg;
         j_reply_to_message_id := msg_message_id msg;
         j_status_message_id := call_message_id call; j_url := url;
         j_title := title; mode := choice; j_plan := p |} ] /\
    active_jobs (on_download_choice tg2 now2 new_job_id call
              (decision_gate MAX_SEND_BYTES tg now request_id msg url title vp ap reason st))
      !! new_job_id =
    Some {| ji_user_id := msg_from_user_id msg; ji_chat_id := msg_chat_id msg;
            ji_status_message_id := call_message_id call |} /\
    _is_cancelled new_job_id (on_download_choice tg2 now2 new_job_id call
              (decision_gate MAX_SEND_BYTES tg now request_id msg url title vp ap reason st))
      = false /\
    pending_requests (on_download_choice tg2 now2 new_job_id call
              (decision_gate MAX_SEND_BYTES tg now request_id msg url title vp ap reason st))
      !! request_id = None).
  { intros choice p req Hc Hdata Hreq Hshape Hchoose.
    assert (Hsplit : split_on "|" (call_data call) = ["dl"; choice; request_id])
      by (rewrite Hdata; now apply choice_token_splits).
    assert (Hu : call_from_user_id call = pr_user_id req)
      by (rewrite Hshape; exact Huser).
    assert (Hp : (choose_plan choice req).1.1 = Some p) by now rewrite Hchoose.
    destruct (on_download_choice_success tg2 now2 new_job_id call _ "dl" choice
                request_id req p Hsplit Hreq Hu Hp) as (Hq & Haj & Hce & Hpr).
    rewrite Hq, Haj, Hpr. unfold _is_cancelled. rewrite Hce, Gq.
    rewrite !lookup_insert_eq, lookup_delete_eq.
    rewrite Hchoose. cbn [fst snd]. rewrite Hshape. cbn. auto. }
  split; [|split].
  - intros Hfit Hdata. apply video_ok_proven in Hfit. rewrite Hfit in Hentry.
    apply (Hgo "video" vp _ eq_refl Hdata Hentry); reflexivity.
  - intros Hfit Hdata. apply video_ok_proven in Hfit. rewrite Hfit in Hentry.
    apply (Hgo "doc" vp _ eq_refl Hdata Hentry); reflexivity.
  - intros a -> Hdata.
    destruct (video_ok MAX_SEND_BYTES vp);
      apply (Hgo "audio" a _ eq_refl Hdata Hentry); reflexivity.
Qed.

(** The sender presses the document button of an accepted plan. *)
Lemma offered_button_enqueues_witness :
  let msg := {| msg_chat_id := 7; msg_from_user_id := 7; msg_message_id := 40 |} in
  let vp :=
    {| kind := Some "progressive"; format_spec := "22"; merge_output_format := None;
       mp3_kbps := None; estimated_size := Some 30000000; estimated_confident := true;
       probe_urls := []; quality_label := "720p" |} in
  let call := {| call_id := "q2"; call_from_user_id := 7;
                 call_data := "dl|doc|77ab"; call_message_id := 41 |} in
  let st1 :=
    decision_gate 50000000 (fun _ _ => Some 41) (inject_Z 5) "77ab" msg "https://v/1"
      "Clip" vp None None empty_state in
  let st2 := on_download_choice (fun _ _ => Some 41) (inject_Z 6) "3f9a" call st1 in
  jobs_q st2 =
  [ {| job_id := "3f9a"; j_chat_id := 7; j_reply_to_message_id := 40;
       j_status_message_id := 41; j_url := "https://v/1"; j_title := "Clip";
       mode := "doc"; j_plan := vp |} ] /\
  active_jobs st2 !! "3f9a" =
  Some {| ji_user_id := 7; ji_chat_id := 7; ji_status_message_id := 41 |} /\
  _is_cancelled "3f9a" st2 = false /\
  pending_requests st2 !! "77ab" = None.
Proof.
  cbv zeta.
  match goal with
  | |- jobs_q (on_download_choice ?tg2 ?t2 ?jid ?call
                 (decision_gate ?M ?tg ?t ?rid ?msg ?url ?title ?vp ?ap ?r ?st)) = _ /\ _ =>
      refine (proj1 (proj2 (offered_button_enqueues M tg tg2 t t2 rid jid msg url title
                              vp ap r st call eq_refl eq_refl eq_refl)) _ eq_refl)
  end.
  split; [reflexivity|]. exists 30000000. split; [reflexivity | lia].
Defined.

(** X14. The cancel button put on the status message by a selection leads
    back to the job it names.  After a selection has enqueued a job under
    an id without ["|"], a press on that button by the user of the pending
    entry sets the job's flag, asks for the status message to be deleted
    and is answered "Cancelled."; a press by anyone else leaves the flag
    unset. *)
Theorem cancel_button_reaches_job (tg tgc : platform) (now : Q) (new_job_id : string)
  (call cancel : callback) (st : bot_state) (pre choice rid : string) (req : pending)
  (p : plan) :
  split_on "|" (call_data call) = [pre; choice; rid] ->
  pending_requests st !! rid = Some req ->
  call_from_user_id call = pr_user_id req ->
  (choose_plan choice req).1.1 = Some p ->
  split_on "|" new_job_id = [new_job_id] ->
  [call_data cancel] = callback_data <$> concat (_cancel_markup new_job_id) ->
  let st1 := on_download_choice tg now new_job_id call st in
  let st2 := on_cancel tgc cancel st1 in
  (call_from_user_id cancel = pr_user_id req ->
   _is_cancelled new_job_id st2 = true /\
   outbox st2 =
   outbox st1 ++ [delete_message (pr_chat_id req) (call_message_id call);
                  answer_callback_query (call_id cancel) "Cancelled."]) /\
  (call_from_user_id cancel <> pr_user_id req ->
   _is_cancelled new_job_id st2 = false /\
   outbox st2 =
   outbox st1 ++ [answer_callback_query (call_id cancel) "This is not your request."]).
Proof.
  intros Hsplit Hreq Hu Hplan Hid Hdata. cbv zeta.
  destruct (on_download_choice_success tg now new_job_id call st pre choice rid req p
              Hsplit Hreq Hu Hplan) as (_ & Haj & Hce & _).
  remember (on_download_choice tg now new_job_id call st) as st1 eqn:Hst1.
  clear Hst1.
  assert (Hcsplit : split_on "|" (call_data cancel) = ["cnl"; new_job_id]).
  { injection Hdata as ->.
    change (split_on "|" ("cnl" +:+ String "|" new_job_id) = ["cnl"; new_job_id]).
    now rewrite (split_on_cons "|" "cnl" _ eq_refl), Hid. }
  unfold on_cancel. rewrite Hcsplit, Haj, Hce, !lookup_insert_eq.
  cbn [ji_user_id ji_chat_id ji_status_message_id]. split.
  - intros Hc. apply Z.eqb_eq in Hc. rewrite Hc. cbn [negb]. split.
    + unfold _is_cancelled. cbn. now rewrite lookup_insert_eq.
    + cbn. now rewrite <- app_assoc.
  - intros Hc. apply Z.eqb_neq in Hc. rewrite Hc. cbn [negb]. split.
    + unfold _is_cancelled. cbn. now rewrite Hce, lookup_insert_eq.
    + reflexivity.
Qed.

(** The owner of an audio job presses its cancel button. *)
Lemma cancel_button_reaches_job_witness :
  let entry :=
    {| created_at := inject_Z 0; pr_user_id := 7; pr_chat_id := 70;
       pr_reply_to_message_id := 40; pr_url := "https://v/1"; pr_title := "Clip";
       video_plan := None; audio_plan := Some (audio_plan_of 192 14400000) |} in
  let st := with_pending {[ "77ab" := entry ]} empty_state in
  let call := {| call_id := "q2"; call_from_user_id := 7;
                 call_data := "dl|audio|77ab"; call_message_id := 41 |} in
  let cancel := {| call_id := "q3"; call_from_user_id := 7;
                   call_data := "cnl|3f9a"; call_message_id := 41 |} in
  let st1 := on_download_choice (fun _ _ => Some 0) (inject_Z 5) "3f9a" call st in
  let st2 := on_cancel (fun _ _ => Some 0) cancel st1 in
  _is_cancelled "3f9a" st2 = true /\
  outbox st2 =
  outbox st1 ++ [delete_message 70 41; answer_callback_query "q3" "Cancelled."].
Proof.
  cbv zeta.
  match goal with
  | |- _is_cancelled _ (on_cancel ?tgc ?cancel (on_download_choice ?tg ?t ?jid ?call ?st))
       = _ /\ _ =>
      refine (proj1 (cancel_button_reaches_job tg tgc t jid call cancel st
                       "dl" "audio" "77ab" _ _ eq_refl eq_refl eq_refl eq_refl
                       eq_refl eq_refl) eq_refl)
  end.
Defined.

(** ** What the worker leaves alone *)

Lemma steady_refl (st : bot_state) : steady st st.
Proof. repeat split; auto. Qed.

Lemma steady_trans (a b c : bot_state) : steady a b -> steady b c -> steady a c.
Proof.
  intros (Hp & Hq & Ha & Hc) (Hp' & Hq' & Ha' & Hc').
  repeat split; try congruence. auto.
Qed.

Lemma steady_safe_edit (tg : platform) (now : Q) (chat_id message_id : Z)
  (text : string) (markup : option keyboard) (force : bool) (st : bot_state) :
  steady st (_safe_edit tg now chat_id message_id text markup force st).
Proof.
  destruct (safe_edit_frame tg now chat_id message_id text markup force st)
    as (Hp & Hq & Hce & Haj & _).
  repeat split; try assumption. unfold _is_cancelled. now rewrite Hce.
Qed.

Lemma steady_safe_delete (tg : platform) (chat_id message_id : Z) (st : bot_state) :
  steady st (_safe_delete tg chat_id message_id st).
Proof. repeat split; auto. Qed.

Lemma steady_with_output_folder (fs : list file) (st : bot_state) :
  steady st (with_output_folder fs st).
Proof. repeat split; auto. Qed.

Lemma steady_on_cancel (tg : platform) (call : callback) (st : bot_state) :
  steady st (on_cancel tg call st).
Proof.
  destruct (on_cancel_effect tg call st)
    as (Hp & Hq & Ha & _ & _ & _ & [Hsame|(pre & jid & info & _ & _ & _ & _ & Hset)]);
    repeat split; try assumption; unfold _is_cancelled; intros k.
  - now rewrite Hsame.
  - rewrite Hset, lookup_insert. now destruct (decide (jid = k)).
Qed.

Lemma steady_run_calls (tg : platform) (calls : list callback) :
  forall st, steady st (run_calls tg calls st).
Proof.
  induction calls as [|c calls IH]; intros st; cbn; [apply steady_refl|].
  eapply steady_trans; [apply steady_on_cancel | apply IH].
Qed.

Lemma output_folder_on_cancel (tg : platform) (call : callback) (st : bot_state) :
  output_folder (on_cancel tg call st) = output_folder st.
Proof. now destruct (on_cancel_effect tg call st) as (_ & _ & _ & Hf & _). Qed.

Lemma output_folder_run_calls (tg : platform) (calls : list callback) :
  forall st, output_folder (run_calls tg calls st) = output_folder st.
Proof.
  induction calls as [|c calls IH]; intros st; [reflexivity|].
  change (output_folder (run_calls tg calls (on_cancel tg c st)) = output_folder st).
  now rewrite IH, output_folder_on_cancel.
Qed.

Section WorkerSteps.

Variable MAX_SEND_BYTES : Z.
Variable tg : platform.
Variable j : job.

Lemma steady_progress_hook (tmp : string) (now : Q) (d : progress_dict)
  (st : bot_state) (ps : gmap string Z) :
  steady st (progress_hook MAX_SEND_BYTES tg tmp j now d st ps).1.1 /\
  output_folder (progress_hook MAX_SEND_BYTES tg tmp j now d st ps).1.1
  = output_folder st.
Proof.
  unfold progress_hook.
  destruct (_is_cancelled (job_id j) st); [split; [apply steady_refl | reflexivity]|].
  destruct (Py.str_truthy (Some (hook_filename d)) &&
            negb (contains tmp (basename (hook_filename d))));
    [split; [apply steady_refl | reflexivity]|].
  destruct (status_is "downloading" d).
  - destruct (_calc_download_progress d ps) as [[[pct done_b] total_b] ps'].
    match goal with |- context [match ?x with Some _ => _ | None => _ end] =>
      destruct x end; cbn [fst].
    + split; [apply steady_refl | reflexivity].
    + split; [apply steady_safe_edit|].
      now destruct (safe_edit_frame tg now (j_chat_id j) (j_status_message_id j)
                      (_render_status (j_title j) "downloading" pct done_b total_b None)
                      (Some (_cancel_markup (job_id j))) false st) as (_ & _ & _ & _ & Hf).
  - destruct (status_is "finished" d); cbn [fst].
    + split; [apply steady_safe_edit|].
      now destruct (safe_edit_frame tg now (j_chat_id j) (j_status_message_id j)
                      (_render_status (j_title j) "downloading" (Some 100) None None None)
                      (Some (_cancel_markup (job_id j))) true st) as (_ & _ & _ & _ & Hf).
    + split; [apply steady_refl | reflexivity].
Qed.

Lemma steady_run_hooks (tmp : string) (events : list hook_event) :
  forall (st : bot_state) (ps : gmap string Z),
    steady st (run_hooks MAX_SEND_BYTES tg tmp j events st ps).1.1 /\
    output_folder (run_hooks MAX_SEND_BYTES tg tmp j events st ps).1.1
    = output_folder st.
Proof.
  induction events as [|ev events IH]; intros st ps; cbn [run_hooks];
    [split; [apply steady_refl | reflexivity]|].
  pose proof (steady_run_calls tg (he_calls ev) st) as Hcalls.
  pose proof (output_folder_run_calls tg (he_calls ev) st) as Hfolder.
  destruct (steady_progress_hook tmp (he_now ev) (he_d ev)
              (run_calls tg (he_calls ev) st) ps) as [Hhook Hhf].
  destruct (progress_hook MAX_SEND_BYTES tg tmp j (he_now ev) (he_d ev)
              (run_calls tg (he_calls ev) st) ps) as [[st1 ps1] [|e]]; cbn [fst] in *.
  - destruct (IH st1 ps1) as [Hrest Hrf]. split.
    + eapply steady_trans; [exact Hcalls|]. eapply steady_trans; eassumption.
    + congruence.
  - split; [eapply steady_trans; eassumption | congruence].
Qed.

Lemma steady_run_chunks (stage_label : string) (chunks : list upload_chunk) :
  forall st : bot_state,
    steady st (run_chunks tg j stage_label chunks st).1 /\
    output_folder (run_chunks tg j stage_label chunks st).1 = output_folder st.
Proof.
  induction chunks as [|c chunks IH]; intros st; cbn [run_chunks];
    [split; [apply steady_refl | reflexivity]|].
  pose proof (steady_run_calls tg (uc_calls c) st) as Hcalls.
  pose proof (output_folder_run_calls tg (uc_calls c) st) as Hfolder.
  unfold upload_callback.
  destruct (_is_cancelled (job_id j) (run_calls tg (uc_calls c) st)); cbn [fst].
  - split; [exact Hcalls | exact Hfolder].
  - match goal with |- context [run_chunks tg j stage_label chunks ?S] =>
      destruct (IH S) as [Hrest Hrf];
      match S with _safe_edit ?tg ?t ?c ?m ?x ?mk ?f ?S0 =>
        pose proof (steady_safe_edit tg t c m x mk f S0) as Hedit;
        destruct (safe_edit_frame tg t c m x mk f S0) as (_ & _ & _ & _ & Hef)
      end
    end.
    split.
    + eapply steady_trans; [exact Hcalls|]. eapply steady_trans; eassumption.
    + congruence.
Qed.

Lemma steady_send (env : job_env) (file_path stage_label : string) (st : bot_state) :
  steady st (_send_via_bot_api_with_progress tg env j file_path stage_label st).1 /\
  output_folder (_send_via_bot_api_with_progress tg env j file_path stage_label st).1
  = output_folder st.
Proof.
  unfold _send_via_bot_api_with_progress.
  match goal with |- context [_is_cancelled _ ?S] =>
    match S with _safe_edit ?tg ?t ?c ?m ?x ?mk ?f ?S0 =>
      pose proof (steady_safe_edit tg t c m x mk f S0) as Hedit;
      destruct (safe_edit_frame tg t c m x mk f S0) as (_ & _ & _ & _ & Hef)
    end;
    destruct (_is_cancelled (job_id j) S); [split; assumption|];
    destruct (steady_run_chunks stage_label (up_chunks (upload env)) S) as [Hch Hcf];
    destruct (run_chunks tg j stage_label (up_chunks (upload env)) S) as [st1 [|e]];
    cbn [fst] in *
  end.
  - destruct (up_result (upload env)) as [e|code|[|] desc]; cbn [fst];
      try (split; [eapply steady_trans; eassumption | congruence]).
    match goal with |- context [_safe_edit ?tg ?t ?c ?m ?x ?mk ?f st1] =>
      pose proof (steady_safe_edit tg t c m x mk f st1) as Hlast;
      destruct (safe_edit_frame tg t c m x mk f st1) as (_ & _ & _ & _ & Hlf)
    end.
    split; [eapply steady_trans; [exact Hedit|]; eapply steady_trans; eassumption
           | congruence].
  - split; [eapply steady_trans; eassumption | congruence].
Qed.

End WorkerSteps.

Section WorkerBody.

Variable MAX_SEND_BYTES : Z.
Variable tg : platform.
Variable env : job_env.
Variable j : job.

(** The body of the worker as a whole. *)
Lemma try_body_effect (st : bot_state) :
  let r := try_body MAX_SEND_BYTES tg env j st in
  steady st r.1.1 /\
  (output_folder r.1.1 = output_folder st \/
   output_folder r.1.1 = output_folder st ++ dl_files (download env)) /\
  (forall fp, r.1.2 = Some fp -> r.2 = Normal ->
              file_exists fp (output_folder r.1.1) = true /\
              getsize fp (output_folder r.1.1) <= MAX_SEND_BYTES).
Proof.
  cbv zeta. unfold try_body.
  destruct (_is_cancelled (job_id j) st).
  { cbn [fst snd]. split; [apply steady_safe_delete|]. split; [now left | discriminate]. }
  match goal with |- context [run_hooks _ _ _ _ _ ?S _] =>
    match S with _safe_edit ?tg ?t ?c ?m ?x ?mk ?f ?S0 =>
      pose proof (steady_safe_edit tg t c m x mk f S0) as Hedit;
      destruct (safe_edit_frame tg t c m x mk f S0) as (_ & _ & _ & _ & Hef)
    end;
    destruct (steady_run_hooks MAX_SEND_BYTES tg j (tmp_id env)
                (dl_events (download env)) S initial_progress_state) as [Hhooks Hhf];
    destruct (run_hooks MAX_SEND_BYTES tg (tmp_id env) j (dl_events (download env))
                S initial_progress_state) as [[st1 ps1] hooks]
  end.
  cbn [fst] in Hhooks, Hhf.
  assert (H1 : steady st st1) by (eapply steady_trans; eassumption).
  assert (F1 : output_folder st1 = output_folder st) by congruence.
  destruct hooks as [|e].
  2:{ cbn [fst snd]. split; [exact H1|]. split; [right; now rewrite F1 | discriminate]. }
  destruct (dl_result (download env)) as [e|requested].
  { cbn [fst snd]. split; [exact H1|]. split; [right; now rewrite F1 | discriminate]. }
  set (st2 := with_output_folder (output_folder st1 ++ dl_files (download env)) st1).
  assert (H2 : steady st st2)
    by (eapply steady_trans; [exact H1 | apply steady_with_output_folder]).
  pose proof (steady_run_calls tg (calls_after_download env) st2) as Hcalls.
  pose proof (output_folder_run_calls tg (calls_after_download env) st2) as Hcf.
  remember (run_calls tg (calls_after_download env) st2) as st3 eqn:Hst3. clear Hst3.
  assert (H3 : steady st st3) by (eapply steady_trans; eassumption).
  assert (F3 : output_folder st3 = output_folder st ++ dl_files (download env))
    by (rewrite Hcf; subst st2; cbn; now rewrite F1).
  destruct (_is_cancelled (job_id j) st3).
  { cbn [fst snd]. split; [eapply steady_trans; [exact H3 | apply steady_safe_delete]|].
    split; [right; exact F3 | discriminate]. }
  match goal with |- context [match ?x with Some fp => _ | None => _ end] =>
    match x with
    | match _ with _ => _ end => destruct x as [fp|] eqn:Hfound
    end
  end.
  2:{ cbn [fst snd]. split; [exact H3|]. split; [right; exact F3 | discriminate]. }
  destruct (negb (Py.str_truthy (Some fp) && file_exists fp (output_folder st3))) eqn:Hex.
  { cbn [fst snd]. split; [exact H3|]. split; [right; exact F3 | discriminate]. }
  destruct (MAX_SEND_BYTES <? getsize fp (output_folder st3)) eqn:Hbig.
  { cbn [fst snd]. split; [exact H3|]. split; [right; exact F3 | discriminate]. }
  destruct (steady_send tg j env fp (stage_label_of (mode j)) st3) as [Hsend Hsf].
  destruct (_send_via_bot_api_with_progress tg env j fp (stage_label_of (mode j)) st3)
    as [st4 [|e]]; cbn [fst snd] in *.
  - split; [eapply steady_trans; [exact H3|];
            eapply steady_trans; [exact Hsend | apply steady_safe_delete]|].
    split; [right; cbn; congruence|].
    intros fp' [= <-] _. cbn [_safe_delete _bot_call fst output_folder with_outbox].
    rewrite Hsf. apply negb_false_iff, andb_true_iff in Hex as [_ Hex].
    apply Z.ltb_ge in Hbig. auto.
  - split; [eapply steady_trans; eassumption|].
    split; [right; congruence | discriminate].
Qed.

End WorkerBody.

Lemma finally_clause_registry (fs : fs_faults) (env : job_env) (j : job)
  (file_path : option string) (st : bot_state) :
  let st' := finally_clause fs env j file_path st in
  pending_requests st' = pending_requests st /\ jobs_q st' = jobs_q st /\
  active_jobs st' = delete (job_id j) (active_jobs st) /\
  cancel_events st' = delete (job_id j) (cancel_events st).
Proof. repeat split. Qed.

(** X15. When [os.makedirs] raises, the exception leaves the worker and
    the state is as it was: both registry entries of the job stay.
    Otherwise, whatever happens to the job (delivered, refused, failed or
    cancelled), the worker returns, both registry entries of the job are
    gone, and no file whose name starts with the job's prefix is left
    provided that listing the folder and removing the files with the
    prefix do not fail.  In every case each file of the output folder was
    there before or was written by this download, and the worker has
    changed neither the pending store, the queue, the registry entries of
    other jobs, nor a cancellation flag that was set for another job. *)
Theorem worker_cleans_up (MAX_SEND_BYTES : Z) (tg : platform) (fs : fs_faults)
  (env : job_env) (j : job) (st : bot_state) :
  let r := _download_and_send MAX_SEND_BYTES tg fs env j st in
  (forall e, makedirs_raises fs = Some e -> r = (st, Raised e)) /\
  (makedirs_raises fs = None ->
   r.2 = Normal /\
   cancel_events r.1 !! job_id j = None /\
   active_jobs r.1 !! job_id j = None /\
   (listdir_raises fs = false ->
    (forall n, Py.startswith (tmp_id env) n = true -> remove_listed_raises fs n = false) ->
    forall f, In f (output_folder r.1) ->
              Py.startswith (tmp_id env) (file_name f) = false)) /\
  (forall f, In f (output_folder r.1) ->
             In f (output_folder st) \/ In f (dl_files (download env))) /\
  pending_requests r.1 = pending_requests st /\
  jobs_q r.1 = jobs_q st /\
  (forall k, k <> job_id j -> active_jobs r.1 !! k = active_jobs st !! k) /\
  (forall k, k <> job_id j -> _is_cancelled k st = true -> _is_cancelled k r.1 = true).
Proof.
  cbv zeta. unfold _download_and_send.
  destruct (makedirs_raises fs) as [e0|].
  { cbn [fst snd]. split; [now intros e [= ->]|]. split; [discriminate|]. auto 6. }
  split; [discriminate|].
  destruct (try_body_effect MAX_SEND_BYTES tg env j st) as (Hbody & Hfolder & _).
  destruct (try_body MAX_SEND_BYTES tg env j st) as [[st1 file_path] body].
  cbn [fst snd] in Hbody, Hfolder |- *.
  set (st2 := match body with
              | Normal => st1
              | Raised e =>
                  except_clause tg env j e (run_calls tg (calls_before_handler env) st1)
              end).
  assert (H2 : steady st st2 /\ output_folder st2 = output_folder st1).
  { subst st2. destruct body as [|e]; [split; [exact Hbody | reflexivity]|].
    pose proof (steady_run_calls tg (calls_before_handler env) st1) as Hcalls.
    pose proof (output_folder_run_calls tg (calls_before_handler env) st1) as Hcf.
    unfold except_clause.
    destruct (_is_cancelled (job_id j) (run_calls tg (calls_before_handler env) st1)).
    - split; [|exact Hcf].
      eapply steady_trans; [exact Hbody|].
      eapply steady_trans; [exact Hcalls | apply steady_safe_delete].
    - match goal with |- context [_safe_edit ?tg ?t ?c ?m ?x ?mk ?f ?S0] =>
        pose proof (steady_safe_edit tg t c m x mk f S0) as Hedit;
        destruct (safe_edit_frame tg t c m x mk f S0) as (_ & _ & _ & _ & Hef)
      end.
      split; [|congruence].
      eapply steady_trans; [exact Hbody|]. eapply steady_trans; eassumption. }
  destruct H2 as [(Hp & Hq & Ha & Hc) Hf2].
  destruct (finally_clause_cleans fs env j file_path st2)
    as (_ & Hsub & Hce & Haj & Hclean).
  destruct (finally_clause_registry fs env j file_path st2) as (Fp & Fq & Fa & Fc).
  split; [|split; [|split; [|split; [|split]]]].
  - intros _. split; [reflexivity|]. split; [exact Hce|]. split; [exact Haj|].
    intros Hls Hrm. apply Hclean; [exact Hls|]. intros f _ Hpre. now apply Hrm.
  - intros f Hf. apply Hsub in Hf. rewrite Hf2 in Hf.
    destruct Hfolder as [Hs|Hs]; rewrite Hs in Hf; [now left|].
    apply in_app_or in Hf. tauto.
  - congruence.
  - congruence.
  - intros k Hk. rewrite Fa, lookup_delete_ne by congruence. now rewrite Ha.
  - intros k Hk Hset. apply Hc in Hset. unfold _is_cancelled in *.
    now rewrite Fc, lookup_delete_ne by congruence.
Qed.

(** The removal loop keeps the files that do not have the prefix. *)
Lemma remove_listed_keeps (raises : string -> bool) (prefix : string)
  (names : list string) (folder : list file) (f : file) :
  In f folder -> Py.startswith prefix (file_name f) = false ->
  In f (remove_listed raises prefix names folder).
Proof.
  intros Hf Hpre. revert folder Hf.
  induction names as [|fn names IH]; intros folder Hf; cbn [remove_listed]; [exact Hf|].
  destruct (Py.startswith prefix fn && file_exists fn folder) eqn:Hfn; [|now apply IH].
  destruct (raises fn); [exact Hf|]. apply IH. unfold remove_file.
  apply filter_In. split; [exact Hf|]. apply negb_true_iff.
  destruct (String.eqb_spec (file_name f) fn) as [Heq|]; [|reflexivity].
  apply andb_true_iff in Hfn as [Hfn _]. congruence.
Qed.

(** X16. A job whose flag is already set when a worker picks it up (it was
    cancelled while queued) is never downloaded.  Once [os.makedirs] has
    succeeded the worker returns, the only call it has made is the
    deletion of the status message, the edit records are unchanged, both
    registry entries are gone, no file has been added and every file
    without the job's prefix is kept; when listing the folder and
    removing the files with the prefix do not fail, the output folder has
    lost exactly the files with the job's prefix. *)
Theorem cancelled_job_never_downloads (MAX_SEND_BYTES : Z) (tg : platform)
  (fs : fs_faults) (env : job_env) (j : job) (st : bot_state) :
  makedirs_raises fs = None ->
  _is_cancelled (job_id j) st = true ->
  let r := _download_and_send MAX_SEND_BYTES tg fs env j st in
  r.2 = Normal /\
  outbox r.1 = outbox st ++ [delete_message (j_chat_id j) (j_status_message_id j)] /\
  last_edited r.1 = last_edited st /\ last_text r.1 = last_text st /\
  cancel_events r.1 !! job_id j = None /\
  active_jobs r.1 !! job_id j = None /\
  (forall f, In f (output_folder r.1) -> In f (output_folder st)) /\
  (forall f, In f (output_folder st) ->
             Py.startswith (tmp_id env) (file_name f) = false ->
             In f (output_folder r.1)) /\
  (listdir_raises fs = false ->
   (forall n, Py.startswith (tmp_id env) n = true -> remove_listed_raises fs n = false) ->
   output_folder r.1 =
   List.filter (fun f => negb (Py.startswith (tmp_id env) (file_name f)))
     (output_folder st)).
Proof.
  intros Hmk Hset. cbv zeta. unfold _download_and_send, try_body. rewrite Hmk, Hset.
  cbn [fst snd].
  set (st1 := _safe_delete tg (j_chat_id j) (j_status_message_id j) st).
  destruct (finally_clause_cleans fs env j None st1) as (Hout & Hsub & Hce & Haj & _).
  split; [reflexivity|]. split; [exact Hout|].
  split; [reflexivity|]. split; [reflexivity|].
  split; [exact Hce|]. split; [exact Haj|]. split; [exact Hsub|].
  unfold finally_clause.
  cbn [outbox output_folder cancel_events active_jobs
       with_output_folder with_cancel_events with_active_jobs].
  change (output_folder st1) with (output_folder st).
  split.
  - intros f Hf Hpre. destruct (listdir_raises fs); [exact Hf|].
    apply remove_listed_keeps; assumption.
  - intros -> Hrm. rewrite remove_listed_filter by (intros fn _; apply Hrm).
    apply filter_ext_in. intros f Hf.
    assert (Hex : existsb (String.eqb (file_name f)) (map file_name (output_folder st)) = true).
    { apply existsb_exists. exists (file_name f). split; [now apply in_map|].
      apply String.eqb_refl. }
    now rewrite Hex, andb_true_r.
Qed.

(** A job cancelled while queued; a file of another job is in the folder,
    and so is a stale file with the job's prefix whose removal fails. *)
Lemma cancelled_job_never_downloads_witness :
  let j :=
    {| job_id := "3f9a"; j_chat_id := 70; j_reply_to_message_id := 40;
       j_status_message_id := 41; j_url := "https://v/1"; j_title := "Clip";
       mode := "video"; j_plan := unknown_plan |} in
  let env :=
    {| tmp_id := "1700000000000"; now_start := inject_Z 1;
       download :=
         {| dl_events := [];
            dl_files := [ {| file_name := "1700000000000.mp4"; file_size := 1000;
                             file_mtime := inject_Z 2 |} ];
            dl_result := download_returns None |};
       calls_after_download := []; now_upload := inject_Z 3;
       upload := {| up_chunks := []; up_result := post_json true None |};
       now_sent := inject_Z 4; calls_before_handler := []; now_handler := inject_Z 5 |} in
  let other := {| file_name := "1699999999999.mp4"; file_size := 5; file_mtime := inject_Z 0 |} in
  let stale := {| file_name := "1700000000000.tmp"; file_size := 1; file_mtime := inject_Z 0 |} in
  let st :=
    with_output_folder [other; stale]
      (with_cancel_events {[ "3f9a" := true ]} empty_state) in
  let stuck :=
    {| makedirs_raises := None; remove_found_raises := false;
       listdir_raises := false; remove_listed_raises := fun _ => true |} in
  outbox (_download_and_send 50000000 (fun _ _ => Some 41) stuck env j st).1
  = [delete_message 70 41] /\
  In other (output_folder (_download_and_send 50000000 (fun _ _ => Some 41) stuck env j st).1) /\
  output_folder (_download_and_send 50000000 (fun _ _ => Some 41) no_faults env j st).1
  = [other].
Proof.
  cbv zeta.
  match goal with |- outbox (_download_and_send ?M ?tg ?fs ?env ?j ?st).1 = _ /\ _ =>
    destruct (cancelled_job_never_downloads M tg fs env j st eq_refl eq_refl)
      as (_ & Hout & _ & _ & _ & _ & _ & Hkeep & _);
    destruct (cancelled_job_never_downloads M tg no_faults env j st eq_refl eq_refl)
      as (_ & _ & _ & _ & _ & _ & _ & _ & Hfolder)
  end.
  split; [exact Hout|]. split.
  - apply Hkeep; [left; reflexivity | reflexivity].
  - apply Hfolder; reflexivity.
Defined.

(** X17. A job is delivered only with a file that exists in the output
    folder and whose size on disk does not exceed the ceiling: whenever
    the body of the worker completes with a file found, that file passed
    the final size check. *)
Theorem delivered_file_within_ceiling (MAX_SEND_BYTES : Z) (tg : platform)
  (env : job_env) (j : job) (st st1 : bot_state) (fp : string) :
  try_body MAX_SEND_BYTES tg env j st = (st1, Some fp, Normal) ->
  file_exists fp (output_folder st1) = true /\
  getsize fp (output_folder st1) <= MAX_SEND_BYTES.
Proof.
  intros Hbody.
  destruct (try_body_effect MAX_SEND_BYTES tg env j st) as (_ & _ & Hsize).
  rewrite Hbody in Hsize. cbn [fst snd] in Hsize.
  exact (Hsize fp eq_refl eq_refl).
Qed.

(** An audio job that runs to the end with a file of 14,000,000 bytes. *)
Lemma delivered_file_within_ceiling_witness :
  let j :=
    {| job_id := "3f9a"; j_chat_id := 70; j_reply_to_message_id := 40;
       j_status_message_id := 41; j_url := "https://v/1"; j_title := "Clip";
       mode := "audio"; j_plan := audio_plan_of 192 14400000 |} in
  let env :=
    {| tmp_id := "1700000000000"; now_start := inject_Z 1;
       download :=
         {| dl_events := [];
            dl_files := [ {| file_name := "1700000000000.mp3";
                             file_size := 14000000; file_mtime := inject_Z 2 |} ];
            dl_result := download_returns None |};
       calls_after_download := []; now_upload := inject_Z 3;
       upload := {| up_chunks := []; up_result := post_json true None |};
       now_sent := inject_Z 4; calls_before_handler := []; now_handler := inject_Z 5 |} in
  let st := with_cancel_events {[ "3f9a" := false ]} empty_state in
  let r := try_body 50000000 (fun _ _ => Some 41) env j st in
  file_exists "1700000000000.mp3" (output_folder r.1.1) = true /\
  getsize "1700000000000.mp3" (output_folder r.1.1) <= 50000000.
Proof.
  cbv zeta.
  match goal with |- context [try_body ?M ?tg ?env ?j ?st] =>
    refine (delivered_file_within_ceiling M tg env j st _ _ _)
  end.
  vm_compute. reflexivity.
Defined.

(** ** Downloaded file discovery *)

Lemma newest_file_from (fs : list file) :
  forall (best : option string) (m : Q) (fp : string),
    newest_file fs best m = Some fp ->
    best = Some fp \/ exists f, In f fs /\ file_name f = fp.
Proof.
  induction fs as [|f fs IH]; intros best m fp; cbn [newest_file]; [auto|].
  destruct (Py.Qlt_bool m (file_mtime f)); intros H; apply IH in H.
  - destruct H as [[= <-]|(g & Hg & Hn)]; right; [exists f | exists g]; cbn; auto.
  - destruct H as [H|(g & Hg & Hn)]; [now left|]. right. exists g. cbn. auto.
Qed.

Lemma _find_file_by_prefix_sound (prefix : string) (prefer_ext : option string)
  (folder : list file) (fp : string) :
  _find_file_by_prefix prefix prefer_ext folder = Some fp ->
  exists f, In f folder /\ file_name f = fp /\ Py.startswith prefix fp = true.
Proof.
  unfold _find_file_by_prefix.
  set (files := List.filter (fun f => Py.startswith prefix (file_name f)) folder).
  assert (Hfiles : forall f, In f files ->
                             In f folder /\ Py.startswith prefix (file_name f) = true)
    by (intros f Hf; now apply filter_In in Hf).
  destruct files as [|f0 files'] eqn:Hf0; [discriminate|]. rewrite <- Hf0 in *.
  clear Hf0 f0 files'.
  assert (Hpref : forall o : option string,
            (o = None \/ exists f, In f files /\ o = Some (file_name f)) ->
            match o with
            | Some fp0 => Some fp0
            | None =>
                match newest_file files None (inject_Z (-1)) with
                | Some best => if Py.str_truthy (Some best) then Some best else None
                | None => None
                end
            end = Some fp ->
            exists f, In f folder /\ file_name f = fp /\ Py.startswith prefix fp = true).
  { intros o [->|(f & Hf & ->)].
    - destruct (newest_file files None (inject_Z (-1))) as [best|] eqn:Hbest;
        [|discriminate].
      destruct (Py.str_truthy (Some best)); [|discriminate]. intros [= <-].
      apply newest_file_from in Hbest as [[=]|(f & Hf & Hn)].
      destruct (Hfiles f Hf) as [Hin Hp]. exists f. rewrite <- Hn. auto.
    - intros [= <-]. destruct (Hfiles f Hf) as [Hin Hp]. exists f. auto. }
  apply Hpref.
  destruct prefer_ext as [e|]; [|now left].
  destruct (Py.str_truthy (Some e)); [|now left].
  destruct (List.find _ files) as [f|] eqn:Hfind; [|now left].
  apply find_some in Hfind as [Hf _]. right. exists f. auto.
Qed.

Lemma _find_file_by_prefix_none (prefix : string) (prefer_ext : option string)
  (folder : list file) :
  (forall f, In f folder -> Py.startswith prefix (file_name f) = false) ->
  _find_file_by_prefix prefix prefer_ext folder = None.
Proof.
  intros Hnone. unfold _find_file_by_prefix.
  destruct (List.filter _ folder) as [|f fs] eqn:Hf; [reflexivity|].
  assert (Hin : In f (List.filter (fun f => Py.startswith prefix (file_name f)) folder))
    by (rewrite Hf; now left).
  apply filter_In in Hin as [Hin Hp]. rewrite (Hnone f Hin) in Hp. discriminate.
Qed.

Lemma file_exists_spec (fp : string) (folder : list file) :
  file_exists fp folder = true <-> exists f, In f folder /\ file_name f = fp.
Proof.
  unfold file_exists. rewrite existsb_exists. split.
  - intros (f & Hf & He). apply String.eqb_eq in He. eauto.
  - intros (f & Hf & He). exists f. split; [exact Hf | now apply String.eqb_eq].
Qed.

(** X18. The file the worker finds is a file of the output folder: either
    the path reported by the library, or a file whose name starts with the
    job's prefix.  A non-empty reported path that exists is always taken;
    when the library reports nothing and no file has the prefix, nothing
    is found; when the library reports nothing and an extension is
    preferred, a file that has the prefix and ends with that extension
    (whatever the case of the letters) is preferred to any other. *)
Theorem file_discovery (requested : option string) (prefix : string)
  (prefer_ext : option string) (folder : list file) :
  let r := _find_downloaded_file requested prefix prefer_ext folder in
  (forall fp, r = Some fp ->
     (exists f, In f folder /\ file_name f = fp) /\
     (requested = Some fp \/ Py.startswith prefix fp = true)) /\
  (forall fp, requested = Some fp -> fp <> "" ->
              file_exists fp folder = true -> r = Some fp) /\
  (requested = None ->
   (forall f, In f folder -> Py.startswith prefix (file_name f) = false) ->
   r = None) /\
  (forall e, requested = None -> prefer_ext = Some e -> e <> "" ->
     (exists f, In f folder /\ Py.startswith prefix (file_name f) = true /\
                endswith (lower e) (lower (file_name f)) = true) ->
     exists fp, r = Some fp /\ Py.startswith prefix fp = true /\
                endswith (lower e) (lower fp) = true).
Proof.
  cbv zeta. unfold _find_downloaded_file. split; [|split; [|split]].
  - intros fp Hr.
    assert (Hfallback : _find_file_by_prefix prefix prefer_ext folder = Some fp ->
              (exists f, In f folder /\ file_name f = fp) /\
              (requested = Some fp \/ Py.startswith prefix fp = true)).
    { intros H. apply _find_file_by_prefix_sound in H as (f & Hf & Hn & Hp). eauto. }
    destruct requested as [req|]; [|auto].
    destruct (Py.str_truthy (Some req) && file_exists req folder) eqn:Hex; [|auto].
    injection Hr as <-. apply andb_true_iff in Hex as [_ Hex].
    apply file_exists_spec in Hex. auto.
  - intros fp -> Hne Hex. rewrite Hex.
    destruct fp; [contradiction | reflexivity].
  - intros -> Hnone. now apply _find_file_by_prefix_none.
  - intros e -> -> Hne (f & Hf & Hp & He). unfold _find_file_by_prefix.
    assert (Hin : In f (List.filter (fun f => Py.startswith prefix (file_name f)) folder))
      by (apply filter_In; auto).
    destruct (List.filter _ folder) as [|f0 fs] eqn:Hfiles; [destruct Hin|].
    rewrite <- Hfiles in *. clear Hfiles f0 fs.
    assert (Ht : Py.str_truthy (Some e) = true) by (destruct e; [contradiction | reflexivity]).
    rewrite Ht.
    destruct (List.find (fun f => endswith (lower e) (lower (file_name f))) _)
      as [g|] eqn:Hfind.
    + apply find_some in Hfind as [Hg Hge]. apply filter_In in Hg as [_ Hgp].
      exists (file_name g). cbn. auto.
    + exfalso. pose proof (find_none _ _ Hfind f Hin) as Hno. cbn in Hno. congruence.
Qed.

(** The library reports nothing; the folder holds the video and the mp3 of
    the job and a file of another job; the mp3 is preferred. *)
Lemma file_discovery_witness :
  let file n := {| file_name := n; file_size := 1; file_mtime := inject_Z 1 |} in
  let folder := [file "1699999999999.mp4"; file "1700000000000.webm";
                 file "1700000000000.MP3"] in
  exists fp,
    _find_downloaded_file None "1700000000000" (Some ".mp3") folder = Some fp /\
    Py.startswith "1700000000000" fp = true /\
    endswith (lower ".mp3") (lower fp) = true.
Proof.
  cbv zeta.
  refine (proj2 (proj2 (proj2 (file_discovery None "1700000000000" (Some ".mp3") _)))
            ".mp3" eq_refl eq_refl _ _).
  - discriminate.
  - eexists. split; [right; right; left; reflexivity|]. split; reflexivity.
Defined.

(** ** Why a download is aborted *)

Section HookAborts.

Variable MAX_SEND_BYTES : Z.
Variable tg : platform.
Variable tmp : string.
Variable j : job.

(** The two reasons for which the hook raises. *)
Lemma progress_hook_raises (now : Q) (d : progress_dict) (st : bot_state)
  (ps : gmap string Z) (e : string) :
  (progress_hook MAX_SEND_BYTES tg tmp j now d st ps).2 = Raised e ->
  (e = cancelled_by_user /\
   _is_cancelled (job_id j)
     (progress_hook MAX_SEND_BYTES tg tmp j now d st ps).1.1 = true) \/
  (String.eqb (mode j) "audio" = false /\
   exists total, total_bytes d = Some (Py.Int total) /\ MAX_SEND_BYTES < total /\
                 e = too_large_during_download MAX_SEND_BYTES total).
Proof.
  unfold progress_hook.
  destruct (_is_cancelled (job_id j) st) eqn:Hc.
  { cbn. intros [= <-]. now left. }
  destruct (Py.str_truthy (Some (hook_filename d)) &&
            negb (contains tmp (basename (hook_filename d)))); [discriminate|].
  destruct (status_is "downloading" d).
  - destruct (_calc_download_progress d ps) as [[[pct done_b] total_b] ps'].
    destruct (total_bytes d) as [[total|q]|]; cbn [Py.as_int]; try discriminate.
    destruct (MAX_SEND_BYTES <? total) eqn:Hbig; cbn [andb]; [|discriminate].
    destruct (String.eqb (mode j) "audio") eqn:Hm; cbn [negb]; [discriminate|].
    cbn. intros [= <-]. right. split; [reflexivity|].
    exists total. apply Z.ltb_lt in Hbig. auto.
  - destruct (status_is "finished" d); discriminate.
Qed.

Lemma run_hooks_raises (events : list hook_event) :
  forall (st : bot_state) (ps : gmap string Z) (e : string),
    (run_hooks MAX_SEND_BYTES tg tmp j events st ps).2 = Raised e ->
    (e = cancelled_by_user /\
     _is_cancelled (job_id j)
       (run_hooks MAX_SEND_BYTES tg tmp j events st ps).1.1 = true) \/
    (String.eqb (mode j) "audio" = false /\
     exists ev total, In ev events /\
       total_bytes (he_d ev) = Some (Py.Int total) /\ MAX_SEND_BYTES < total /\
       e = too_large_during_download MAX_SEND_BYTES total).
Proof.
  induction events as [|ev events IH]; intros st ps e; cbn [run_hooks]; [discriminate|].
  pose proof (progress_hook_raises (he_now ev) (he_d ev)
                (run_calls tg (he_calls ev) st) ps) as Hhook.
  destruct (progress_hook MAX_SEND_BYTES tg tmp j (he_now ev) (he_d ev)
              (run_calls tg (he_calls ev) st) ps) as [[st1 ps1] [|e1]]; cbn [fst snd] in *.
  - intros H. destruct (IH st1 ps1 e H) as [Hc|(Hm & ev' & total & Hin & Ht)];
      [now left|]. right. split; [exact Hm|]. exists ev', total. split; [now right | exact Ht].
  - intros [= <-]. destruct (Hhook e1 eq_refl) as [Hc|(Hm & total & Ht)]; [now left|].
    right. split; [exact Hm|]. exists ev, total. split; [now left | exact Ht].
Qed.

End HookAborts.

(** X19. The progress hook aborts a download for two reasons only: the
    job's cancellation flag is set when a signal arrives (and it is set in
    the state the hook leaves), or a signal carries an integer total
    size above the ceiling while the job is not an audio job.  An audio
    job is never aborted for its download size. *)
Theorem download_aborts_only_for (MAX_SEND_BYTES : Z) (tg : platform) (tmp : string)
  (j : job) (events : list hook_event) (st : bot_state) (ps : gmap string Z)
  (e : string) :
  (run_hooks MAX_SEND_BYTES tg tmp j events st ps).2 = Raised e ->
  (e = "Cancelled by user" /\
   _is_cancelled (job_id j) (run_hooks MAX_SEND_BYTES tg tmp j events st ps).1.1 = true) \/
  (mode j <> "audio" /\
   exists ev total, In ev events /\
     total_bytes (he_d ev) = Some (Py.Int total) /\ MAX_SEND_BYTES < total /\
     e = "This video is too large: " +:+ _fmt_bytes (Some total)
         +:+ " > limit " +:+ _fmt_bytes (Some MAX_SEND_BYTES)).
Proof.
  intros H. destruct (run_hooks_raises MAX_SEND_BYTES tg tmp j events st ps e H)
    as [Hc|(Hm & Hrest)]; [now left|].
  right. split; [|exact Hrest]. intros Heq. rewrite Heq in Hm. discriminate.
Qed.

(** A video job whose second signal reveals a total of 60,000,000 bytes. *)
Lemma download_aborts_only_for_witness :
  let j :=
    {| job_id := "3f9a"; j_chat_id := 70; j_reply_to_message_id := 40;
       j_status_message_id := 41; j_url := "https://v/1"; j_title := "Clip";
       mode := "video"; j_plan := unknown_plan |} in
  let d total :=
    {| status := Some "downloading"; filename := Some "out/1700000000000.mp4";
       tmpfilename := None; downloaded_bytes := Some (Py.Int 1000);
       total_bytes := total; fragment_count := None;
       fragment_index := None; total_bytes_estimate := Some (Py.Int 70000000) |} in
  let events :=
    [ {| he_calls := []; he_now := inject_Z 2; he_d := d None |};
      {| he_calls := []; he_now := inject_Z 3; he_d := d (Some (Py.Int 60000000)) |} ] in
  let e := "This video is too large: 57.2 MB > limit 47.7 MB" in
  (e = "Cancelled by user" /\
   _is_cancelled (job_id j)
     (run_hooks 50000000 (fun _ _ => Some 41) "1700000000000" j events empty_state
        initial_progress_state).1.1 = true) \/
  (mode j <> "audio" /\
   exists ev total, In ev events /\
     total_bytes (he_d ev) = Some (Py.Int total) /\ 50000000 < total /\
     e = "This video is too large: " +:+ _fmt_bytes (Some total)
         +:+ " > limit " +:+ _fmt_bytes (Some 50000000)).
Proof.
  cbv zeta.
  refine (download_aborts_only_for 50000000 (fun _ _ => Some 41) "1700000000000" _ _
            empty_state initial_progress_state _ _).
  vm_compute. reflexivity.
Defined.

(** ** The sweep of the pending store *)

Lemma expired_ids_fresh (now : Q) (pr : gmap string pending) :
  (forall rid e, pr !! rid = Some e ->
                 Py.Qlt_bool PENDING_TTL_SEC (now - created_at e) = false) ->
  expired_ids now pr = [].
Proof.
  intros Hfresh. destruct (expired_ids now pr) as [|rid rids] eqn:He; [reflexivity|].
  assert (Hin : rid ∈ expired_ids now pr) by (rewrite He; apply list_elem_of_here).
  apply elem_of_expired_ids in Hin as (data & Hd & Hold).
  rewrite (Hfresh rid data Hd) in Hold. discriminate.
Qed.

(** X20. After a sweep every entry of the pending store was in it before
    and is no older than the time-to-live; the sweep changes nothing but
    the pending store, and sweeping again at the same time changes
    nothing at all. *)
Theorem sweep_leaves_fresh_entries (now : Q) (st : bot_state) :
  let st' := _cleanup_pending now st in
  (forall rid e, pending_requests st' !! rid = Some e ->
     pending_requests st !! rid = Some e /\
     (now - created_at e <= PENDING_TTL_SEC)%Q) /\
  jobs_q st' = jobs_q st /\ cancel_events st' = cancel_events st /\
  active_jobs st' = active_jobs st /\ outbox st' = outbox st /\
  output_folder st' = output_folder st /\
  _cleanup_pending now st' = st'.
Proof.
  cbv zeta.
  assert (Hfresh : forall rid e,
            pending_requests (_cleanup_pending now st) !! rid = Some e ->
            pending_requests st !! rid = Some e /\
            Py.Qlt_bool PENDING_TTL_SEC (now - created_at e) = false).
  { intros rid e He. unfold _cleanup_pending in He. cbn in He.
    apply lookup_foldr_delete_Some in He as [Hnot He]. split; [exact He|].
    destruct (Py.Qlt_bool PENDING_TTL_SEC (now - created_at e)) eqn:Hold; [|reflexivity].
    exfalso. apply Hnot, elem_of_expired_ids. eauto. }
  split; [|do 5 (split; [reflexivity|])].
  - intros rid e He. destruct (Hfresh rid e He) as [Hin Hold]. split; [exact Hin|].
    unfold Py.Qlt_bool in Hold. now apply negb_false_iff, Qle_bool_iff in Hold.
  - unfold _cleanup_pending at 1.
    rewrite (expired_ids_fresh now (pending_requests (_cleanup_pending now st))).
    + cbn [foldr]. now destruct (_cleanup_pending now st).
    + intros rid e He. now destruct (Hfresh rid e He).
Qed.

(** ** The unit chosen by [_fmt_bytes] *)

Lemma Qle_bool_1024_0 (n : Z) :
  Qle_bool (inject_Z 1024) (inject_Z n) = (1024 <=? n).
Proof. unfold Qle_bool. cbn. f_equal; lia. Qed.

Lemma Qle_bool_1024_1 (n : Z) :
  Qle_bool (inject_Z 1024) (inject_Z n / inject_Z 1024)%Q = (1024 ^ 2 <=? n).
Proof. unfold Qle_bool. cbn. f_equal; lia. Qed.

Lemma Qle_bool_1024_2 (n : Z) :
  Qle_bool (inject_Z 1024) (inject_Z n / inject_Z 1024 / inject_Z 1024)%Q = (1024 ^ 3 <=? n).
Proof. unfold Qle_bool. cbn. f_equal; lia. Qed.

(** The loop of [_fmt_bytes] on a size: how many times it divides. *)
Lemma fmt_scale_index (n : Z) :
  fmt_scale (length units - 1) (inject_Z n) 0 =
  if 1024 <=? n then
    if 1024 ^ 2 <=? n then
      if 1024 ^ 3 <=? n
      then ((inject_Z n / inject_Z 1024 / inject_Z 1024 / inject_Z 1024)%Q, 3%nat)
      else ((inject_Z n / inject_Z 1024 / inject_Z 1024)%Q, 2%nat)
    else ((inject_Z n / inject_Z 1024)%Q, 1%nat)
  else (inject_Z n, 0%nat).
Proof.
  change (length units - 1)%nat with 3%nat. cbn [fmt_scale].
  change (length units - 1)%nat with 3%nat.
  rewrite Qle_bool_1024_0. destruct (1024 <=? n); [|reflexivity]. cbn [andb Nat.ltb Nat.leb].
  rewrite Qle_bool_1024_1. destruct (1024 ^ 2 <=? n); [|reflexivity]. cbn [andb Nat.ltb Nat.leb].
  rewrite Qle_bool_1024_2. destruct (1024 ^ 3 <=? n); reflexivity.
Qed.

(** The integer chosen by [round_half_even] is within one half of the
    rational it rounds. *)
Lemma round_half_even_near (q : Q) :
  Z.abs (2 * QDen q * round_half_even q - 2 * Qnum q) <= QDen q.
Proof.
  destruct q as [a b]. unfold round_half_even, Qfloor, Qcompare.
  cbn [Qnum Qden Qminus Qplus Qopp inject_Z].
  pose proof (Z.div_mod a (Z.pos b) ltac:(lia)) as Hdm.
  pose proof (Z.mod_pos_bound a (Z.pos b) ltac:(lia)) as Hm.
  remember (a / Z.pos b) as f eqn:Hf. clear Hf.
  remember (a mod Z.pos b) as m eqn:Hm'. clear Hm'.
  rewrite Pos.mul_1_r, Z.mul_1_r, Z.mul_1_l.
  replace (a + - f * Z.pos b) with m by lia.
  destruct (Z.compare_spec (m * 2) (Z.pos b)) as [Hc|Hc|Hc].
  - destruct (Z.even f); lia.
  - lia.
  - lia.
Qed.

(** X21. [_fmt_bytes] answers "unknown" for a missing or negative size and
    shows a size below 1024 exactly in bytes.  Any other size (below
    [2^53], where the conversion to a float is exact) is shown with one
    decimal digit in the largest of KB, MB and GB that the size reaches,
    GB being used for everything from [1024^3] on; the number of tenths
    shown is an integer nearest to ten times the size in that unit. *)
Theorem fmt_bytes_unit (n : Z) :
  _fmt_bytes None = "unknown" /\
  (n < 0 -> _fmt_bytes (Some n) = "unknown") /\
  (0 <= n < 1024 -> _fmt_bytes (Some n) = pretty n +:+ " B") /\
  (1024 <= n < 2 ^ 53 ->
   exists (i : nat) (unit : string) (tenths : Z),
     _fmt_bytes (Some n)
     = pretty (tenths / 10) +:+ "." +:+ pretty (tenths mod 10) +:+ " " +:+ unit /\
     0 <= tenths mod 10 <= 9 /\
     (1 <= i <= 3)%nat /\ units !! i = Some unit /\
     1024 ^ Z.of_nat i <= n /\
     ((i < 3)%nat -> n < 1024 ^ (Z.of_nat i + 1)) /\
     Z.abs (2 * 1024 ^ Z.of_nat i * tenths - 20 * n) <= 1024 ^ Z.of_nat i).
Proof.
  split; [reflexivity|]. split; [|split].
  - intros Hneg. unfold _fmt_bytes. apply Z.ltb_lt in Hneg. now rewrite Hneg.
  - intros [H0 H1]. unfold _fmt_bytes.
    destruct (n <? 0) eqn:Hn; [apply Z.ltb_lt in Hn; lia|].
    rewrite fmt_scale_index.
    destruct (1024 <=? n) eqn:Hk; [apply Z.leb_le in Hk; lia|].
    cbn [units lookup list_lookup default from_option id].
    unfold Py.trunc. cbn [inject_Z Qnum Qden]. now rewrite Z.quot_1_r.
  - intros [Hk _]. unfold _fmt_bytes.
    destruct (n <? 0) eqn:Hn; [apply Z.ltb_lt in Hn; lia|].
    rewrite fmt_scale_index. apply Z.leb_le in Hk. rewrite Hk. apply Z.leb_le in Hk.
    destruct (1024 ^ 2 <=? n) eqn:H2; [destruct (1024 ^ 3 <=? n) eqn:H3|].
    + apply Z.leb_le in H2, H3. exists 3%nat, "GB".
      pose proof (round_half_even_near
                    (inject_Z n / inject_Z 1024 / inject_Z 1024 / inject_Z 1024
                     * inject_Z 10)%Q) as Hnear.
      remember (round_half_even
                  (inject_Z n / inject_Z 1024 / inject_Z 1024 / inject_Z 1024
                   * inject_Z 10)%Q) as r eqn:Hr.
      exists r. split; [now rewrite Hr|].
      split; [pose proof (Z.mod_pos_bound r 10 ltac:(lia)); lia|].
      split; [lia|]. split; [reflexivity|].
      split; [exact H3|]. split; [lia|].
      change (Z.of_nat 3) with 3. cbn in Hnear. lia.
    + apply Z.leb_le in H2. apply Z.leb_gt in H3. exists 2%nat, "MB".
      pose proof (round_half_even_near
                    (inject_Z n / inject_Z 1024 / inject_Z 1024 * inject_Z 10)%Q) as Hnear.
      remember (round_half_even
                  (inject_Z n / inject_Z 1024 / inject_Z 1024 * inject_Z 10)%Q) as r eqn:Hr.
      exists r. split; [now rewrite Hr|].
      split; [pose proof (Z.mod_pos_bound r 10 ltac:(lia)); lia|].
      split; [lia|]. split; [reflexivity|]. split; [exact H2|].
      split; [intros _; exact H3|].
      change (Z.of_nat 2) with 2. cbn in Hnear. lia.
    + apply Z.leb_gt in H2. exists 1%nat, "KB".
      pose proof (round_half_even_near
                    (inject_Z n / inject_Z 1024 * inject_Z 10)%Q) as Hnear.
      remember (round_half_even (inject_Z n / inject_Z 1024 * inject_Z 10)%Q) as r eqn:Hr.
      exists r. split; [now rewrite Hr|].
      split; [pose proof (Z.mod_pos_bound r 10 ltac:(lia)); lia|].
      split; [lia|]. split; [reflexivity|]. split; [exact Hk|].
      split; [intros _; exact H2|].
      change (Z.of_nat 1) with 1. cbn in Hnear. lia.
Qed.

(** ** The headers read by the range probe *)

Lemma drop_while_stop (p : ascii -> bool) (a : list ascii) (c : ascii) (b : list ascii) :
  p c = false -> drop_while p (a ++ c :: b) = drop_while p a ++ c :: b.
Proof.
  intros Hc. induction a as [|x a IH]; cbn [drop_while app].
  - now rewrite Hc.
  - destruct (p x); [exact IH | reflexivity].
Qed.

Lemma drop_while_all (p : ascii -> bool) (a b : list ascii) :
  List.Forall (fun c => p c = true) a -> drop_while p (a ++ b) = drop_while p b.
Proof.
  induction 1 as [|x a Hx _ IH]; cbn [drop_while app]; [reflexivity|].
  now rewrite Hx.
Qed.







Lemma list_ascii_of_string_app (a b : string) :
  list_ascii_of_string (a +:+ b) = list_ascii_of_string a ++ list_ascii_of_string b.
Proof.
  induction a as [|c a IH]; [reflexivity|].
  change (list_ascii_of_string (String c (a +:+ b))
          = c :: (list_ascii_of_string a ++ list_ascii_of_string b)).
  cbn [list_ascii_of_string]. now rewrite IH.
Qed.

Lemma string_of_list_ascii_app (a b : list ascii) :
  string_of_list_ascii (a ++ b) = string_of_list_ascii a +:+ string_of_list_ascii b.
Proof.
  induction a as [|c a IH]; [reflexivity|].
  cbn [app string_of_list_ascii]. rewrite IH. reflexivity.
Qed.








(** ** Why an upload is abandoned *)

Lemma run_chunks_raises (tg : platform) (j : job) (stage_label : string)
  (chunks : list upload_chunk) (st : bot_state) (e : string) :
  (run_chunks tg j stage_label chunks st).2 = Raised e ->
  e = cancelled_by_user /\
  _is_cancelled (job_id j) (run_chunks tg j stage_label chunks st).1 = true.
Proof.
  revert st. induction chunks as [|c chunks IH]; intros st; cbn [run_chunks].
  - discriminate.
  - unfold upload_callback.
    destruct (_is_cancelled (job_id j) (run_calls tg (uc_calls c) st)) eqn:Hc.
    + cbn [snd fst]. intros [= <-]. now split.
    + apply IH.
Qed.

(** X23. How [_send_via_bot_api_with_progress] ends.  It completes only
    when the platform has answered the post with [ok], and the last thing
    it does is then a forced edit of the status message to 100% with the
    size of the file.  It raises for two reasons only: the job's
    cancellation flag is set (and the error is "Cancelled by user"), or
    the post itself failed (it raised, its answer was not JSON, or the
    answer was not [ok]); in the second case the error text comes from the
    post. *)
Theorem upload_fails_only_for (tg : platform) (env : job_env) (j : job)
  (file_path stage_label : string) (st : bot_state) :
  let r := _send_via_bot_api_with_progress tg env j file_path stage_label st in
  let size :=
    if file_exists file_path (output_folder st)
    then getsize file_path (output_folder st) else 0 in
  (r.2 = Normal ->
   (exists d, up_result (upload env) = post_json true d) /\
   exists st0,
     r.1 = _safe_edit tg (now_sent env) (j_chat_id j) (j_status_message_id j)
             (render_upload (j_title j) stage_label (Some 100) (Some size) (Some size))
             (Some (_cancel_markup (job_id j))) true st0) /\
  (forall e, r.2 = Raised e ->
     (e = "Cancelled by user" /\ _is_cancelled (job_id j) r.1 = true) \/
     up_result (upload env) = post_raises e \/
     (exists code, up_result (upload env) = post_not_json code /\
                   e = "Telegram API error: HTTP " +:+ pretty code) \/
     (exists d, up_result (upload env) = post_json false (Some d) /\
                e = "Telegram API error: " +:+ d) \/
     (up_result (upload env) = post_json false None /\
      e = "Telegram API error: Unknown error")).
Proof.
  cbv zeta. unfold _send_via_bot_api_with_progress.
  remember (_safe_edit tg (now_upload env) (j_chat_id j) (j_status_message_id j) _ _ true st)
    as st1 eqn:Hst1. clear Hst1.
  destruct (_is_cancelled (job_id j) st1) eqn:Hc1.
  { cbn [fst snd]. split; [discriminate|]. intros e [= <-]. left. now split. }
  pose proof (run_chunks_raises tg j stage_label (up_chunks (upload env)) st1) as Hraise.
  destruct (run_chunks tg j stage_label (up_chunks (upload env)) st1) as [st2 [|e2]].
  - clear Hraise.
    destruct (up_result (upload env)) as [e3|code|[|] d]; cbn [fst snd].
    + split; [discriminate|]. intros e [= <-]. right. now left.
    + split; [discriminate|]. intros e [= <-]. right. right. left. now exists code.
    + split; [|discriminate]. intros _. split; [now exists d|]. now exists st2.
    + split; [discriminate|]. intros e [= <-]. right. right. right.
      destruct d as [d|]; [left; now exists d | right; now split].
  - cbn [fst snd] in *. split; [discriminate|]. intros e [= <-]. left.
    exact (Hraise e2 eq_refl).
Qed.

(** ** The argument of [/custom] *)

Lemma split_on_parts (sep : ascii) (s : string) :
  List.Forall (fun w => split_on sep w = [w]) (split_on sep s).
Proof.
  induction s as [|c s IH]; cbn [split_on].
  - constructor; [reflexivity | constructor].
  - destruct (Ascii.eqb c sep) eqn:Hc.
    + constructor; [reflexivity | exact IH].
    + destruct (split_on sep s) as [|w ws] eqn:Hs;
        [now apply split_on_nonempty in Hs|].
      apply List.Forall_cons_iff in IH as [Hw Hws].
      constructor; [|exact Hws]. cbn [split_on]. now rewrite Hc, Hw.
Qed.

Lemma split_on_single (sep : ascii) (s : string) :
  (length (split_on sep s) < 2)%nat -> split_on sep s = [s].
Proof.
  induction s as [|c s IH]; cbn [split_on]; [reflexivity|].
  destruct (Ascii.eqb c sep).
  - cbn [length]. pose proof (split_on_nonempty sep s).
    destruct (split_on sep s); [congruence | cbn [length]; lia].
  - destruct (split_on sep s) as [|w ws] eqn:Hs;
      [now apply split_on_nonempty in Hs|].
    cbn [length] in *. intros Hlen. specialize (IH Hlen).
    injection IH as -> ->. reflexivity.
Qed.

(** X24. [get_text] returns the second of the pieces that single spaces
    cut the text into: the word that follows the command, whatever
    follows that word, and the empty string when two spaces follow the
    command.  What it takes from the message's own text never contains a
    space.  Only a text without any space makes it look at the message
    replied to, whose text it returns when there is one. *)
Theorem get_text_second_piece (m : text_message) (t : string) :
  tm_text m = Some t ->
  (forall cmd arg : string,
      split_on " " cmd = [cmd] -> split_on " " arg = [arg] ->
      (t = cmd +:+ " " +:+ arg -> get_text m = Some arg) /\
      (forall rest, t = cmd +:+ " " +:+ arg +:+ " " +:+ rest -> get_text m = Some arg)) /\
  (split_on " " t <> [t] ->
   exists r, get_text m = Some r /\ split_on " " r = [r]) /\
  (split_on " " t = [t] -> t <> "" ->
   get_text m =
   match tm_reply_to_message m with
   | Some (Some "") | Some None | None => None
   | Some (Some s) => Some s
   end).
Proof.
  intros Ht.
  assert (Hmany : forall a b bs, split_on " " t = a :: b :: bs -> get_text m = Some b).
  { intros a b bs Hs. unfold get_text. rewrite Ht.
    destruct t as [|c t]; [discriminate|]. cbn [Py.str_truthy negb default from_option id].
    unfold default. cbn [from_option id]. rewrite Hs. reflexivity. }
  split; [|split].
  - intros cmd arg Hcmd Harg. split.
    + intros ->. eapply Hmany.
      change (cmd +:+ " " +:+ arg) with (cmd +:+ String " " arg).
      rewrite (split_on_cons " " cmd arg Hcmd), Harg. reflexivity.
    + intros rest ->. eapply Hmany.
      change (cmd +:+ " " +:+ arg +:+ " " +:+ rest)
        with (cmd +:+ String " " (arg +:+ String " " rest)).
      rewrite (split_on_cons " " cmd _ Hcmd), (split_on_cons " " arg rest Harg).
      reflexivity.
  - intros Hne. pose proof (split_on_parts " " t) as Hparts.
    destruct (split_on " " t) as [|a [|b bs]] eqn:Hs.
    + now apply split_on_nonempty in Hs.
    + exfalso. apply Hne. rewrite <- Hs. apply split_on_single. rewrite Hs. cbn. lia.
    + exists b. split; [exact (Hmany a b bs eq_refl)|].
      apply List.Forall_cons_iff in Hparts as [_ Hparts].
      now apply List.Forall_cons_iff in Hparts as [Hb _].
  - intros Hone Hne. unfold get_text. rewrite Ht.
    destruct t as [|c t]; [congruence|]. cbn [Py.str_truthy negb].
    unfold default. cbn [from_option id]. rewrite Hone. cbn [length Nat.ltb Nat.leb].
    destruct (tm_reply_to_message m) as [[[|c' s]|]|]; reflexivity.
Qed.

Lemma get_text_second_piece_witness :
  get_text {| tm_text := Some "/custom https://v.example/1 720p";
                 tm_reply_to_message := None |}
  = Some "https://v.example/1".
Proof.
  refine (proj2 (proj1 (get_text_second_piece
                          {| tm_text := Some "/custom https://v.example/1 720p";
                 tm_reply_to_message := None |}
                          "/custom https://v.example/1 720p" eq_refl)
                  "/custom" "https://v.example/1" eq_refl eq_refl) "720p" eq_refl).
Defined.

(** ** The link of a message *)

Lemma string_app_assoc (a b c : string) : (a +:+ b) +:+ c = a +:+ b +:+ c.
Proof.
  induction a as [|x a IH]; [reflexivity|].
  change (String x ((a +:+ b) +:+ c) = String x (a +:+ b +:+ c)). now rewrite IH.
Qed.

Lemma strip_prefix_app (p r : string) : strip_prefix p (p +:+ r) = Some r.
Proof.
  induction p as [|a p IH]; [reflexivity|].
  change (strip_prefix (String a p) (String a (p +:+ r)) = Some r).
  cbn [strip_prefix]. now rewrite Ascii.eqb_refl.
Qed.

Lemma strip_prefix_sound (p s r : string) : strip_prefix p s = Some r -> s = p +:+ r.
Proof.
  revert s. induction p as [|a p IH]; intros [|b s]; cbn [strip_prefix].
  - now intros [= <-].
  - now intros [= <-].
  - discriminate.
  - destruct (Ascii.eqb_spec a b) as [->|_]; [|discriminate].
    intros H. now rewrite (IH s H).
Qed.

Lemma take_non_space_spec (s : string) :
  exists rest, s = take_non_space s +:+ rest /\
               no_space (take_non_space s) = true /\ ends_run rest.
Proof.
  induction s as [|c s (rest & Hs & Hn & Hr)]; cbn [take_non_space].
  - exists "". split; [reflexivity|]. split; [reflexivity|]. now left.
  - destruct (is_space c) eqn:Hc.
    + exists (String c s). split; [reflexivity|]. split; [reflexivity|].
      right. now exists c, s.
    + exists rest. split; [|split; [|exact Hr]].
      * change (String c s = String c (take_non_space s +:+ rest)). now rewrite <- Hs.
      * unfold no_space in *. cbn [list_ascii_of_string forallb]. now rewrite Hc, Hn.
Qed.

Lemma take_non_space_app (run rest : string) :
  no_space run = true -> ends_run rest -> take_non_space (run +:+ rest) = run.
Proof.
  intros Hrun Hrest. induction run as [|c run IH].
  - destruct Hrest as [->|(c & r & -> & Hc)]; [reflexivity|].
    change (take_non_space (String c r) = ""). cbn [take_non_space]. now rewrite Hc.
  - unfold no_space in *. cbn [list_ascii_of_string forallb] in Hrun.
    apply andb_true_iff in Hrun as [Hc Hrun]. apply negb_true_iff in Hc.
    change (take_non_space (String c (run +:+ rest)) = String c run).
    cbn [take_non_space]. now rewrite Hc, (IH Hrun).
Qed.

Lemma url_after_sound (scheme rest v : string) :
  url_after scheme rest = Some v ->
  exists run tail, v = scheme +:+ run /\ run <> "" /\ no_space run = true /\
                   rest = run +:+ tail.
Proof.
  unfold url_after. destruct (take_non_space_spec rest) as (tail & Hrest & Hn & _).
  destruct (take_non_space rest) as [|c run] eqn:Hrun; [discriminate|].
  intros [= <-]. exists (String c run), tail. repeat split; [discriminate | exact Hn | exact Hrest].
Qed.

Lemma url_here_sound (s v : string) :
  url_here s = Some v ->
  exists scheme run tail,
    is_scheme scheme /\ v = scheme +:+ run /\ run <> "" /\ no_space run = true /\
    s = v +:+ tail.
Proof.
  unfold url_here.
  destruct (strip_prefix "https://" s) as [rest|] eqn:Hs.
  - intros H. apply url_after_sound in H as (run & tail & -> & Hne & Hn & ->).
    apply strip_prefix_sound in Hs. exists "https://", run, tail.
    split; [now right|]. repeat split; assumption.
  - destruct (strip_prefix "http://" s) as [rest|] eqn:Hs'; [|discriminate].
    intros H. apply url_after_sound in H as (run & tail & -> & Hne & Hn & ->).
    apply strip_prefix_sound in Hs'. exists "http://", run, tail.
    split; [now left|]. repeat split; assumption.
Qed.

Lemma search_url_sound (s v : string) :
  search_url s = Some v ->
  exists scheme run before tail,
    is_scheme scheme /\ v = scheme +:+ run /\ run <> "" /\ no_space run = true /\
    s = before +:+ v +:+ tail.
Proof.
  induction s as [|c s IH]; cbn [search_url].
  - destruct (url_here "") as [u|] eqn:Hu; [|discriminate].
    intros [= ->]. apply url_here_sound in Hu as (scheme & run & tail & H1 & H2 & H3 & H4 & H5).
    now exists scheme, run, "", tail.
  - destruct (url_here (String c s)) as [u|] eqn:Hu.
    + intros [= ->]. apply url_here_sound in Hu as (scheme & run & tail & H1 & H2 & H3 & H4 & H5).
      now exists scheme, run, "", tail.
    + intros H. destruct (IH H) as (scheme & run & before & tail & H1 & H2 & H3 & H4 & H5).
      exists scheme, run, (String c before), tail. repeat split; try assumption.
      rewrite H5. reflexivity.
Qed.

Lemma drop_while_split (p : ascii -> bool) (l : list ascii) :
  exists taken, l = taken ++ drop_while p l /\ List.Forall (fun c => p c = true) taken.
Proof.
  induction l as [|c l (taken & Hl & Ht)]; cbn [drop_while].
  - exists []. split; [reflexivity | constructor].
  - destruct (p c) eqn:Hc.
    + exists (c :: taken). split; [cbn [app]; now rewrite <- Hl | now constructor].
    + exists []. split; [reflexivity | constructor].
Qed.

Lemma drop_while_none (p : ascii -> bool) (l : list ascii) :
  List.Forall (fun c => p c = false) l -> drop_while p l = l.
Proof. destruct 1 as [|c l Hc _]; cbn [drop_while]; [reflexivity | now rewrite Hc]. Qed.

Lemma rev_last (l : list ascii) :
  match rev l with
  | [] => l = []
  | c :: _ => last l = Some c
  end.
Proof.
  destruct l as [|x l] using List.rev_ind; [reflexivity|].
  rewrite List.rev_app_distr. cbn [rev app]. apply last_snoc.
Qed.

Lemma no_space_forall (s : string) :
  no_space s = true <->
  List.Forall (fun c => is_space c = false) (list_ascii_of_string s).
Proof.
  unfold no_space. rewrite List.forallb_forall, List.Forall_forall.
  split; intros H c Hc; specialize (H c Hc); now apply negb_true_iff.
Qed.

Lemma no_space_app (a b : string) :
  no_space (a +:+ b) = no_space a && no_space b.
Proof. unfold no_space. now rewrite list_ascii_of_string_app, List.forallb_app. Qed.

Lemma strip_no_space (v : string) : no_space v = true -> strip v = v.
Proof.
  intros Hv. apply no_space_forall in Hv. unfold strip.
  rewrite (drop_while_none _ _ Hv).
  rewrite (drop_while_none _ (rev _)) by now apply List.Forall_rev.
  now rewrite List.rev_involutive, string_of_list_ascii_of_string.
Qed.

Lemma strip_decompose (text : string) :
  exists a b, text = a +:+ strip text +:+ b.
Proof.
  unfold strip.
  destruct (drop_while_split is_space (list_ascii_of_string text)) as (t1 & H1 & _).
  set (D1 := drop_while is_space (list_ascii_of_string text)) in *.
  destruct (drop_while_split is_space (rev D1)) as (t2 & H2 & _).
  set (D2 := drop_while is_space (rev D1)) in *.
  exists (string_of_list_ascii t1), (string_of_list_ascii (rev t2)).
  rewrite <- !string_of_list_ascii_app.
  rewrite <- (string_of_list_ascii_of_string text) at 1. f_equal.
  rewrite H1 at 1. f_equal.
  rewrite <- (List.rev_involutive D1), H2, List.rev_app_distr. reflexivity.
Qed.

(** [strip] around a run of non-space characters: only what precedes and
    what follows the run can lose characters. *)
Lemma strip_middle (pre run tail : string) :
  no_space run = true -> run <> "" ->
  exists pre' tail' x y,
    strip (pre +:+ run +:+ tail) = pre' +:+ run +:+ tail' /\
    pre = x +:+ pre' /\ tail = tail' +:+ y.
Proof.
  intros Hrun Hne. apply no_space_forall in Hrun. unfold strip.
  rewrite !list_ascii_of_string_app.
  set (P := list_ascii_of_string pre). set (T := list_ascii_of_string tail).
  assert (HR : list_ascii_of_string run <> []) by now destruct run.
  destruct (list_ascii_of_string run) as [|c0 U1] eqn:HU; [congruence|].
  assert (Hc0 : is_space c0 = false) by now apply List.Forall_cons_iff in Hrun as [? _].
  cbn [app]. rewrite (drop_while_stop is_space P c0 (U1 ++ T) Hc0).
  destruct (drop_while_split is_space P) as (t1 & HP & _).
  set (P' := drop_while is_space P) in *.
  destruct (List.exists_last HR) as (U0 & z & HU0).
  assert (Hz : is_space z = false).
  { rewrite HU0 in Hrun. apply List.Forall_app in Hrun as [_ Hz].
    now apply List.Forall_cons_iff in Hz as [? _]. }
  change (P' ++ c0 :: U1 ++ T) with (P' ++ (c0 :: U1) ++ T). rewrite HU0.
  rewrite !List.rev_app_distr. cbn [rev app]. rewrite <- !List.app_assoc. cbn [app].
  rewrite (drop_while_stop is_space (rev T) z (rev U0 ++ rev P') Hz).
  destruct (drop_while_split is_space (rev T)) as (t2 & HT & _).
  set (T' := drop_while is_space (rev T)) in *.
  exists (string_of_list_ascii P'), (string_of_list_ascii (rev T')),
    (string_of_list_ascii t1), (string_of_list_ascii (rev t2)).
  split; [|split].
  - rewrite <- (string_of_list_ascii_of_string run), HU, HU0.
    rewrite <- !string_of_list_ascii_app. f_equal.
    change (T' ++ z :: rev U0 ++ rev P') with (T' ++ [z] ++ rev U0 ++ rev P').
    rewrite !List.rev_app_distr. cbn [rev app].
    rewrite !List.rev_involutive, <- !List.app_assoc. reflexivity.
  - rewrite <- string_of_list_ascii_app, <- HP. unfold P.
    now rewrite string_of_list_ascii_of_string.
  - rewrite <- string_of_list_ascii_app, <- List.rev_app_distr, <- HT, List.rev_involutive.
    unfold T. now rewrite string_of_list_ascii_of_string.
Qed.

Lemma rstrip_chars_keep (p : ascii -> bool) (a : string) (c : ascii) (b : string) :
  p c = false ->
  rstrip_chars p (a +:+ String c b) = a +:+ String c (rstrip_chars p b).
Proof.
  intros Hc. unfold rstrip_chars. rewrite list_ascii_of_string_app.
  cbn [list_ascii_of_string]. rewrite List.rev_app_distr. cbn [rev].
  rewrite <- List.app_assoc. cbn [app].
  rewrite (drop_while_stop p _ c _ Hc).
  rewrite List.rev_app_distr. cbn [rev]. rewrite List.rev_involutive, <- List.app_assoc.
  cbn [app]. rewrite string_of_list_ascii_app. cbn [string_of_list_ascii].
  now rewrite string_of_list_ascii_of_string.
Qed.

Lemma rstrip_chars_spec (p : ascii -> bool) (s : string) :
  exists dropped,
    s = rstrip_chars p s +:+ dropped /\
    (forall c, last (list_ascii_of_string (rstrip_chars p s)) = Some c -> p c = false).
Proof.
  unfold rstrip_chars.
  destruct (drop_while_split p (rev (list_ascii_of_string s))) as (t & Ht & _).
  exists (string_of_list_ascii (rev t)). split.
  - rewrite <- string_of_list_ascii_app, <- List.rev_app_distr, <- Ht, List.rev_involutive.
    now rewrite string_of_list_ascii_of_string.
  - intros c. rewrite list_ascii_of_string_of_list_ascii.
    pose proof (rev_last (rev (drop_while p (rev (list_ascii_of_string s))))) as Hl.
    rewrite List.rev_involutive in Hl.
    destruct (drop_while p (rev (list_ascii_of_string s))) as [|z r] eqn:Hd.
    + discriminate.
    + rewrite Hl. intros [= <-].
      clear - Hd. induction (rev (list_ascii_of_string s)) as [|x l IH];
        cbn [drop_while] in Hd; [discriminate|].
      destruct (p x) eqn:Hx; [now apply IH|]. now injection Hd as -> _.
Qed.

Lemma rstrip_chars_drop (p : ascii -> bool) (a punct : string) :
  forallb p (list_ascii_of_string punct) = true ->
  (forall c, last (list_ascii_of_string a) = Some c -> p c = false) ->
  rstrip_chars p (a +:+ punct) = a.
Proof.
  intros Hp Ha. unfold rstrip_chars.
  rewrite list_ascii_of_string_app, List.rev_app_distr, drop_while_all.
  2:{ apply List.Forall_rev, List.Forall_forall. intros c Hc.
      rewrite List.forallb_forall in Hp. now apply Hp. }
  pose proof (rev_last (list_ascii_of_string a)) as Hl.
  destruct (rev (list_ascii_of_string a)) as [|z r] eqn:Hr.
  - cbn [drop_while rev]. rewrite <- (string_of_list_ascii_of_string a), Hl. reflexivity.
  - cbn [drop_while]. rewrite (Ha z Hl). rewrite <- Hr, List.rev_involutive.
    apply string_of_list_ascii_of_string.
Qed.

Lemma is_scheme_slash (scheme : string) :
  is_scheme scheme ->
  exists a, scheme = a +:+ "/" /\ no_space scheme = true /\
            strip_prefix "h" scheme <> None.
Proof.
  intros [->| ->]; [exists "http:/" | exists "https:/"];
    (split; [reflexivity|]); (split; [reflexivity | discriminate]).
Qed.

(** X25. On ASCII text, the link [_extract_first_url] returns is a piece
    of the text that starts with ["http://"] or ["https://"], contains no
    white space and does not end with one of the closing characters that
    the function removes. *)
Theorem extracted_url_shape (text u : string) :
  _extract_first_url text = Some u ->
  exists scheme run before after : string,
    is_scheme scheme /\ u = scheme +:+ run /\ no_space run = true /\
    (forall c, last (list_ascii_of_string run) = Some c -> is_url_trailing c = false) /\
    text = before +:+ u +:+ after.
Proof.
  unfold _extract_first_url.
  destruct (negb (Py.str_truthy (Some text))); [discriminate|].
  destruct (search_url (strip text)) as [v|] eqn:Hv; [|discriminate].
  intros [= <-].
  apply search_url_sound in Hv
    as (scheme & run0 & before0 & tail0 & Hscheme & -> & _ & Hrun0 & Hstrip).
  destruct (is_scheme_slash scheme Hscheme) as (a & Ha & Hns & _).
  rewrite strip_no_space by (rewrite no_space_app, Hns, Hrun0; reflexivity).
  destruct (rstrip_chars_spec is_url_trailing run0) as (dropped & Hdrop & Hlast).
  assert (Hu : rstrip_chars is_url_trailing (scheme +:+ run0)
               = scheme +:+ rstrip_chars is_url_trailing run0).
  { rewrite Ha, !string_app_assoc. change ("/" +:+ run0) with (String "/" run0).
    now rewrite rstrip_chars_keep. }
  rewrite Hu. set (run := rstrip_chars is_url_trailing run0) in *.
  destruct (strip_decompose text) as (x & y & Htext).
  exists scheme, run, (x +:+ before0), (dropped +:+ tail0 +:+ y).
  split; [exact Hscheme|]. split; [reflexivity|]. split.
  { rewrite Hdrop, no_space_app in Hrun0. now apply andb_true_iff in Hrun0 as [? _]. }
  split; [exact Hlast|].
  rewrite Htext at 1. rewrite Hstrip, Hdrop. now rewrite !string_app_assoc.
Qed.

Lemma extracted_url_shape_witness :
  exists scheme run before after : string,
    is_scheme scheme /\ "https://youtu.be/abc" = scheme +:+ run /\ no_space run = true /\
    (forall c, last (list_ascii_of_string run) = Some c -> is_url_trailing c = false) /\
    " (see https://youtu.be/abc). Thanks" = before +:+ "https://youtu.be/abc" +:+ after.
Proof.
  apply (extracted_url_shape " (see https://youtu.be/abc). Thanks" "https://youtu.be/abc").
  reflexivity.
Defined.

Lemma search_url_skip (pre s : string) :
  forallb (fun c => negb (Ascii.eqb c "h")) (list_ascii_of_string pre) = true ->
  search_url (pre +:+ s) = search_url s.
Proof.
  induction pre as [|c pre IH]; [reflexivity|].
  cbn [list_ascii_of_string forallb]. intros H.
  apply andb_true_iff in H as [Hc Hpre]. apply negb_true_iff in Hc.
  change (search_url (String c (pre +:+ s)) = search_url s).
  cbn [search_url]. unfold url_here. cbn [strip_prefix].
  rewrite Ascii.eqb_sym, Hc. now apply IH.
Qed.

Lemma search_url_here (s u : string) : url_here s = Some u -> search_url s = Some u.
Proof. intros H. destruct s; cbn [search_url]; now rewrite H. Qed.

Lemma url_here_run (scheme run tail : string) :
  is_scheme scheme -> no_space run = true -> run <> "" -> ends_run tail ->
  url_here (scheme +:+ run +:+ tail) = Some (scheme +:+ run).
Proof.
  intros Hscheme Hrun Hne Htail.
  assert (Hafter : url_after scheme (run +:+ tail) = Some (scheme +:+ run)).
  { unfold url_after. rewrite (take_non_space_app run tail Hrun Htail).
    now destruct run. }
  unfold url_here. destruct Hscheme as [->| ->].
  - change (strip_prefix "https://" ("http://" +:+ run +:+ tail)) with (@None string).
    now rewrite strip_prefix_app.
  - now rewrite strip_prefix_app.
Qed.

(** X26. An ASCII message made of any text without the letter [h], a
    link, and either nothing more or white space followed by anything
    yields that link: the scheme and every non-space character after it up
    to the white space, less the closing characters at its end.  (Outside
    ASCII the source's [\S] also stops at Unicode white space, which
    [is_space] does not know.) *)
Theorem link_is_extracted (pre scheme body punct tail : string) :
  ascii_text (pre +:+ scheme +:+ body +:+ punct +:+ tail) = true ->
  forallb (fun c => negb (Ascii.eqb c "h")) (list_ascii_of_string pre) = true ->
  is_scheme scheme ->
  no_space (body +:+ punct) = true ->
  body +:+ punct <> "" ->
  (forall c, last (list_ascii_of_string body) = Some c -> is_url_trailing c = false) ->
  forallb is_url_trailing (list_ascii_of_string punct) = true ->
  ends_run tail ->
  _extract_first_url (pre +:+ scheme +:+ body +:+ punct +:+ tail)
  = Some (scheme +:+ body).
Proof.
  intros _ Hpre Hscheme Hrun Hne Hbody Hpunct Htail.
  destruct (is_scheme_slash scheme Hscheme) as (a & Ha & Hns & Hh).
  set (run := body +:+ punct) in *.
  assert (HU : no_space (scheme +:+ run) = true) by now rewrite no_space_app, Hns, Hrun.
  assert (HUne : scheme +:+ run <> "") by (destruct Hscheme as [->| ->]; discriminate).
  destruct (strip_middle pre (scheme +:+ run) tail HU HUne)
    as (pre' & tail' & x & y & Hstrip & Hx & Hy).
  assert (Htext : pre +:+ scheme +:+ body +:+ punct +:+ tail
                  = pre +:+ (scheme +:+ run) +:+ tail).
  { unfold run. now rewrite !string_app_assoc. }
  rewrite Htext. unfold _extract_first_url.
  assert (Htruthy : Py.str_truthy (Some (pre +:+ (scheme +:+ run) +:+ tail)) = true).
  { destruct pre; [|reflexivity]. destruct Hscheme as [->| ->]; reflexivity. }
  rewrite Htruthy. cbn [negb]. rewrite Hstrip.
  assert (Hpre' : forallb (fun c => negb (Ascii.eqb c "h")) (list_ascii_of_string pre') = true).
  { rewrite Hx, list_ascii_of_string_app, List.forallb_app in Hpre.
    now apply andb_true_iff in Hpre as [_ ?]. }
  assert (Htail' : ends_run tail').
  { destruct tail' as [|c r]; [now left|]. right. exists c, r. split; [reflexivity|].
    destruct Htail as [->|(c' & r' & -> & Hc')]; [discriminate|].
    now injection Hy as -> _. }
  rewrite (search_url_skip pre' _ Hpre'), string_app_assoc.
  rewrite (search_url_here _ _ (url_here_run scheme run tail' Hscheme Hrun Hne Htail')).
  rewrite (strip_no_space _ HU). f_equal.
  unfold run. rewrite <- string_app_assoc. apply rstrip_chars_drop; [exact Hpunct|].
  intros c. rewrite list_ascii_of_string_app, last_app.
  destruct (last (list_ascii_of_string body)) as [c'|] eqn:Hl.
  - intros [= <-]. now apply Hbody.
  - rewrite Ha, list_ascii_of_string_app. cbn [list_ascii_of_string].
    rewrite last_snoc. now intros [= <-].
Qed.

Lemma link_is_extracted_witness :
  _extract_first_url "Look: https://youtu.be/abc?t=1). More here"
  = Some "https://youtu.be/abc?t=1".
Proof.
  apply (link_is_extracted "Look: " "https://" "youtu.be/abc?t=1" ")." " More here");
    try reflexivity.
  - now right.
  - discriminate.
  - intros c H. vm_compute in H. injection H as <-. reflexivity.
  - right. now exists " "%char, "More here".
Defined.
